(** * DeepMindChess: the random-move chess client of [main.py]

    [main.py] is a script over three libraries: [socketio] (the event
    client), [chess] (python-chess, the rules of the game) and [random].
    The functions the script defines ([connect], [connect_error],
    [disconnect], [on_player_role], [on_spectator], [on_boardstate],
    [on_move], [make_moves]) and its top-level statements ([main]) are
    embedded from [main.py], as computations over the module's globals
    [sio], [chessboard] and [player_role] that return or raise.

    The libraries are not part of the repository.  What the script calls in
    them is embedded in the modules [chess], [random] and [socketio] below,
    after the libraries' own functions of the same names: python-chess 1.x
    for standard chess ([chess960 = False]), CPython's [random.choice],
    python-socketio's [Client].  A bitboard is kept as the set of its
    squares, the pieces of a board as a map from squares to pieces. *)

From Stdlib Require Import ZArith String Ascii List Bool Lia DecimalString.
From stdpp Require Import gmap strings list.
Import ListNotations.
Local Open Scope string_scope.
Local Open Scope nat_scope.

(** ** Python values and exceptions *)

(** The values a decoded event payload can hold (JSON without floats; an
    integer is one that the decoder reads and [str] shows).  A
    [str] is held as the bytes of its UTF-8 form.  A lone surrogate (U+D800
    to U+DFFF), which the text of an event can carry as an escape and which
    has no UTF-8 form, is held as the three bytes ED, A0..BF, 80..BF; in
    the UTF-8 form of every other character the byte ED is followed by one
    below A0. *)
#[local] Set Warnings "-register-all".
Inductive pyval : Type :=
| PyNone
| PyBool (b : bool)
| PyInt (n : Z)
| PyStr (s : string)
| PyList (l : list pyval)
| PyDict (d : list (string * pyval)).

(** The exception classes that the calls of [main.py] can raise; every one
    of them is a subclass of [Exception]. *)
Inductive exn : Type :=
| KeyError (key : string)
| TypeError
| AttributeError
| ValueError
| InvalidMoveError
| AssertionError
| IndexError
| ConnectionError
| BadNamespaceError
| UnicodeEncodeError.

(** The result of a call: it returns a value or raises. *)
Inductive outcome (A : Type) : Type :=
| Return (a : A)
| Raise (e : exn).
Arguments Return {A} a.
Arguments Raise {A} e.

Definition raised {A} (o : outcome A) : bool :=
  match o with Return _ => false | Raise _ => true end.

(** [container[key]] for a string key. *)
Fixpoint dict_get (d : list (string * pyval)) (key : string) : outcome pyval :=
  match d with
  | [] => Raise (KeyError key)
  | (k, v) :: d' => if String.eqb k key then Return v else dict_get d' key
  end.

Definition py_getitem (container : pyval) (key : string) : outcome pyval :=
  match container with
  | PyDict d => dict_get d key
  | _ => Raise TypeError
  end.

Definition int_of (v : pyval) : option Z :=
  match v with
  | PyInt n => Some n
  | PyBool b => Some (if b then 1 else 0)%Z
  | _ => None
  end.

(** [a + b]. *)
Definition py_add (a b : pyval) : outcome pyval :=
  match a, b with
  | PyStr s, PyStr t => Return (PyStr (s +:+ t))
  | PyList l, PyList k => Return (PyList (l ++ k))
  | _, _ =>
      match int_of a, int_of b with
      | Some m, Some n => Return (PyInt (m + n))
      | _, _ => Raise TypeError
      end
  end.

(** [s == v] for a string [s]: only an equal string compares equal. *)
Definition py_eq_str (s : string) (v : pyval) : bool :=
  match v with
  | PyStr t => String.eqb s t
  | _ => false
  end.

Definition isSome {A} (o : option A) : bool :=
  match o with Some _ => true | None => false end.

(** [list.index]: the position of the first occurrence. *)
Fixpoint index_of {A} (eqb : A -> A -> bool) (x : A) (l : list A) : option nat :=
  match l with
  | [] => None
  | y :: l' => if eqb y x then Some 0 else option_map S (index_of eqb x l')
  end.

(** Whether a string holds a lone surrogate. *)
Fixpoint has_surrogate (s : string) : bool :=
  match s with
  | EmptyString => false
  | String c s' =>
      match s' with
      | EmptyString => false
      | String d _ =>
          (Nat.eqb (nat_of_ascii c) 237
           && (160 <=? nat_of_ascii d) && (nat_of_ascii d <=? 191))
          || has_surrogate s'
      end
  end.

(** Python slices [s[i:j]] and [s[i:]] of a string, for [0 <= i <= j]. *)
Definition slice (s : string) (i j : nat) : string := String.substring i (j - i) s.
Definition slice_from (s : string) (i : nat) : string :=
  String.substring i (String.length s - i) s.

(** ** The [chess] library *)

Module chess.

Definition Square := nat.
Definition Color := bool.
Definition WHITE : Color := true.
Definition BLACK : Color := false.

Inductive PieceType := PAWN | KNIGHT | BISHOP | ROOK | QUEEN | KING.

Definition PieceType_eqb (a b : PieceType) : bool :=
  match a, b with
  | PAWN, PAWN | KNIGHT, KNIGHT | BISHOP, BISHOP
  | ROOK, ROOK | QUEEN, QUEEN | KING, KING => true
  | _, _ => false
  end.

Definition FILE_NAMES : list string := ["a"; "b"; "c"; "d"; "e"; "f"; "g"; "h"].
Definition RANK_NAMES : list string := ["1"; "2"; "3"; "4"; "5"; "6"; "7"; "8"].

(** [SQUARE_NAMES = [f + r for r in RANK_NAMES for f in FILE_NAMES]] *)
Definition SQUARE_NAMES : list string :=
  flat_map (fun r => map (fun f => f +:+ r) FILE_NAMES) RANK_NAMES.

Definition square_name (sq : Square) : string := nth sq SQUARE_NAMES "".
Definition square_file (sq : Square) : nat := sq mod 8.
Definition square_rank (sq : Square) : nat := sq / 8.
Definition square (file rank : nat) : Square := rank * 8 + file.

Definition A1 : Square := 0.
Definition C1 : Square := 2.
Definition D1 : Square := 3.
Definition E1 : Square := 4.
Definition F1 : Square := 5.
Definition G1 : Square := 6.
Definition H1 : Square := 7.
Definition A8 : Square := 56.
Definition C8 : Square := 58.
Definition D8 : Square := 59.
Definition E8 : Square := 60.
Definition F8 : Square := 61.
Definition G8 : Square := 62.
Definition H8 : Square := 63.

(** [PIECE_SYMBOLS = [None, "p", "n", "b", "r", "q", "k"]] *)
Definition piece_symbol (pt : PieceType) : string :=
  match pt with
  | PAWN => "p" | KNIGHT => "n" | BISHOP => "b"
  | ROOK => "r" | QUEEN => "q" | KING => "k"
  end.

Definition PIECE_TYPES : list PieceType := [PAWN; KNIGHT; BISHOP; ROOK; QUEEN; KING].

(** [PIECE_SYMBOLS.index(s)], as a piece type. *)
Definition piece_type_of_symbol (s : string) : option PieceType :=
  List.find (fun pt => String.eqb (piece_symbol pt) s) PIECE_TYPES.

Definition lower_ascii (c : ascii) : ascii :=
  let n := nat_of_ascii c in
  if (65 <=? n)%nat && (n <=? 90)%nat then ascii_of_nat (n + 32) else c.
Definition upper_ascii (c : ascii) : ascii :=
  let n := nat_of_ascii c in
  if (97 <=? n)%nat && (n <=? 122)%nat then ascii_of_nat (n - 32) else c.
Fixpoint lower (s : string) : string :=
  match s with
  | EmptyString => EmptyString
  | String c s' => String (lower_ascii c) (lower s')
  end.
Fixpoint upper (s : string) : string :=
  match s with
  | EmptyString => EmptyString
  | String c s' => String (upper_ascii c) (upper s')
  end.

(** *** Moves *)

Record Move := {
  from_square : Square;
  to_square : Square;
  promotion : option PieceType;
  drop : option PieceType
}.

Definition mv (f t : Square) : Move :=
  {| from_square := f; to_square := t; promotion := None; drop := None |}.
Definition mv_promote (f t : Square) (p : PieceType) : Move :=
  {| from_square := f; to_square := t; promotion := Some p; drop := None |}.

Definition Move_null : Move := mv 0 0.

(** [bool(move)]: false for the null move only. *)
Definition Move_bool (m : Move) : bool :=
  negb (Nat.eqb (from_square m) 0) || negb (Nat.eqb (to_square m) 0)
  || isSome (promotion m) || isSome (drop m).

Definition option_PieceType_eqb (a b : option PieceType) : bool :=
  match a, b with
  | Some x, Some y => PieceType_eqb x y
  | None, None => true
  | _, _ => false
  end.

Definition Move_eqb (a b : Move) : bool :=
  Nat.eqb (from_square a) (from_square b) && Nat.eqb (to_square a) (to_square b)
  && option_PieceType_eqb (promotion a) (promotion b)
  && option_PieceType_eqb (drop a) (drop b).

(** [Move.uci()] *)
Definition uci (m : Move) : string :=
  match drop m with
  | Some d => upper (piece_symbol d) +:+ "@" +:+ square_name (to_square m)
  | None =>
      match promotion m with
      | Some p => square_name (from_square m) +:+ square_name (to_square m) +:+ piece_symbol p
      | None =>
          if Move_bool m then square_name (from_square m) +:+ square_name (to_square m)
          else "0000"
      end
  end.

(** [Move.from_uci(uci)] on a string. *)
Definition from_uci_str (u : string) : outcome Move :=
  let n := String.length u in
  if String.eqb u "0000" then Return Move_null
  else if Nat.eqb n 4 && String.eqb (slice u 1 2) "@" then
    match piece_type_of_symbol (lower (slice u 0 1)),
          index_of String.eqb (slice_from u 2) SQUARE_NAMES with
    | Some d, Some sq =>
        Return {| from_square := sq; to_square := sq; promotion := None; drop := Some d |}
    | _, _ => Raise InvalidMoveError
    end
  else if (4 <=? n)%nat && (n <=? 5)%nat then
    match index_of String.eqb (slice u 0 2) SQUARE_NAMES,
          index_of String.eqb (slice u 2 4) SQUARE_NAMES with
    | Some f, Some t =>
        let finish (p : option PieceType) :=
          if Nat.eqb f t then Raise InvalidMoveError
          else Return {| from_square := f; to_square := t; promotion := p; drop := None |} in
        if Nat.eqb n 5 then
          match piece_type_of_symbol (slice u 4 5) with
          | Some p => finish (Some p)
          | None => Raise InvalidMoveError
          end
        else finish None
    | _, _ => Raise InvalidMoveError
    end
  else Raise InvalidMoveError.

(** [Move.from_uci] on any value.  The argument in [main.py] is the result
    of a [+], so a string, an integer or a list; what is not a string fails
    in [len], in [.lower()] or in one of the [index] lookups. *)
Definition from_uci (v : pyval) : outcome Move :=
  match v with
  | PyStr u => from_uci_str u
  | PyList [PyStr _; PyStr "@"; _; _] => Raise InvalidMoveError
  | PyList [_; PyStr "@"; _; _] => Raise AttributeError
  | PyList _ => Raise InvalidMoveError
  | _ => Raise TypeError
  end.

(** *** Bitboards, kept as sets of squares below 64 *)

Definition Bitboard := Square -> bool.

Definition SQUARES : list Square := seq 0 64.
Definition BB_EMPTY : Bitboard := fun _ => false.
Definition BB_ALL : Bitboard := fun sq => sq <? 64.
Definition BB_SQUARE (s : Square) : Bitboard := fun sq => (sq <? 64) && Nat.eqb sq s.
Definition band (a b : Bitboard) : Bitboard := fun sq => a sq && b sq.
Definition bor (a b : Bitboard) : Bitboard := fun sq => a sq || b sq.
Definition bxor (a b : Bitboard) : Bitboard := fun sq => xorb (a sq) (b sq).
Definition bnot (a : Bitboard) : Bitboard := fun sq => (sq <? 64) && negb (a sq).
Infix ".&" := band (at level 40, left associativity).
Infix ".|" := bor (at level 50, left associativity).
Infix ".^" := bxor (at level 50, left associativity).
Notation ".~ a" := (bnot a) (at level 35, right associativity).

Definition bb_of_list (l : list Square) : Bitboard :=
  fun sq => (sq <? 64) && existsb (Nat.eqb sq) l.

(** Iteration from the highest square down, and the truth value of a
    bitboard. *)
Definition scan_reversed (bb : Bitboard) : list Square := List.filter bb (rev SQUARES).
Definition bb_any (bb : Bitboard) : bool := existsb bb SQUARES.
Definition msb (bb : Bitboard) : option Square := head (scan_reversed bb).
Definition lsb (bb : Bitboard) : option Square := head (List.filter bb SQUARES).
Definition popcount (bb : Bitboard) : nat := length (scan_reversed bb).
Definition bb_eqb (a b : Bitboard) : bool := forallb (fun sq => Bool.eqb (a sq) (b sq)) SQUARES.

Definition BB_RANK (r : nat) : Bitboard := fun sq => (sq <? 64) && Nat.eqb (square_rank sq) r.
Definition BB_FILE (f : nat) : Bitboard := fun sq => (sq <? 64) && Nat.eqb (square_file sq) f.
Definition BB_LIGHT_SQUARES : Bitboard :=
  fun sq => (sq <? 64) && Nat.odd (square_file sq + square_rank sq).
Definition BB_DARK_SQUARES : Bitboard :=
  fun sq => (sq <? 64) && Nat.even (square_file sq + square_rank sq).

Definition square_distance (a b : Z) : Z :=
  Z.max (Z.abs (a mod 8 - b mod 8)) (Z.abs (a / 8 - b / 8)).

(** One direction of [_sliding_attacks]: step by [delta] until the edge of
    the board or the first occupied square (included).  No direction has
    more than seven steps. *)
Fixpoint slide (fuel : nat) (occupied : Bitboard) (delta sq : Z) : list Square :=
  match fuel with
  | O => []
  | S fuel' =>
      let sq' := (sq + delta)%Z in
      if negb ((0 <=? sq')%Z && (sq' <? 64)%Z) || (2 <? square_distance sq' sq)%Z then []
      else Z.to_nat sq' ::
           (if occupied (Z.to_nat sq') then [] else slide fuel' occupied delta sq')
  end.

Definition sliding_attacks (sq : Square) (occupied : Bitboard) (deltas : list Z) : Bitboard :=
  bb_of_list (flat_map (fun d => slide 8 occupied d (Z.of_nat sq)) deltas).
Definition step_attacks (sq : Square) (deltas : list Z) : Bitboard :=
  sliding_attacks sq BB_ALL deltas.

Definition BB_KNIGHT_ATTACKS (sq : Square) : Bitboard :=
  step_attacks sq [17; 15; 10; 6; -17; -15; -10; -6]%Z.
Definition BB_KING_ATTACKS (sq : Square) : Bitboard :=
  step_attacks sq [9; 8; 7; 1; -9; -8; -7; -1]%Z.
Definition BB_PAWN_ATTACKS (c : Color) (sq : Square) : Bitboard :=
  step_attacks sq (if c then [7; 9] else [-7; -9])%Z.
Definition diag_attacks (sq : Square) (occupied : Bitboard) : Bitboard :=
  sliding_attacks sq occupied [-9; -7; 7; 9]%Z.
Definition file_attacks (sq : Square) (occupied : Bitboard) : Bitboard :=
  sliding_attacks sq occupied [-8; 8]%Z.
Definition rank_attacks (sq : Square) (occupied : Bitboard) : Bitboard :=
  sliding_attacks sq occupied [-1; 1]%Z.

(** [ray(a, b)]: the whole line through [a] and [b], or nothing. *)
Definition ray (a b : Square) : Bitboard :=
  if diag_attacks a BB_EMPTY b then
    (diag_attacks a BB_EMPTY .& diag_attacks b BB_EMPTY) .| BB_SQUARE a .| BB_SQUARE b
  else if rank_attacks a BB_EMPTY b then rank_attacks a BB_EMPTY .| BB_SQUARE a
  else if file_attacks a BB_EMPTY b then file_attacks a BB_EMPTY .| BB_SQUARE a
  else BB_EMPTY.

(** [between(a, b)]: the squares of the ray strictly between the two. *)
Definition between (a b : Square) : Bitboard :=
  fun sq => ray a b sq && (Nat.min a b <? sq) && (sq <? Nat.max a b).

(** *** The board *)

Record Piece := { piece_type : PieceType; color : Color }.

(** What [_BoardState] records of a board: the position itself. *)
Record BoardState := {
  pieces : gmap Square Piece;
  promoted : gset Square;
  turn : Color;
  castling_rights : gset Square;
  ep_square : option Square;
  halfmove_clock : nat;
  fullmove_number : nat
}.

(** A [Board]: the position, the moves pushed since the last reset and the
    positions they were pushed on. *)
Record Board := {
  state : BoardState;
  move_stack : list Move;
  stack : list BoardState
}.

Coercion state : Board >-> BoardState.

Definition piece_at (b : BoardState) (sq : Square) : option Piece := pieces b !! sq.
Definition piece_type_at (b : BoardState) (sq : Square) : option PieceType :=
  piece_type <$> piece_at b sq.

Definition occupied (b : BoardState) : Bitboard :=
  fun sq => (sq <? 64) && isSome (piece_at b sq).
Definition occupied_co (b : BoardState) (c : Color) : Bitboard :=
  fun sq => (sq <? 64) &&
    match piece_at b sq with Some p => Bool.eqb (color p) c | None => false end.
Definition of_type (b : BoardState) (pt : PieceType) : Bitboard :=
  fun sq => (sq <? 64) &&
    match piece_at b sq with Some p => PieceType_eqb (piece_type p) pt | None => false end.
Definition pawns b := of_type b PAWN.
Definition knights b := of_type b KNIGHT.
Definition bishops b := of_type b BISHOP.
Definition rooks b := of_type b ROOK.
Definition queens b := of_type b QUEEN.
Definition kings b := of_type b KING.
Definition promoted_bb (b : BoardState) : Bitboard :=
  fun sq => (sq <? 64) && bool_decide (sq ∈ promoted b).
Definition castling_bb (cr : gset Square) : Bitboard :=
  fun sq => (sq <? 64) && bool_decide (sq ∈ cr).
Definition gset_of (bb : Bitboard) : gset Square := list_to_set (scan_reversed bb).

(** [Board.king(color)] *)
Definition king (b : BoardState) (c : Color) : option Square :=
  msb (occupied_co b c .& kings b .& .~ promoted_bb b).

(** [Board.clean_castling_rights()] *)
Definition clean_castling_rights (b : Board) : Bitboard :=
  match stack b with
  | _ :: _ => castling_bb (castling_rights b)
  | [] =>
      let castling := castling_bb (castling_rights b) .& rooks b in
      let white_castling :=
        castling .& BB_RANK 0 .& occupied_co b WHITE .& (BB_SQUARE A1 .| BB_SQUARE H1) in
      let black_castling :=
        castling .& BB_RANK 7 .& occupied_co b BLACK .& (BB_SQUARE A8 .| BB_SQUARE H8) in
      let white_castling :=
        if (occupied_co b WHITE .& kings b .& .~ promoted_bb b) E1
        then white_castling else BB_EMPTY in
      let black_castling :=
        if (occupied_co b BLACK .& kings b .& .~ promoted_bb b) E8
        then black_castling else BB_EMPTY in
      white_castling .| black_castling
  end.

(** [Board.attacks_mask(square)] *)
Definition attacks_mask (b : BoardState) (sq : Square) : Bitboard :=
  match piece_at b sq with
  | Some {| piece_type := PAWN; color := c |} => BB_PAWN_ATTACKS c sq
  | Some {| piece_type := KNIGHT |} => BB_KNIGHT_ATTACKS sq
  | Some {| piece_type := KING |} => BB_KING_ATTACKS sq
  | Some {| piece_type := BISHOP |} => diag_attacks sq (occupied b)
  | Some {| piece_type := ROOK |} => rank_attacks sq (occupied b) .| file_attacks sq (occupied b)
  | Some {| piece_type := QUEEN |} =>
      diag_attacks sq (occupied b) .| (rank_attacks sq (occupied b) .| file_attacks sq (occupied b))
  | None => BB_EMPTY
  end.

(** [Board._attackers_mask(color, square, occupied)] *)
Definition attackers_mask_occ (b : BoardState) (c : Color) (sq : Square)
    (occ : Bitboard) : Bitboard :=
  let queens_and_rooks := queens b .| rooks b in
  let queens_and_bishops := queens b .| bishops b in
  ((BB_KING_ATTACKS sq .& kings b) .|
   (BB_KNIGHT_ATTACKS sq .& knights b) .|
   (rank_attacks sq occ .& queens_and_rooks) .|
   (file_attacks sq occ .& queens_and_rooks) .|
   (diag_attacks sq occ .& queens_and_bishops) .|
   (BB_PAWN_ATTACKS (negb c) sq .& pawns b)) .& occupied_co b c.

Definition attackers_mask (b : BoardState) (c : Color) (sq : Square) : Bitboard :=
  attackers_mask_occ b c sq (occupied b).
Definition is_attacked_by (b : BoardState) (c : Color) (sq : Square) : bool :=
  bb_any (attackers_mask b c sq).

(** [Board.checkers_mask()] and [Board.is_check()] *)
Definition checkers_mask (b : BoardState) : Bitboard :=
  match king b (turn b) with
  | None => BB_EMPTY
  | Some k => attackers_mask b (negb (turn b)) k
  end.
Definition is_check (b : BoardState) : bool := bb_any (checkers_mask b).

(** [Board._from_chess960(False, from_square, to_square, promotion, drop)] *)
Definition from_chess960 (b : BoardState) (f t : Square)
    (p d : option PieceType) : Move :=
  let plain := {| from_square := f; to_square := t; promotion := p; drop := d |} in
  match p, d with
  | None, None =>
      if Nat.eqb f E1 && kings b E1 then
        if Nat.eqb t H1 then mv E1 G1 else if Nat.eqb t A1 then mv E1 C1 else plain
      else if Nat.eqb f E8 && kings b E8 then
        if Nat.eqb t H8 then mv E8 G8 else if Nat.eqb t A8 then mv E8 C8 else plain
      else plain
  | _, _ => plain
  end.

(** [Board._to_chess960(move)] *)
Definition to_chess960 (b : BoardState) (m : Move) : Move :=
  if Nat.eqb (from_square m) E1 && kings b E1 then
    if Nat.eqb (to_square m) G1 && negb (rooks b G1) then mv E1 H1
    else if Nat.eqb (to_square m) C1 && negb (rooks b C1) then mv E1 A1
    else m
  else if Nat.eqb (from_square m) E8 && kings b E8 then
    if Nat.eqb (to_square m) G8 && negb (rooks b G8) then mv E8 H8
    else if Nat.eqb (to_square m) C8 && negb (rooks b C8) then mv E8 A8
    else m
  else m.

(** [Board._attacked_for_king(path, occupied)] *)
Definition attacked_for_king (b : BoardState) (path occ : Bitboard) : bool :=
  existsb (fun sq => bb_any (attackers_mask_occ b (negb (turn b)) sq occ)) (scan_reversed path).

(** [Board.generate_castling_moves(from_mask, to_mask)] *)
Definition generate_castling_moves (b : Board) (from_mask to_mask : Bitboard) : list Move :=
  let r := if turn b then 0 else 7 in
  let backrank := BB_RANK r in
  match lsb (occupied_co b (turn b) .& kings b .& .~ promoted_bb b .& backrank .& from_mask) with
  | None => []
  | Some k =>
      let king_bb := BB_SQUARE k in
      flat_map (fun candidate =>
        let rook := BB_SQUARE candidate in
        let a_side := candidate <? k in
        let king_to := if a_side then square 2 r else square 6 r in
        let rook_to := if a_side then square 3 r else square 5 r in
        let king_path := between k king_to in
        let rook_path := between candidate rook_to in
        if bb_any ((occupied b .^ king_bb .^ rook) .&
                   (king_path .| rook_path .| BB_SQUARE king_to .| BB_SQUARE rook_to))
           || attacked_for_king b (king_path .| king_bb) (occupied b .^ king_bb)
           || attacked_for_king b (BB_SQUARE king_to)
                (occupied b .^ king_bb .^ rook .^ BB_SQUARE rook_to)
        then []
        else [from_chess960 b k candidate None None])
      (scan_reversed (clean_castling_rights b .& backrank .& to_mask))
  end.

(** The moves of a pawn step onto [t]: four promotions on a back rank. *)
Definition pawn_moves_to (f t : Square) : list Move :=
  if Nat.eqb (square_rank t) 0 || Nat.eqb (square_rank t) 7
  then [mv_promote f t QUEEN; mv_promote f t ROOK; mv_promote f t BISHOP; mv_promote f t KNIGHT]
  else [mv f t].

(** [Board.generate_pseudo_legal_ep(from_mask, to_mask)] *)
Definition generate_pseudo_legal_ep (b : BoardState) (from_mask to_mask : Bitboard)
    : list Move :=
  match ep_square b with
  | None => []
  | Some ep =>
      if Nat.eqb ep 0 || negb ((BB_SQUARE ep .& to_mask) ep) then []
      else if occupied b ep then []
      else
        let capturers :=
          pawns b .& occupied_co b (turn b) .& from_mask .&
          BB_PAWN_ATTACKS (negb (turn b)) ep .& BB_RANK (if turn b then 4 else 3) in
        map (fun capturer => mv capturer ep) (scan_reversed capturers)
  end.

(** [pawns << 8] and [pawns >> 8] *)
Definition shift_up (bb : Bitboard) : Bitboard :=
  fun sq => (sq <? 64) && (8 <=? sq) && bb (sq - 8).
Definition shift_down (bb : Bitboard) : Bitboard :=
  fun sq => (sq + 8 <? 64) && bb (sq + 8).

(** [Board.generate_pseudo_legal_moves(from_mask, to_mask)], in the order
    the generator yields. *)
Definition generate_pseudo_legal_moves (b : Board) (from_mask to_mask : Bitboard)
    : list Move :=
  let our_pieces := occupied_co b (turn b) in
  let non_pawns := our_pieces .& .~ pawns b .& from_mask in
  let piece_moves :=
    flat_map (fun f =>
      map (fun t => mv f t) (scan_reversed (attacks_mask b f .& .~ our_pieces .& to_mask)))
      (scan_reversed non_pawns) in
  let castling_moves :=
    if bb_any (from_mask .& kings b) then generate_castling_moves b from_mask to_mask else [] in
  let our_pawns := pawns b .& occupied_co b (turn b) .& from_mask in
  if negb (bb_any our_pawns) then piece_moves ++ castling_moves
  else
    let captures :=
      flat_map (fun f =>
        flat_map (fun t => pawn_moves_to f t)
          (scan_reversed (BB_PAWN_ATTACKS (turn b) f .& occupied_co b (negb (turn b)) .& to_mask)))
        (scan_reversed our_pawns) in
    let single_moves :=
      (if turn b then shift_up our_pawns else shift_down our_pawns) .& .~ occupied b in
    let double_moves :=
      (if turn b then shift_up single_moves else shift_down single_moves) .& .~ occupied b .&
      (if turn b then BB_RANK 2 .| BB_RANK 3 else BB_RANK 5 .| BB_RANK 4) in
    let singles :=
      flat_map (fun t => pawn_moves_to (if turn b then t - 8 else t + 8) t)
        (scan_reversed (single_moves .& to_mask)) in
    let doubles :=
      map (fun t => mv (if turn b then t - 16 else t + 16) t)
        (scan_reversed (double_moves .& to_mask)) in
    let ep_moves :=
      match ep_square b with
      | Some (S _) => generate_pseudo_legal_ep b from_mask to_mask
      | _ => []
      end in
    piece_moves ++ castling_moves ++ captures ++ singles ++ doubles ++ ep_moves.

(** [Board.is_castling(move)] and [Board.is_en_passant(move)] *)
Definition is_castling (b : BoardState) (m : Move) : bool :=
  if kings b (from_square m) then
    let diff := (Z.of_nat (square_file (from_square m)) - Z.of_nat (square_file (to_square m)))%Z in
    (1 <? Z.abs diff)%Z || (rooks b .& occupied_co b (turn b)) (to_square m)
  else false.

Definition is_en_passant (b : BoardState) (m : Move) : bool :=
  match ep_square b with
  | Some ep =>
      Nat.eqb ep (to_square m) && pawns b (from_square m) &&
      (let d := Z.abs (Z.of_nat (to_square m) - Z.of_nat (from_square m)) in
       (d =? 7)%Z || (d =? 9)%Z) &&
      negb (occupied b (to_square m))
  | None => false
  end.

(** [Board.pin_mask(color, square)] *)
Definition pin_on_line (b : BoardState) (c : Color) (k sq : Square)
    (rays sliders : Bitboard) : Bitboard :=
  let snipers := rays .& sliders .& occupied_co b (negb c) in
  match List.find (fun sniper =>
          bb_eqb (between sniper k .& (occupied b .| BB_SQUARE sq)) (BB_SQUARE sq))
          (scan_reversed snipers) with
  | Some sniper => ray k sniper
  | None => BB_ALL
  end.

Definition pin_mask (b : BoardState) (c : Color) (sq : Square) : Bitboard :=
  match king b c with
  | None => BB_ALL
  | Some k =>
      if file_attacks k BB_EMPTY sq then
        pin_on_line b c k sq (file_attacks k BB_EMPTY) (rooks b .| queens b)
      else if rank_attacks k BB_EMPTY sq then
        pin_on_line b c k sq (rank_attacks k BB_EMPTY) (rooks b .| queens b)
      else if diag_attacks k BB_EMPTY sq then
        pin_on_line b c k sq (diag_attacks k BB_EMPTY) (bishops b .| queens b)
      else BB_ALL
  end.

(** [Board._slider_blockers(king)] *)
Definition slider_blockers (b : BoardState) (k : Square) : Bitboard :=
  let rooks_and_queens := rooks b .| queens b in
  let bishops_and_queens := bishops b .| queens b in
  let snipers :=
    (rank_attacks k BB_EMPTY .& rooks_and_queens) .|
    (file_attacks k BB_EMPTY .& rooks_and_queens) .|
    (diag_attacks k BB_EMPTY .& bishops_and_queens) in
  let blockers :=
    flat_map (fun sniper =>
      let bw := scan_reversed (between k sniper .& occupied b) in
      if Nat.eqb (length bw) 1 then bw else [])
      (scan_reversed (snipers .& occupied_co b (negb (turn b)))) in
  bb_of_list blockers .& occupied_co b (turn b).

(** [Board._ep_skewered(king, capturer)] *)
Definition ep_skewered (b : BoardState) (k capturer : Square) : bool :=
  match ep_square b with
  | None => false
  | Some ep =>
      let last_double := if turn b then ep - 8 else ep + 8 in
      let occupancy :=
        (occupied b .& .~ BB_SQUARE last_double .& .~ BB_SQUARE capturer) .| BB_SQUARE ep in
      let horizontal_attackers := occupied_co b (negb (turn b)) .& (rooks b .| queens b) in
      let diagonal_attackers := occupied_co b (negb (turn b)) .& (bishops b .| queens b) in
      bb_any (rank_attacks k occupancy .& horizontal_attackers)
      || bb_any (diag_attacks k occupancy .& diagonal_attackers)
  end.

(** [Board._is_safe(king, blockers, move)] *)
Definition is_safe (b : BoardState) (k : Square) (blockers : Bitboard) (m : Move) : bool :=
  if Nat.eqb (from_square m) k then
    if is_castling b m then true
    else negb (is_attacked_by b (negb (turn b)) (to_square m))
  else if is_en_passant b m then
    pin_mask b (turn b) (from_square m) (to_square m)
    && negb (ep_skewered b k (from_square m))
  else
    negb (blockers (from_square m)) || ray (from_square m) (to_square m) k.

(** [Board._generate_evasions(king, checkers, from_mask, to_mask)] *)
Definition generate_evasions (b : Board) (k : Square) (checkers from_mask to_mask : Bitboard)
    : list Move :=
  let sliders := checkers .& (bishops b .| rooks b .| queens b) in
  let attacked :=
    bb_of_list (flat_map (fun checker => scan_reversed (ray k checker .& .~ BB_SQUARE checker))
                  (scan_reversed sliders)) in
  let king_moves :=
    if (BB_SQUARE k .& from_mask) k then
      map (fun t => mv k t)
        (scan_reversed (BB_KING_ATTACKS k .& .~ occupied_co b (turn b) .& .~ attacked .& to_mask))
    else [] in
  match scan_reversed checkers with
  | [checker] =>
      let target := between k checker .| checkers in
      let blocks := generate_pseudo_legal_moves b (.~ kings b .& from_mask) (target .& to_mask) in
      let ep_moves :=
        match ep_square b with
        | Some (S _ as ep) =>
            if negb (target ep) && Nat.eqb (if turn b then ep - 8 else ep + 8) checker
            then generate_pseudo_legal_ep b from_mask to_mask else []
        | _ => []
        end in
      king_moves ++ blocks ++ ep_moves
  | _ => king_moves
  end.

(** [Board.generate_legal_moves()]; [list(board.legal_moves)] is this list. *)
Definition generate_legal_moves (b : Board) (from_mask to_mask : Bitboard) : list Move :=
  match msb (kings b .& occupied_co b (turn b)) with
  | Some k =>
      let blockers := slider_blockers b k in
      let checkers := attackers_mask b (negb (turn b)) k in
      if bb_any checkers then
        List.filter (is_safe b k blockers) (generate_evasions b k checkers from_mask to_mask)
      else
        List.filter (is_safe b k blockers) (generate_pseudo_legal_moves b from_mask to_mask)
  | None => generate_pseudo_legal_moves b from_mask to_mask
  end.

Definition legal_moves (b : Board) : list Move := generate_legal_moves b BB_ALL BB_ALL.

(** *** Playing a move *)

Definition with_pieces (b : BoardState) (ps : gmap Square Piece) (pr : gset Square)
    : BoardState :=
  {| pieces := ps; promoted := pr; turn := turn b; castling_rights := castling_rights b;
     ep_square := ep_square b; halfmove_clock := halfmove_clock b;
     fullmove_number := fullmove_number b |}.

(** [Board._remove_piece_at(square)] and [Board._set_piece_at(...)] *)
Definition remove_piece_at (sq : Square) (b : BoardState) : BoardState :=
  with_pieces b (delete sq (pieces b)) (promoted b ∖ {[sq]}).

Definition set_piece_at (sq : Square) (pt : PieceType) (c : Color) (prom : bool)
    (b : BoardState) : BoardState :=
  with_pieces b (<[sq := {| piece_type := pt; color := c |}]> (pieces b))
    (if prom then promoted b ∪ {[sq]} else promoted b ∖ {[sq]}).

Definition swap_turn (b : BoardState) : BoardState :=
  {| pieces := pieces b; promoted := promoted b; turn := negb (turn b);
     castling_rights := castling_rights b; ep_square := ep_square b;
     halfmove_clock := halfmove_clock b; fullmove_number := fullmove_number b |}.

Definition with_rights (b : BoardState) (cr : gset Square) (ep : option Square)
    : BoardState :=
  {| pieces := pieces b; promoted := promoted b; turn := turn b;
     castling_rights := cr; ep_square := ep;
     halfmove_clock := halfmove_clock b; fullmove_number := fullmove_number b |}.

Definition with_halfmove_clock (b : BoardState) (n : nat) : BoardState :=
  {| pieces := pieces b; promoted := promoted b; turn := turn b;
     castling_rights := castling_rights b; ep_square := ep_square b;
     halfmove_clock := n; fullmove_number := fullmove_number b |}.

(** [Board.is_zeroing(move)] *)
Definition is_zeroing (b : BoardState) (m : Move) : bool :=
  let touched := BB_SQUARE (from_square m) .^ BB_SQUARE (to_square m) in
  bb_any (touched .& pawns b) || bb_any (touched .& occupied_co b (negb (turn b)))
  || option_PieceType_eqb (drop m) (Some PAWN).

(** [BB_SQUARES[i]] for a computed index: Python counts a negative index
    from the end of the list and raises [IndexError] outside of it. *)
Definition BB_SQUARES_index (i : Z) : outcome Square :=
  if (0 <=? i)%Z && (i <? 64)%Z then Return (Z.to_nat i)
  else if (-64 <=? i)%Z && (i <? 0)%Z then Return (Z.to_nat (64 + i))
  else Raise IndexError.

(** The part of [push] under "Update castling rights": the rights left
    once a piece of type [pt] has gone from [f] to [t], where [captured]
    stood. *)
Definition push_castling_rights (s : BoardState) (cr0 : gset Square) (pt : PieceType)
    (was_promoted : bool) (captured : option PieceType) (f t : Square) : Bitboard :=
  let cr1 := castling_bb cr0 .& .~ BB_SQUARE t .& .~ BB_SQUARE f in
  if PieceType_eqb pt KING && negb was_promoted then
    if turn s then cr1 .& .~ BB_RANK 0 else cr1 .& .~ BB_RANK 7
  else if option_PieceType_eqb captured (Some KING) && negb (promoted_bb s t) then
    if turn s && Nat.eqb (square_rank t) 7 then cr1 .& .~ BB_RANK 7
    else if negb (turn s) && Nat.eqb (square_rank t) 0 then cr1 .& .~ BB_RANK 0
    else cr1
  else cr1.

(** The part of [push] under "Handle special pawn moves": a double step
    sets the en passant square, a capture onto the old en passant square
    [ep] removes the pawn behind it. *)
Definition push_pawn_moves (s : BoardState) (ep : option Square) (pt : PieceType)
    (captured : option PieceType) (f t : Square) : outcome BoardState :=
  let diff := (Z.of_nat t - Z.of_nat f)%Z in
  if PieceType_eqb pt PAWN then
    if (diff =? 16)%Z && Nat.eqb (square_rank f) 1 then
      Return (with_rights s (castling_rights s) (Some (f + 8)))
    else if (diff =? -16)%Z && Nat.eqb (square_rank f) 6 then
      Return (with_rights s (castling_rights s) (Some (f - 8)))
    else
      match ep with
      | Some e =>
          if Nat.eqb t e && ((Z.abs diff =? 7)%Z || (Z.abs diff =? 9)%Z)
             && negb (isSome captured) then
            match BB_SQUARES_index (Z.of_nat e + (if turn s then -8 else 8)) with
            | Return capture_square => Return (remove_piece_at capture_square s)
            | Raise err => Raise err
            end
          else Return s
      | None => Return s
      end
  else Return s.

(** The parts of [push] under "Castling" and "Put the piece on the target
    square": a king that lands on a piece of its own side castles with
    it. *)
Definition push_place (s : BoardState) (pt : PieceType) (is_promoted : bool)
    (f t : Square) : BoardState :=
  if PieceType_eqb pt KING && occupied_co s (turn s) t then
    let a_side := square_file t <? square_file f in
    let s' := remove_piece_at t (remove_piece_at f s) in
    if a_side then
      set_piece_at (if turn s then D1 else D8) ROOK (turn s) false
        (set_piece_at (if turn s then C1 else C8) KING (turn s) false s')
    else
      set_piece_at (if turn s then F1 else F8) ROOK (turn s) false
        (set_piece_at (if turn s then G1 else G8) KING (turn s) false s')
  else set_piece_at t pt (turn s) is_promoted s.

(** [Board.push(move)].  The move is not checked for legality.  The result
    is the board as the call leaves it, also when the call raises: the
    stacks and the counters are updated before the piece is looked up. *)
Definition push (move : Move) (b : Board) : Board * outcome unit :=
  let move := to_chess960 b move in
  let board_state := state b in
  let cr0 := gset_of (clean_castling_rights b) in
  let recorded :=
    from_chess960 b (from_square move) (to_square move) (promotion move) (drop move) in
  let leave (s : BoardState) (o : outcome unit) : Board * outcome unit :=
    ({| state := s; move_stack := move_stack b ++ [recorded];
        stack := stack b ++ [board_state] |}, o) in
  let ep := ep_square b in
  let s1 :=
    {| pieces := pieces b; promoted := promoted b; turn := turn b;
       castling_rights := cr0; ep_square := None;
       halfmove_clock := S (halfmove_clock b);
       fullmove_number := if turn b then fullmove_number b else S (fullmove_number b) |} in
  if negb (Move_bool move) then leave (swap_turn s1) (Return tt)
  else
    match drop move with
    | Some d => leave (swap_turn (set_piece_at (to_square move) d (turn b) false s1)) (Return tt)
    | None =>
        let s2 := if is_zeroing s1 move then with_halfmove_clock s1 0 else s1 in
        let f := from_square move in
        let t := to_square move in
        let was_promoted := promoted_bb s2 f in
        match piece_type_at s2 f with
        | None => leave s2 (Raise AssertionError)
        | Some pt =>
            let s3 := remove_piece_at f s2 in
            let captured := piece_type_at s3 t in
            let cr2 := push_castling_rights s3 cr0 pt was_promoted captured f t in
            let s4 := with_rights s3 (gset_of cr2) None in
            match push_pawn_moves s4 ep pt captured f t with
            | Raise err => leave s4 (Raise err)
            | Return s5 =>
                let is_promoted := was_promoted || isSome (promotion move) in
                let pt' := match promotion move with Some p => p | None => pt end in
                leave (swap_turn (push_place s5 pt' is_promoted f t)) (Return tt)
            end
        end
    end.

(** [Board.pop()]: the board before the last move, and that move. *)
Definition pop (b : Board) : option (Board * Move) :=
  match rev (move_stack b), rev (stack b) with
  | m :: ms, s :: ss => Some ({| state := s; move_stack := rev ms; stack := rev ss |}, m)
  | _, _ => None
  end.

(** *** The end of the game *)

#[global] Instance PieceType_eq_dec : EqDecision PieceType.
Proof. solve_decision. Defined.
#[global] Instance Piece_eq_dec : EqDecision Piece.
Proof. solve_decision. Defined.

(** [Board.is_into_check(move)] *)
Definition is_into_check (b : Board) (m : Move) : bool :=
  match king b (turn b) with
  | None => false
  | Some k =>
      let checkers := attackers_mask b (negb (turn b)) k in
      if bb_any checkers &&
         negb (existsb (Move_eqb m)
                 (generate_evasions b k checkers (BB_SQUARE (from_square m))
                    (BB_SQUARE (to_square m))))
      then true
      else negb (is_safe b k (slider_blockers b k) m)
  end.

(** [Board.generate_legal_ep()] and [Board.has_legal_en_passant()] *)
Definition generate_legal_ep (b : Board) : list Move :=
  List.filter (fun m => negb (is_into_check b m)) (generate_pseudo_legal_ep b BB_ALL BB_ALL).
Definition has_legal_en_passant (b : Board) : bool :=
  isSome (ep_square b) && negb (Nat.eqb (length (generate_legal_ep b)) 0).

(** [Board._transposition_key()] *)
Definition transposition_key (b : Board)
    : gmap Square Piece * Color * gset Square * option Square :=
  (pieces b, turn b, gset_of (clean_castling_rights b),
   if has_legal_en_passant b then ep_square b else None).

(** [Board._reduces_castling_rights(move)] and [Board.is_irreversible(move)] *)
Definition reduces_castling_rights (b : Board) (m : Move) : bool :=
  let cr := clean_castling_rights b in
  let touched := BB_SQUARE (from_square m) .^ BB_SQUARE (to_square m) in
  bb_any (touched .& cr)
  || (bb_any (cr .& BB_RANK 0)
      && bb_any (touched .& kings b .& occupied_co b WHITE .& .~ promoted_bb b))
  || (bb_any (cr .& BB_RANK 7)
      && bb_any (touched .& kings b .& occupied_co b BLACK .& .~ promoted_bb b)).

Definition is_irreversible (b : Board) (m : Move) : bool :=
  is_zeroing b m || reduces_castling_rights b m || has_legal_en_passant b.

(** The replay loop of [Board.is_repetition(count)]: pop moves while they
    are reversible and count the positions with the key of the current
    one.  The stacks are given most recent first.  The library pops the
    moves from the board itself and pushes them back when it is done; on a
    board whose stacked moves [push] has all played, this leaves the board
    as it was, and the loop is the function below.  On a board that
    [set_fen] has just decoded, the only ones [make_moves] is called on in
    [main.py], the stacks are empty and nothing is popped. *)
Fixpoint replay (key : gmap Square Piece * Color * gset Square * option Square)
    (count : nat) (rmoves : list Move) (rstates : list BoardState) : bool :=
  if count <=? 1 then true
  else if length rmoves <? count - 1 then false
  else
    match rmoves, rstates with
    | m :: ms, s :: ss =>
        let b' := {| state := s; move_stack := rev ms; stack := rev ss |} in
        if is_irreversible b' m then false
        else replay key (if bool_decide (transposition_key b' = key) then count - 1 else count)
               ms ss
    | _, _ => false
    end.

Definition is_repetition (b : Board) (count : nat) : bool :=
  let maybe_repetitions :=
    1 + length (List.filter (fun s => bb_eqb (occupied s) (occupied b)) (stack b)) in
  if maybe_repetitions <? count then false
  else replay (transposition_key b) count (rev (move_stack b)) (rev (stack b)).

Definition is_fivefold_repetition (b : Board) : bool := is_repetition b 5.

(** [Board.is_seventyfive_moves()] *)
Definition is_seventyfive_moves (b : Board) : bool :=
  (150 <=? halfmove_clock b) && negb (Nat.eqb (length (legal_moves b)) 0).

(** [Board.has_insufficient_material(color)] *)
Definition has_insufficient_material (b : BoardState) (c : Color) : bool :=
  if bb_any (occupied_co b c .& (pawns b .| rooks b .| queens b)) then false
  else if bb_any (occupied_co b c .& knights b) then
    (popcount (occupied_co b c) <=? 2)
    && negb (bb_any (occupied_co b (negb c) .& .~ kings b .& .~ queens b))
  else if bb_any (occupied_co b c .& bishops b) then
    let same_color :=
      negb (bb_any (bishops b .& BB_DARK_SQUARES)) || negb (bb_any (bishops b .& BB_LIGHT_SQUARES)) in
    same_color && negb (bb_any (pawns b)) && negb (bb_any (knights b))
  else true.

Definition is_insufficient_material (b : BoardState) : bool :=
  has_insufficient_material b WHITE && has_insufficient_material b BLACK.

(** [Board.is_checkmate()] and [Board.is_stalemate()] *)
Definition is_checkmate (b : Board) : bool :=
  if negb (is_check b) then false else Nat.eqb (length (legal_moves b)) 0.
Definition is_stalemate (b : Board) : bool :=
  if is_check b then false else Nat.eqb (length (legal_moves b)) 0.

(** [Board.is_game_over()]: [outcome()] finds a termination, tried in the
    order checkmate, insufficient material, no legal move (stalemate),
    seventy-five moves, fivefold repetition. *)
Definition is_game_over (b : Board) : bool :=
  is_checkmate b
  || is_insufficient_material b
  || Nat.eqb (length (legal_moves b)) 0
  || is_seventyfive_moves b
  || is_fivefold_repetition b.

(** *** The starting position *)

Definition back_rank : list PieceType :=
  [ROOK; KNIGHT; BISHOP; QUEEN; KING; BISHOP; KNIGHT; ROOK].

Definition starting_pieces : gmap Square Piece :=
  list_to_map
    (imap (fun i pt => (i, {| piece_type := pt; color := WHITE |})) back_rank
     ++ map (fun i => (8 + i, {| piece_type := PAWN; color := WHITE |})) (seq 0 8)
     ++ map (fun i => (48 + i, {| piece_type := PAWN; color := BLACK |})) (seq 0 8)
     ++ imap (fun i pt => (56 + i, {| piece_type := pt; color := BLACK |})) back_rank).

(** [chess.Board()] *)
Definition Board_new : Board :=
  {| state :=
       {| pieces := starting_pieces; promoted := ∅; turn := WHITE;
          castling_rights := {[A1; H1; A8; H8]}; ep_square := None;
          halfmove_clock := 0; fullmove_number := 1 |};
     move_stack := []; stack := [] |}.

(** *** Positions as text (FEN) *)

(** White space, digits and letters are those of ASCII, the characters of
    FEN and UCI text.  Python's [split], [int] and [lower] also know the
    spaces, digits and letters beyond ASCII (and [int] has a limit on the
    number of digits); a text with one of those is refused here. *)
Definition is_space (c : ascii) : bool :=
  let n := nat_of_ascii c in
  ((9 <=? n) && (n <=? 13)) || ((28 <=? n) && (n <=? 32)).

(** [str.split()] (runs of white space separate, [keep_empty = false]) and
    [str.split(sep)] ([keep_empty = true]) over the characters of a string;
    [cur] is the part being read, reversed. *)
Fixpoint split_on (sep : ascii -> bool) (keep_empty : bool) (cs cur : list ascii)
    : list string :=
  let close :=
    if keep_empty || negb (Nat.eqb (length cur) 0)
    then [string_of_list_ascii (rev cur)] else [] in
  match cs with
  | [] => close
  | c :: cs' =>
      if sep c then close ++ split_on sep keep_empty cs' []
      else split_on sep keep_empty cs' (c :: cur)
  end.

Definition split_ws (s : string) : list string :=
  split_on is_space false (list_ascii_of_string s) [].
Definition split_char (sep : ascii) (s : string) : list string :=
  split_on (Ascii.eqb sep) true (list_ascii_of_string s) [].

Definition digit_of (c : ascii) : option nat :=
  let n := nat_of_ascii c in
  if (48 <=? n) && (n <=? 57) then Some (n - 48) else None.

(** [int(s)] for a part without white space: an optional sign, then digits,
    single underscores allowed between digits. *)
Fixpoint parse_digits (cs : list ascii) (acc : Z) (after_digit : bool) : option Z :=
  match cs with
  | [] => if after_digit then Some acc else None
  | c :: cs' =>
      if Ascii.eqb c "_" then
        if after_digit then parse_digits cs' acc false else None
      else
        match digit_of c with
        | Some d => parse_digits cs' (10 * acc + Z.of_nat d)%Z true
        | None => None
        end
  end.

Definition py_int (s : string) : option Z :=
  match list_ascii_of_string s with
  | "+"%char :: cs => parse_digits cs 0%Z false
  | "-"%char :: cs => Z.opp <$> parse_digits cs 0%Z false
  | cs => parse_digits cs 0%Z false
  end.

(** [str(n)] *)
Definition py_str_nat (n : nat) : string := NilZero.string_of_uint (Nat.to_uint n).

Definition is_upper (c : ascii) : bool :=
  let n := nat_of_ascii c in (65 <=? n) && (n <=? 90).

(** The piece type a character stands for: [c.lower() in PIECE_SYMBOLS]. *)
Definition piece_type_of_char (c : ascii) : option PieceType :=
  piece_type_of_symbol (String (lower_ascii c) EmptyString).

Definition board_digit (c : ascii) : option nat :=
  match digit_of c with
  | Some d => if (1 <=? d) && (d <=? 8) then Some d else None
  | None => None
  end.

(** The check of one row of the board part in [_set_board_fen]: the
    characters are known and the row has eight columns. *)
Fixpoint valid_row (cs : list ascii) (field_sum : nat)
    (previous_was_digit previous_was_piece : bool) : bool :=
  match cs with
  | [] => Nat.eqb field_sum 8
  | c :: cs' =>
      match board_digit c with
      | Some d => if previous_was_digit then false else valid_row cs' (field_sum + d) true false
      | None =>
          if Ascii.eqb c "~" then
            if previous_was_piece then valid_row cs' field_sum false false else false
          else if isSome (piece_type_of_char c) then valid_row cs' (field_sum + 1) false true
          else false
      end
  end.

(** [SQUARES_180[i]]: the board part lists rank 8 first. *)
Definition SQUARES_180 (i : nat) : Square := (7 - i / 8) * 8 + i mod 8.

(** The second loop of [_set_board_fen]: put the pieces on the board. *)
Fixpoint place_pieces (cs : list ascii) (square_index : nat) (b : BoardState) : BoardState :=
  match cs with
  | [] => b
  | c :: cs' =>
      match board_digit c with
      | Some d => place_pieces cs' (square_index + d) b
      | None =>
          match piece_type_of_char c with
          | Some pt =>
              place_pieces cs' (S square_index)
                (set_piece_at (SQUARES_180 square_index) pt (is_upper c) false b)
          | None =>
              if Ascii.eqb c "~" then
                place_pieces cs' square_index
                  (with_pieces b (pieces b) (promoted b ∪ {[SQUARES_180 (square_index - 1)]}))
              else place_pieces cs' square_index b
          end
      end
  end.

(** [FEN_CASTLING_REGEX]: ["-"], or at most two of [KQA-H] followed by at
    most two of [kqa-h]. *)
Definition upper_flag (c : ascii) : bool :=
  existsb (Ascii.eqb c) (list_ascii_of_string "KQABCDEFGH").
Definition lower_flag (c : ascii) : bool :=
  existsb (Ascii.eqb c) (list_ascii_of_string "kqabcdefgh").
Fixpoint take_flags (p : ascii -> bool) (n : nat) (cs : list ascii) : list ascii :=
  match n, cs with
  | S n', c :: cs' => if p c then take_flags p n' cs' else cs
  | _, _ => cs
  end.
Definition castling_part_ok (s : string) : bool :=
  String.eqb s "-"
  || Nat.eqb (length (take_flags lower_flag 2 (take_flags upper_flag 2 (list_ascii_of_string s)))) 0.

(** [Board._set_castling_fen(castling_fen)], once the part has matched. *)
Definition castling_flag (b : BoardState) (flag : ascii) : Bitboard :=
  let c := is_upper flag in
  let backrank := BB_RANK (if c then 0 else 7) in
  let rks := occupied_co b c .& rooks b .& backrank in
  let f := lower_ascii flag in
  if Ascii.eqb f "q" then
    match king b c, lsb rks with
    | Some k, Some r => if r <? k then BB_SQUARE r else BB_FILE 0 .& backrank
    | Some _, None => BB_EMPTY
    | None, _ => BB_FILE 0 .& backrank
    end
  else if Ascii.eqb f "k" then
    match king b c, msb rks with
    | Some k, Some r => if k <? r then BB_SQUARE r else BB_FILE 7 .& backrank
    | _, _ => BB_FILE 7 .& backrank
    end
  else BB_FILE (nat_of_ascii f - 97) .& backrank.

Definition set_castling_fen (castling_fen : string) (b : BoardState) : gset Square :=
  if String.eqb castling_fen "" || String.eqb castling_fen "-" then ∅
  else
    gset_of (fold_left (fun acc flag => acc .| castling_flag b flag)
               (list_ascii_of_string castling_fen) BB_EMPTY).

(** The parts of a FEN after the board part, each with its default. *)
Definition fen_turn (parts : list string) : outcome Color :=
  match parts with
  | [] => Return WHITE
  | p :: _ =>
      if String.eqb p "w" then Return WHITE
      else if String.eqb p "b" then Return BLACK
      else Raise ValueError
  end.

Definition fen_castling (parts : list string) : outcome string :=
  match parts with
  | [] => Return "-"
  | p :: _ => if castling_part_ok p then Return p else Raise ValueError
  end.

Definition fen_ep (parts : list string) : outcome (option Square) :=
  match parts with
  | [] => Return None
  | p :: _ =>
      if String.eqb p "-" then Return None
      else match index_of String.eqb p SQUARE_NAMES with
           | Some sq => Return (Some sq)
           | None => Raise ValueError
           end
  end.

Definition fen_counter (default : nat) (parts : list string) : outcome nat :=
  match parts with
  | [] => Return default
  | p :: _ =>
      match py_int p with
      | Some n => if (n <? 0)%Z then Raise ValueError else Return (Z.to_nat n)
      | None => Raise ValueError
      end
  end.

(** [Board.set_fen(fen)] on a string: every part is checked before the
    board is touched, so a [ValueError] leaves the board as it was. *)
Definition set_fen_str (fen : string) (b : Board) : Board * outcome unit :=
  match split_ws fen with
  | [] => (b, Raise ValueError)
  | board_part :: parts =>
      match fen_turn parts, fen_castling (skipn 1 parts), fen_ep (skipn 2 parts),
            fen_counter 0 (skipn 3 parts), fen_counter 1 (skipn 4 parts) with
      | Return turn', Return castling_part, Return ep, Return halfmove, Return fullmove =>
          let rows := split_char "/" board_part in
          if negb (Nat.eqb (length (skipn 5 parts)) 0) then (b, Raise ValueError)
          else if negb (Nat.eqb (length rows) 8) then (b, Raise ValueError)
          else if negb (forallb (fun row => valid_row (list_ascii_of_string row) 0 false false) rows)
          then (b, Raise ValueError)
          else
            let cleared :=
              {| pieces := ∅; promoted := ∅; turn := turn'; castling_rights := ∅;
                 ep_square := ep; halfmove_clock := halfmove;
                 fullmove_number := Nat.max fullmove 1 |} in
            let placed := place_pieces (list_ascii_of_string board_part) 0 cleared in
            ({| state := with_rights placed (set_castling_fen castling_part placed) ep;
                move_stack := []; stack := [] |}, Return tt)
      | _, _, _, _, _ => (b, Raise ValueError)
      end
  end.

(** [Board.set_fen] on any value: what is not a string has no [split]. *)
Definition set_fen (fen : pyval) (b : Board) : Board * outcome unit :=
  match fen with
  | PyStr s => set_fen_str s b
  | _ => (b, Raise AttributeError)
  end.

(** [Piece.symbol()] *)
Definition Piece_symbol (p : Piece) : string :=
  if color p then upper (piece_symbol (piece_type p)) else piece_symbol (piece_type p).

(** [Board.board_fen()]: [squares] is what is left of [SQUARES_180]. *)
Fixpoint board_fen_from (b : BoardState) (squares : list nat) (empty : nat) : string :=
  match squares with
  | [] => ""
  | i :: rest =>
      let sq := SQUARES_180 i in
      let flush (n : nat) := if Nat.eqb n 0 then "" else py_str_nat n in
      let here :=
        match piece_at b sq with
        | None => ("", S empty)
        | Some p => (flush empty +:+ Piece_symbol p, 0)
        end in
      if Nat.eqb (square_file sq) 7 then
        fst here +:+ flush (snd here) +:+ (if Nat.eqb sq H1 then "" else "/")
        +:+ board_fen_from b rest 0
      else fst here +:+ board_fen_from b rest (snd here)
  end.
Definition board_fen (b : BoardState) : string := board_fen_from b (seq 0 64) 0.

(** [Board.castling_xfen()] *)
Definition castling_xfen (b : Board) : string :=
  let flags (c : Color) : string :=
    match king b c with
    | None => ""
    | Some k =>
        let backrank := BB_RANK (if c then 0 else 7) in
        String.concat ""
          (map (fun rook_square =>
             let rook_file := square_file rook_square in
             let a_side := rook_file <? square_file k in
             let other_rooks :=
               occupied_co b c .& rooks b .& backrank .& .~ BB_SQUARE rook_square in
             let ch :=
               if existsb (fun other => Bool.eqb (square_file other <? rook_file) a_side)
                    (scan_reversed other_rooks)
               then nth rook_file FILE_NAMES ""
               else if a_side then "q" else "k" in
             if c then upper ch else ch)
          (scan_reversed (clean_castling_rights b .& backrank)))
    end in
  let built := flags WHITE +:+ flags BLACK in
  if String.eqb built "" then "-" else built.

(** [Board.fen()]: the en passant square is written only when an en
    passant capture is legal. *)
Definition fen (b : Board) : string :=
  String.concat " "
    [board_fen b;
     if turn b then "w" else "b";
     castling_xfen b;
     match ep_square b with
     | Some ep => if has_legal_en_passant b then square_name ep else "-"
     | None => "-"
     end;
     py_str_nat (halfmove_clock b);
     py_str_nat (fullmove_number b)].

(** [chess.STARTING_FEN] *)
Definition STARTING_FEN : string :=
  "rnbqkbnr/pppppppp/8/8/8/8/PPPPPPPP/RNBQKBNR w KQkq - 0 1".

End chess.

Coercion chess.state : chess.Board >-> chess.BoardState.

(** ** The [random] library *)

Module random.

(** The process-wide generator: [entropy k] is what the [k]-th draw
    yields, [drawn] counts the draws made.  Every sequence of choices is
    the behaviour of some generator. *)
Record Random := { entropy : nat -> nat; drawn : nat }.

(** [random.choice(seq)]: [IndexError] on an empty sequence, else the
    element at a drawn index below [len(seq)]. *)
Definition choice {A} (seq : list A) (g : Random) : Random * outcome A :=
  match seq with
  | [] => (g, Raise IndexError)
  | x :: _ =>
      ({| entropy := entropy g; drawn := S (drawn g) |},
       Return (nth (entropy g (drawn g) mod length seq) seq x))
  end.

End random.

(** ** The [socketio] library *)

Module socketio.

(** A client: the handlers registered per event name (default namespace),
    whether the namespace is connected, and the events sent so far.  [H]
    is the type of the functions that can be registered. *)
Record Client (H : Type) := {
  handlers : gmap string H;
  connected : bool;
  sent : list (string * pyval)
}.
Arguments handlers {H} c.
Arguments connected {H} c.
Arguments sent {H} c.

(** [socketio.Client()] *)
Definition Client_new {H} : Client H :=
  {| handlers := ∅; connected := false; sent := [] |}.

(** [sio.on(event, handler)], also what the decorators [@sio.on(event)]
    and [@sio.event] do: the last registration for a name wins. *)
Definition on {H} (event : string) (handler : H) (c : Client H) : Client H :=
  {| handlers := <[event := handler]> (handlers c);
     connected := connected c; sent := sent c |}.

(** [sio.connect(url)]: raises [ConnectionError] when the server at [url]
    cannot be reached; [reachable] says whether it can. *)
Definition connect {H} (url : string) (reachable : bool) (c : Client H)
    : Client H * outcome unit :=
  if reachable
  then ({| handlers := handlers c; connected := true; sent := sent c |}, Return tt)
  else (c, Raise ConnectionError).

(** [sio.emit(event, data)]: raises [BadNamespaceError] when the namespace
    is not connected. *)
Definition emit {H} (event : string) (data : pyval) (c : Client H)
    : Client H * outcome unit :=
  if connected c
  then ({| handlers := handlers c; connected := connected c;
           sent := sent c ++ [(event, data)] |}, Return tt)
  else (c, Raise BadNamespaceError).

Definition reserved_events : list string := ["connect"; "connect_error"; "disconnect"].

(** The handler the client finds for a received event: the one registered
    under the name, else the catch-all ["*"] for an event that is not
    reserved (it gets the event name as first argument). *)
Definition get_event_handler {H} (event : string) (args : list pyval) (c : Client H)
    : option (H * list pyval) :=
  match handlers c !! event with
  | Some h => Some (h, args)
  | None =>
      if existsb (String.eqb event) reserved_events then None
      else (fun h => (h, PyStr event :: args)) <$> handlers c !! "*"
  end.

End socketio.

(** ** [main.py] *)

(** The functions that [main.py] defines. *)
Inductive callable : Type :=
| f_connect
| f_connect_error
| f_disconnect
| f_on_player_role
| f_on_spectator
| f_on_boardstate
| f_on_move
| f_make_moves.

(** An argument of [print]: a value, or a caught exception. *)
Inductive printed : Type :=
| PVal (v : pyval)
| PExn (e : exn).

(** The state of the process: the three globals of the module, what has
    been printed (one entry per [print] call, the arguments it wrote) and
    the random generator. *)
Record State := {
  sio : socketio.Client callable;
  chessboard : chess.Board;
  player_role : pyval;
  stdout : list (list printed);
  rng : random.Random
}.

(** A computation over the process state that returns or raises; the
    state is kept as it is at the raise. *)
Definition M (A : Type) : Type := State -> State * outcome A.

Definition ret {A} (a : A) : M A := fun st => (st, Return a).
Definition raise {A} (e : exn) : M A := fun st => (st, Raise e).
Definition bind {A B} (m : M A) (k : A -> M B) : M B :=
  fun st =>
    match m st with
    | (st', Return a) => k a st'
    | (st', Raise e) => (st', Raise e)
    end.
Definition lift {A} (o : outcome A) : M A := fun st => (st, o).

(** [try: body except Exception as e: handler]; every exception modelled
    here is an [Exception]. *)
Definition try_except {A} (body : M A) (handler : exn -> M A) : M A :=
  fun st =>
    match body st with
    | (st', Return a) => (st', Return a)
    | (st', Raise e) => handler e st'
    end.

Notation "'do' x <- m ; k" := (bind m (fun x => k))
  (at level 10, x name, m at level 100, k at level 200).
Notation "'run' m ; k" := (bind m (fun _ => k))
  (at level 10, m at level 100, k at level 200).

Definition Str (s : string) : printed := PVal (PyStr s).

(** Whether [print] can write an argument to the standard output, a text
    stream in UTF-8.  What is written is [str] of the argument: a string
    is written as it is, and cannot be encoded when it holds a lone
    surrogate; every other value, and an exception, shows the strings
    inside it by [repr], which escapes surrogates. *)
Definition writable (p : printed) : bool :=
  match p with
  | PVal (PyStr s) => negb (has_surrogate s)
  | _ => true
  end.

(** What [print] writes of its arguments: all of them, or those before the
    first that cannot be encoded. *)
Fixpoint written (args : list printed) : list printed :=
  match args with
  | [] => []
  | p :: rest => if writable p then p :: written rest else []
  end.

(** [print]: the arguments are written one after the other.  At
    the first that cannot be encoded the call raises [UnicodeEncodeError];
    what was written before it stays written. *)
Definition print (args : list printed) : M unit :=
  fun st =>
    ({| sio := sio st; chessboard := chessboard st; player_role := player_role st;
        stdout := stdout st ++ [written args]; rng := rng st |},
     if forallb writable args then Return tt else Raise UnicodeEncodeError).

(** A method call on the object in [chessboard]: the object is updated in
    place. *)
Definition on_chessboard {A} (call : chess.Board -> chess.Board * outcome A) : M A :=
  fun st =>
    let (b, o) := call (chessboard st) in
    ({| sio := sio st; chessboard := b; player_role := player_role st;
        stdout := stdout st; rng := rng st |}, o).

(** A method call on the client in [sio]. *)
Definition on_sio {A}
    (call : socketio.Client callable -> socketio.Client callable * outcome A) : M A :=
  fun st =>
    let (c, o) := call (sio st) in
    ({| sio := c; chessboard := chessboard st; player_role := player_role st;
        stdout := stdout st; rng := rng st |}, o).

(** A call on the random generator. *)
Definition on_rng {A} (call : random.Random -> random.Random * outcome A) : M A :=
  fun st =>
    let (g, o) := call (rng st) in
    ({| sio := sio st; chessboard := chessboard st; player_role := player_role st;
        stdout := stdout st; rng := g |}, o).

Definition get_chessboard : M chess.Board := fun st => (st, Return (chessboard st)).
Definition get_player_role : M pyval := fun st => (st, Return (player_role st)).
Definition set_player_role (role : pyval) : M unit :=
  fun st =>
    ({| sio := sio st; chessboard := chessboard st; player_role := role;
        stdout := stdout st; rng := rng st |}, Return tt).

(** [def connect()] *)
Definition connect : M unit :=
  print [Str "✅ Connected to server!"].

(** [def connect_error(data)] *)
Definition connect_error (data : pyval) : M unit :=
  print [Str "❌ Connection failed:"; PVal data].

(** [def disconnect()] *)
Definition disconnect : M unit :=
  print [Str "🔌 Disconnected from server"].

(** [def on_player_role(role)] *)
Definition on_player_role (role : pyval) : M unit :=
  run set_player_role role;
  print [Str "I am playing as"; Str (if py_eq_str "w" role then "White" else "Black")].

(** [def on_spectator()] *)
Definition on_spectator : M unit :=
  print [Str "I am a spectator"].

(** [def make_moves()] *)
Definition make_moves : M unit :=
  do board <- get_chessboard;
  if chess.is_game_over board then
    print [Str "Game Over"]
  else
    do move <- on_rng (random.choice (chess.legal_moves board));
    run on_chessboard (chess.push move);
    run on_sio (socketio.emit "move"
          (PyDict [("from", PyStr (slice (chess.uci move) 0 2));
                   ("to", PyStr (slice (chess.uci move) 2 4));
                   ("promotion", PyStr "q")]));
    print [Str "Bot played:"; Str (chess.uci move)].

(** [def on_boardstate(fen)] *)
Definition on_boardstate (fen : pyval) : M unit :=
  run on_chessboard (chess.set_fen fen);
  run print [Str "Board updated:"; PVal fen];
  do board <- get_chessboard;
  let turn := if chess.turn board then "w" else "b" in
  do role <- get_player_role;
  if py_eq_str turn role then make_moves else ret tt.

(** [def on_move(move)] *)
Definition on_move (move : pyval) : M unit :=
  try_except
    (do origin <- lift (py_getitem move "from");
     do destination <- lift (py_getitem move "to");
     do text <- lift (py_add origin destination);
     do parsed <- lift (chess.from_uci text);
     run on_chessboard (chess.push parsed);
     print [Str "Opponent moved:"; PVal move])
    (fun e => print [Str "Invalid move received:"; PVal move; PExn e]).

(** Calling one of the functions with the arguments of an event; a wrong
    number of arguments is a [TypeError]. *)
Definition call (f : callable) (args : list pyval) : M unit :=
  match f, args with
  | f_connect, [] => connect
  | f_connect_error, [data] => connect_error data
  | f_disconnect, [] => disconnect
  | f_on_player_role, [role] => on_player_role role
  | f_on_spectator, [] => on_spectator
  | f_on_boardstate, [fen] => on_boardstate fen
  | f_on_move, [move] => on_move move
  | f_make_moves, [] => make_moves
  | _, _ => raise TypeError
  end.

(** One handler invocation by the client's event loop: an exception that
    leaves the handler ends that invocation only, the state stays as the
    handler left it. *)
Definition invoke (f : callable) (args : list pyval) (st : State) : State :=
  fst (call f args st).

(** The client receives an event: the handler registered for it, if any,
    is invoked. *)
Definition receive (ev : string * list pyval) (st : State) : State :=
  match socketio.get_event_handler (fst ev) (snd ev) (sio st) with
  | Some (h, args) => invoke h args st
  | None => st
  end.

(** [sio.wait()]: the events the server pushes until the connection
    closes are received one after the other. *)
Definition sio_wait (events : list (string * list pyval)) : M unit :=
  fun st => (fold_left (fun s ev => receive ev s) events st, Return tt).

(** The state when the module starts to run: lines 5 to 7,
    [sio = socketio.Client()], [chessboard = chess.Board()],
    [player_role = None]. *)
Definition initial_state (g : random.Random) : State :=
  {| sio := socketio.Client_new; chessboard := chess.Board_new;
     player_role := PyNone; stdout := []; rng := g |}.

(** The statements of the module, top to bottom.  The [def] statements
    bind the function names and call nothing: no function is registered
    with [sio] anywhere in the file. *)
Definition main (reachable : bool) (events : list (string * list pyval)) : M unit :=
  run print [Str "🔍 Trying to connect to server..."];
  run on_sio (socketio.connect "http://localhost:3000" reachable);
  run print [Str "➡️ Python reached after connect() call"];
  sio_wait events.

(** ** States and values that the statements below talk about *)

(** The side to move as [on_boardstate] names it. *)
Definition turn_name (b : chess.Board) : string := if chess.turn b then "w" else "b".

(** The state once [on_boardstate] has decoded [fen] into [b'] and printed
    its line. *)
Definition board_updated (fen : pyval) (b' : chess.Board) (st : State) : State :=
  {| sio := sio st; chessboard := b'; player_role := player_role st;
     stdout := stdout st ++ [[Str "Board updated:"; PVal fen]]; rng := rng st |}.

(** A state that differs from [st] by one more printed line. *)
Definition printed_line (line : list printed) (st : State) : State :=
  {| sio := sio st; chessboard := chessboard st; player_role := player_role st;
     stdout := stdout st ++ [line]; rng := rng st |}.

(** The argument that [on_move] hands to [push]: what the payload's
    ["from"] and ["to"] entries, added, parse to. *)
Definition payload_move (move : pyval) : outcome chess.Move :=
  match py_getitem move "from" with
  | Raise e => Raise e
  | Return origin =>
      match py_getitem move "to" with
      | Raise e => Raise e
      | Return destination =>
          match py_add origin destination with
          | Raise e => Raise e
          | Return text => chess.from_uci text
          end
      end
  end.

(** The payload of the [move] event for a move from [f] to [t]. *)
Definition move_payload (f t : chess.Square) : pyval :=
  PyDict [("from", PyStr (chess.square_name f)); ("to", PyStr (chess.square_name t));
          ("promotion", PyStr "q")].

(** A computation that leaves the global [player_role] alone. *)
Definition keeps_role {A} (m : M A) : Prop :=
  forall st, player_role (fst (m st)) = player_role st.

(** A run of handler invocations by the event loop, first to last. *)
Definition invoke_all (calls : list (callable * list pyval)) (st : State) : State :=
  fold_left (fun s c => invoke (fst c) (snd c) s) calls st.

(** The state [st] with another board. *)
Definition with_chessboard (b : chess.Board) (st : State) : State :=
  {| sio := sio st; chessboard := b; player_role := player_role st;
     stdout := stdout st; rng := rng st |}.

(** What [push] needs of a move to return: it is no drop, its squares are
    on the board, a piece stands on its origin, and when Black moves a pawn
    onto the empty en passant square, the square behind it is on the
    board. *)
Definition pushable (b : chess.Board) (m : chess.Move) : Prop :=
  chess.drop m = None
  /\ chess.from_square m < 64
  /\ chess.to_square m < 64
  /\ isSome (chess.piece_at b (chess.from_square m)) = true
  /\ (chess.turn b = false ->
      chess.pawns b (chess.from_square m) = true ->
      chess.ep_square b = Some (chess.to_square m) ->
      chess.piece_at b (chess.to_square m) = None ->
      chess.to_square m + 8 < 64).

(** The move from an occupied square on which [push] raises: Black moves a
    pawn one step diagonally (7 or 9 squares on in the numbering) onto the
    en passant square, which is empty and on the eighth rank, so that the
    square of the pawn to take, eight further, is off the board. *)
Definition captures_off_board (b : chess.Board) (m : chess.Move) : bool :=
  let f := chess.from_square m in
  let t := chess.to_square m in
  let diff := (Z.of_nat t - Z.of_nat f)%Z in
  negb (chess.turn b) && chess.pawns b f
  && bool_decide (chess.ep_square b = Some t)
  && negb (isSome (chess.piece_at b t))
  && ((Z.abs diff =? 7)%Z || (Z.abs diff =? 9)%Z)
  && (56 <=? t).

(** A move that [push] can play and, on a board whose stacks are empty
    (one that [set_fen] has just decoded), one between two different
    squares. *)
Definition playable (b : chess.Board) (m : chess.Move) : Prop :=
  pushable b m /\ (chess.stack b = [] -> chess.from_square m <> chess.to_square m).

(** The generator after one more draw. *)
Definition drawn_once (g : random.Random) : random.Random :=
  {| random.entropy := random.entropy g; random.drawn := S (random.drawn g) |}.

(** The state once [make_moves] has drawn, played [m] (leaving the board
    [b']), sent the [move] event for it and printed its line. *)
Definition after_own_move (m : chess.Move) (b' : chess.Board) (st : State) : State :=
  {| sio :=
       {| socketio.handlers := socketio.handlers (sio st);
          socketio.connected := socketio.connected (sio st);
          socketio.sent :=
            socketio.sent (sio st)
            ++ [("move", move_payload (chess.from_square m) (chess.to_square m))] |};
     chessboard := b';
     player_role := player_role st;
     stdout := stdout st ++ [[Str "Bot played:"; Str (chess.uci m)]];
     rng := drawn_once (rng st) |}.

(** The state when [emit] has raised in [make_moves]: the move is drawn
    and played, nothing is sent or printed. *)
Definition after_unsent_move (b' : chess.Board) (st : State) : State :=
  {| sio := sio st; chessboard := b'; player_role := player_role st;
     stdout := stdout st; rng := drawn_once (rng st) |}.

(** Whether a stored role is one of the two names [on_boardstate] compares
    the side to move with. *)
Definition plays_a_side (role : pyval) : bool :=
  py_eq_str "w" role || py_eq_str "b" role.

(** The functions that react to an event of the game or of the connection:
    all but [on_player_role], which assigns the role, and [make_moves],
    which no event is meant for. *)
Definition is_plain_handler (f : callable) : bool :=
  match f with
  | f_on_player_role | f_make_moves => false
  | _ => true
  end.

(** The functions whose body can reach [sio.emit]: [make_moves], and
    [on_boardstate], which calls it. *)
Definition may_emit (f : callable) : bool :=
  match f with
  | f_on_boardstate | f_make_moves => true
  | _ => false
  end.

(** How many calls of a run can reach [sio.emit]. *)
Definition emitting_calls (calls : list (callable * list pyval)) : nat :=
  length (List.filter (fun c => may_emit (fst c)) calls).

(** An event as [make_moves] sends it: named [move], with a dictionary
    whose [promotion] entry is the text [q]. *)
Definition is_move_event (ev : string * pyval) : Prop :=
  fst ev = "move" /\ py_getitem (snd ev) "promotion" = Return (PyStr "q").

(** Two process states that differ at most in what has been printed. *)
Definition agree_but_stdout (st1 st2 : State) : Prop :=
  sio st1 = sio st2 /\ chessboard st1 = chessboard st2
  /\ player_role st1 = player_role st2 /\ rng st1 = rng st2.

(** The four pieces a pawn step onto a back rank is generated with. *)
Definition PROMOTION_PIECES : list chess.PieceType :=
  [chess.QUEEN; chess.ROOK; chess.BISHOP; chess.KNIGHT].

(** What one call may add to the events sent: the handler table and the
    connection are as before, and at most [n] events, all of them move
    events, are appended. *)
Definition sends_at_most (n : nat) (st st' : State) : Prop :=
  socketio.handlers (sio st') = socketio.handlers (sio st)
  /\ socketio.connected (sio st') = socketio.connected (sio st)
  /\ exists new,
       socketio.sent (sio st') = (socketio.sent (sio st) ++ new)%list
       /\ length new <= n
       /\ Forall is_move_event new.

(** A list of moves in which the promotions of a pawn step come as a
    group: with one of them, all four. *)
Definition promotes_together (l : list chess.Move) : Prop :=
  forall f t p, In (chess.mv_promote f t p) l ->
    In p PROMOTION_PIECES
    /\ forall p', In p' PROMOTION_PIECES -> In (chess.mv_promote f t p') l.

(** A list of moves in which every promotion starts on a pawn. *)
Definition promotes_pawns (b : chess.BoardState) (l : list chess.Move) : Prop :=
  forall m, In m l -> chess.promotion m <> None ->
    chess.pawns b (chess.from_square m) = true.


(** A character of the ASCII range, and a text made of such characters. *)
Definition plain (c : ascii) : bool := nat_of_ascii c <? 128.
Definition is_ascii (s : string) : bool := forallb plain (list_ascii_of_string s).

(** The number of sequences of [n] legal moves from [b], the usual check
    of a move generator against published counts. *)
Fixpoint perft (n : nat) (b : chess.Board) : nat :=
  match n with
  | O => 1
  | S n' => list_sum (map (fun m => perft n' (fst (chess.push m b))) (chess.legal_moves b))
  end.

(** The board that [set_fen] decodes from a text, [Board()] when the text
    is refused. *)
Definition board_of_fen (fen : string) : chess.Board :=
  fst (chess.set_fen (PyStr fen) chess.Board_new).

(** The board after the moves given as UCI text, played from the start. *)
Definition played (moves : list string) : chess.Board :=
  fold_left
    (fun b u =>
       match chess.from_uci (PyStr u) with
       | Return m => fst (chess.push m b)
       | Raise _ => b
       end)
    moves chess.Board_new.

(** * Properties *)

(** ** The chess model on known positions *)

Example start_has_twenty_moves :
  map chess.uci (chess.legal_moves chess.Board_new)
  = ["g1h3"; "g1f3"; "b1c3"; "b1a3"; "h2h3"; "g2g3"; "f2f3"; "e2e3"; "d2d3"; "c2c3";
     "b2b3"; "a2a3"; "h2h4"; "g2g4"; "f2f4"; "e2e4"; "d2d4"; "c2c4"; "b2b4"; "a2a4"]%string.
Proof. vm_compute. reflexivity. Qed.

Example start_is_not_over : chess.is_game_over chess.Board_new = false.
Proof. vm_compute. reflexivity. Qed.

Example perft_start : perft 2 chess.Board_new = 400.
Proof. vm_compute. reflexivity. Qed.

Example perft_castling_and_pins :
  perft 1 (board_of_fen
             "r3k2r/p1ppqpb1/bn2pnp1/3PN3/1p2P3/2N2Q1p/PPPBBPPP/R3K2R w KQkq - 0 1") = 48
  /\ perft 2 (board_of_fen "8/2p5/3p4/KP5r/1R3p1k/8/4P1P1/8 w - - 0 1") = 191
  /\ perft 1 (board_of_fen
                "rnbq1k1r/pp1Pbppp/2p5/8/2B5/8/PPP1NnPP/RNBQK2R w KQ - 1 8") = 44.
Proof. vm_compute. repeat split. Qed.

Example fools_mate_is_over :
  let b := played ["f2f3"; "e7e5"; "g2g4"; "d8h4"]%string in
  chess.is_checkmate b = true /\ chess.is_game_over b = true /\ chess.legal_moves b = [].
Proof. vm_compute. repeat split. Qed.

Example stalemate_and_bare_kings_are_over :
  chess.is_stalemate (board_of_fen "7k/5Q2/6K1/8/8/8/8/8 b - - 0 1") = true
  /\ chess.is_game_over (board_of_fen "7k/5Q2/6K1/8/8/8/8/8 b - - 0 1") = true
  /\ chess.is_insufficient_material (board_of_fen "8/8/8/8/8/4k3/8/4K3 w - - 0 1") = true
  /\ chess.is_game_over (board_of_fen "8/8/8/8/8/4k3/8/4K3 w - - 0 1") = true.
Proof. vm_compute. repeat split. Qed.

Example en_passant_in_fen :
  chess.fen (played ["e2e4"; "c7c5"; "e4e5"; "d7d5"]%string)
  = "rnbqkbnr/pp2pppp/8/2ppP3/8/8/PPPP1PPP/RNBQKBNR w KQkq d6 0 3"%string
  /\ chess.fen (played ["e2e4"; "c7c5"; "e4e5"; "d7d5"; "e5d6"]%string)
     = "rnbqkbnr/pp2pppp/3P4/2p5/8/8/PPPP1PPP/RNBQKBNR b KQkq - 0 3"%string.
Proof. vm_compute. repeat split. Qed.

(** ** Basic facts about the state monad *)

Lemma State_eta (st : State) :
  {| sio := sio st; chessboard := chessboard st; player_role := player_role st;
     stdout := stdout st; rng := rng st |} = st.
Proof. destruct st; reflexivity. Qed.

(** A failed [set_fen] has not touched the board. *)
Lemma set_fen_raise_unchanged (fen : pyval) (b : chess.Board) (e : exn) :
  snd (chess.set_fen fen b) = Raise e -> fst (chess.set_fen fen b) = b.
Proof.
  unfold chess.set_fen, chess.set_fen_str.
  repeat match goal with
         | |- context [match ?x with _ => _ end] => destruct x; simpl; try reflexivity; try discriminate
         end.
Qed.

(** A successful [set_fen] decodes the text alone: the board it was
    called on does not matter. *)
Lemma set_fen_wholesale (fen : pyval) (b b' other : chess.Board) :
  chess.set_fen fen b = (b', Return tt) -> chess.set_fen fen other = (b', Return tt).
Proof.
  unfold chess.set_fen, chess.set_fen_str.
  repeat match goal with
         | |- context [match ?x with _ => _ end] => destruct x; simpl; try discriminate
         end;
  intros H; injection H as <-; reflexivity.
Qed.

(** A board that [set_fen] has decoded has empty stacks. *)
Lemma set_fen_clears_stack (fen : pyval) (b b' : chess.Board) :
  chess.set_fen fen b = (b', Return tt) -> chess.stack b' = [] /\ chess.move_stack b' = [].
Proof.
  unfold chess.set_fen, chess.set_fen_str.
  repeat match goal with
         | |- context [match ?x with _ => _ end] => destruct x; simpl; try discriminate
         end;
  intros H; injection H as <-; split; reflexivity.
Qed.

(** ** What [print] can write *)

Section Writable.
Import chess.

Lemma all_ascii (P : ascii -> bool) :
  forallb (fun n => P (ascii_of_nat n)) (seq 0 256) = true -> forall c, P c = true.
Proof.
  intros H c. rewrite forallb_forall in H.
  rewrite <- (ascii_nat_embedding c). apply H.
  apply in_seq. pose proof (nat_ascii_bounded c). lia.
Qed.

Lemma is_ascii_chars (l : list ascii) :
  is_ascii (string_of_list_ascii l) = forallb plain l.
Proof. unfold is_ascii. rewrite list_ascii_of_string_of_list_ascii. reflexivity. Qed.

Lemma is_ascii_no_surrogate (s : string) : is_ascii s = true -> has_surrogate s = false.
Proof.
  unfold is_ascii. induction s as [| c s IH]; [reflexivity |].
  cbn [list_ascii_of_string forallb]. intros H.
  apply andb_true_iff in H. destruct H as [Hc Hs].
  cbn [has_surrogate]. destruct s as [| d s']; [reflexivity |].
  rewrite (IH Hs), orb_false_r.
  unfold plain in Hc. apply Nat.ltb_lt in Hc.
  destruct (Nat.eqb (nat_of_ascii c) 237) eqn:E; [| reflexivity].
  apply Nat.eqb_eq in E. lia.
Qed.

Lemma is_ascii_app (a b : string) : is_ascii (a +:+ b) = is_ascii a && is_ascii b.
Proof.
  unfold is_ascii. induction a as [| c a IH]; [reflexivity |].
  change (String c a +:+ b) with (String c (a +:+ b)).
  cbn [list_ascii_of_string forallb]. rewrite IH, andb_assoc. reflexivity.
Qed.

Lemma square_name_ascii (sq : Square) : is_ascii (square_name sq) = true.
Proof.
  destruct (Nat.lt_ge_cases sq 64) as [Hlt | Hge].
  - assert (All : forallb (fun sq => is_ascii (square_name sq)) SQUARES = true)
      by (vm_compute; reflexivity).
    rewrite forallb_forall in All. apply All. apply in_seq. lia.
  - unfold square_name. rewrite nth_overflow; [reflexivity |].
    assert (L : length SQUARE_NAMES = 64) by (vm_compute; reflexivity). lia.
Qed.

Lemma uci_ascii (m : Move) : is_ascii (uci m) = true.
Proof.
  unfold uci. destruct (drop m) as [d |].
  - rewrite !is_ascii_app, square_name_ascii. destruct d; reflexivity.
  - destruct (promotion m) as [p |].
    + rewrite !is_ascii_app, !square_name_ascii. destruct p; reflexivity.
    + destruct (Move_bool m); [| reflexivity].
      rewrite is_ascii_app, !square_name_ascii. reflexivity.
Qed.

(** The parts that [split_on] cuts a text into hold every character of the
    text that is not a separator. *)
Lemma split_on_plain (sep : ascii -> bool) (keep_empty : bool) (cs cur : list ascii) :
  (forall c, sep c = true -> plain c = true) ->
  forallb is_ascii (split_on sep keep_empty cs cur) = true ->
  forallb plain cs = true /\ forallb plain cur = true.
Proof.
  intros Hsep. revert cur.
  assert (Close : forall cur : list ascii,
            forallb is_ascii
              (if keep_empty || negb (Nat.eqb (length cur) 0)
               then [string_of_list_ascii (rev cur)] else []) = true ->
            forallb plain cur = true).
  { intros cur H. destruct cur as [| c cur]; [reflexivity |].
    cbn [length Nat.eqb negb] in H. rewrite orb_true_r in H.
    cbn [forallb] in H. rewrite andb_true_r, is_ascii_chars in H.
    rewrite forallb_forall in *. intros x Hx. apply H. apply in_rev.
    rewrite rev_involutive. exact Hx. }
  induction cs as [| c cs IH]; intros cur H.
  - cbn [split_on] in H. split; [reflexivity | exact (Close cur H)].
  - cbn [split_on] in H. destruct (sep c) eqn:Hc.
    + rewrite forallb_app in H. apply andb_true_iff in H. destruct H as [H1 H2].
      destruct (IH [] H2) as [Hcs _].
      cbn [forallb]. rewrite (Hsep c Hc), Hcs. split; [reflexivity | exact (Close cur H1)].
    + destruct (IH (c :: cur) H) as [Hcs Hcur]. cbn [forallb] in *.
      apply andb_true_iff in Hcur. destruct Hcur as [Hpc Hcur].
      rewrite Hpc, Hcs. split; [reflexivity | exact Hcur].
Qed.

Lemma split_parts_ascii (sep : ascii -> bool) (keep_empty : bool) (s : string) :
  (forall c, sep c = true -> plain c = true) ->
  forallb is_ascii (split_on sep keep_empty (list_ascii_of_string s) []) = true ->
  is_ascii s = true.
Proof.
  intros Hsep H. exact (proj1 (split_on_plain sep keep_empty _ [] Hsep H)).
Qed.

Lemma is_space_plain (c : ascii) : is_space c = true -> plain c = true.
Proof.
  revert c. 
  assert (A : forall c, (negb (is_space c) || plain c) = true)
    by (apply all_ascii; vm_compute; reflexivity).
  intros c H. specialize (A c). rewrite H in A. exact A.
Qed.

Lemma slash_plain (c : ascii) : Ascii.eqb "/" c = true -> plain c = true.
Proof.
  intros H. apply Ascii.eqb_eq in H. subst c. reflexivity.
Qed.

Lemma board_char_plain (c : ascii) :
  isSome (board_digit c) || Ascii.eqb c "~" || isSome (piece_type_of_char c) = true ->
  plain c = true.
Proof.
  assert (A : forall c, (negb (isSome (board_digit c) || Ascii.eqb c "~"
                               || isSome (piece_type_of_char c)) || plain c) = true)
    by (apply all_ascii; vm_compute; reflexivity).
  intros H. specialize (A c). rewrite H in A. exact A.
Qed.

Lemma valid_row_plain (cs : list ascii) (n : nat) (d p : bool) :
  valid_row cs n d p = true -> forallb plain cs = true.
Proof.
  revert n d p. induction cs as [| c cs IH]; intros n d p H; [reflexivity |].
  cbn [valid_row] in H. cbn [forallb].
  destruct (board_digit c) as [k |] eqn:Hd.
  - rewrite (board_char_plain c) by (rewrite Hd; reflexivity).
    destruct d; [discriminate |]. exact (IH _ _ _ H).
  - destruct (Ascii.eqb c "~") eqn:Ht.
    + rewrite (board_char_plain c) by (rewrite Hd, Ht; reflexivity).
      destruct p; [| discriminate]. exact (IH _ _ _ H).
    + destruct (isSome (piece_type_of_char c)) eqn:Hp; [| discriminate].
      rewrite (board_char_plain c) by (rewrite Hd, Ht, Hp; reflexivity).
      exact (IH _ _ _ H).
Qed.

Lemma board_part_ascii (board_part : string) :
  forallb (fun row => valid_row (list_ascii_of_string row) 0 false false)
    (split_char "/" board_part) = true ->
  is_ascii board_part = true.
Proof.
  intros H. apply (split_parts_ascii (Ascii.eqb "/") true); [exact slash_plain |].
  fold (split_char "/" board_part).
  rewrite forallb_forall in *. intros row Hrow.
  exact (valid_row_plain _ _ _ _ (H row Hrow)).
Qed.

Lemma take_flags_plain (p : ascii -> bool) (n : nat) (cs : list ascii) :
  (forall c, p c = true -> plain c = true) ->
  forallb plain (take_flags p n cs) = true -> forallb plain cs = true.
Proof.
  intros Hp. revert cs. induction n as [| n IH]; intros cs H.
  - destruct cs; exact H.
  - destruct cs as [| c cs]; [reflexivity |]. cbn [take_flags] in H.
    destruct (p c) eqn:Hc; [| exact H].
    cbn [forallb]. rewrite (Hp c Hc). exact (IH cs H).
Qed.

Lemma flag_plain (c : ascii) : upper_flag c || lower_flag c = true -> plain c = true.
Proof.
  assert (A : forall c, (negb (upper_flag c || lower_flag c) || plain c) = true)
    by (apply all_ascii; vm_compute; reflexivity).
  intros H. specialize (A c). rewrite H in A. exact A.
Qed.

Lemma castling_part_ascii (s : string) : castling_part_ok s = true -> is_ascii s = true.
Proof.
  unfold castling_part_ok. intros H. apply orb_true_iff in H. destruct H as [H | H].
  - apply String.eqb_eq in H. subst s. reflexivity.
  - apply Nat.eqb_eq in H. apply length_zero_iff_nil in H.
    unfold is_ascii.
    apply (take_flags_plain upper_flag 2);
      [intros c Hc; apply flag_plain; rewrite Hc; reflexivity |].
    apply (take_flags_plain lower_flag 2);
      [intros c Hc; apply flag_plain; rewrite Hc; apply orb_true_r |].
    rewrite H. reflexivity.
Qed.

Lemma index_of_In (x : string) (l : list string) (i : nat) :
  index_of String.eqb x l = Some i -> In x l.
Proof.
  revert i. induction l as [| y l IH]; intros i H; [discriminate |].
  cbn [index_of] in H. destruct (String.eqb y x) eqn:E.
  - apply String.eqb_eq in E. left. exact E.
  - right. destruct (index_of String.eqb x l) as [j |]; [| discriminate].
    exact (IH j eq_refl).
Qed.

Lemma square_names_ascii (p : string) (sq : nat) :
  index_of String.eqb p SQUARE_NAMES = Some sq -> is_ascii p = true.
Proof.
  intros H. apply index_of_In in H.
  assert (All : forallb is_ascii SQUARE_NAMES = true) by (vm_compute; reflexivity).
  rewrite forallb_forall in All. exact (All p H).
Qed.

Lemma digit_char_plain (c : ascii) :
  Ascii.eqb c "_" || isSome (digit_of c) = true -> plain c = true.
Proof.
  assert (A : forall c, (negb (Ascii.eqb c "_" || isSome (digit_of c)) || plain c) = true)
    by (apply all_ascii; vm_compute; reflexivity).
  intros H. specialize (A c). rewrite H in A. exact A.
Qed.

Lemma parse_digits_plain (cs : list ascii) (acc n : Z) (after : bool) :
  parse_digits cs acc after = Some n -> forallb plain cs = true.
Proof.
  revert acc after. induction cs as [| c cs IH]; intros acc after H; [reflexivity |].
  cbn [parse_digits] in H. cbn [forallb].
  destruct (Ascii.eqb c "_") eqn:Hu.
  - rewrite (digit_char_plain c) by (rewrite Hu; reflexivity).
    destruct after; [| discriminate]. exact (IH _ _ H).
  - destruct (digit_of c) as [d |] eqn:Hd; [| discriminate].
    rewrite (digit_char_plain c) by (rewrite Hu, Hd; reflexivity).
    exact (IH _ _ H).
Qed.

Lemma py_int_ascii (s : string) (n : Z) : py_int s = Some n -> is_ascii s = true.
Proof.
  unfold py_int, is_ascii. destruct (list_ascii_of_string s) as [| c cs]; [discriminate |].
  intros H.
  assert (T : forallb plain cs = true /\ plain c = true
              \/ forallb plain (c :: cs) = true).
  { destruct c as [[] [] [] [] [] [] [] []];
      try (right; exact (parse_digits_plain _ _ _ _ H));
      left; (split; [| reflexivity]);
      first [ exact (parse_digits_plain _ _ _ _ H)
            | destruct (parse_digits cs 0 false) as [k |] eqn:E;
              [exact (parse_digits_plain _ _ _ _ E) | discriminate] ]. }
  destruct T as [[A B] | A]; [| exact A].
  cbn [forallb]. rewrite A, B. reflexivity.
Qed.

Lemma fen_turn_ascii (p : string) (rest : list string) (c : Color) :
  fen_turn (p :: rest) = Return c -> is_ascii p = true.
Proof.
  cbn [fen_turn]. destruct (String.eqb p "w") eqn:W.
  - apply String.eqb_eq in W. subst p. reflexivity.
  - destruct (String.eqb p "b") eqn:B; [| discriminate].
    apply String.eqb_eq in B. subst p. reflexivity.
Qed.

Lemma fen_castling_ascii (p : string) (rest : list string) (c : string) :
  fen_castling (p :: rest) = Return c -> is_ascii p = true.
Proof.
  cbn [fen_castling]. destruct (castling_part_ok p) eqn:E; [| discriminate].
  intros _. exact (castling_part_ascii p E).
Qed.

Lemma fen_ep_ascii (p : string) (rest : list string) (e : option Square) :
  fen_ep (p :: rest) = Return e -> is_ascii p = true.
Proof.
  cbn [fen_ep]. destruct (String.eqb p "-") eqn:D.
  - apply String.eqb_eq in D. subst p. reflexivity.
  - destruct (index_of String.eqb p SQUARE_NAMES) as [sq |] eqn:E; [| discriminate].
    intros _. exact (square_names_ascii p sq E).
Qed.

Lemma fen_counter_ascii (default : nat) (p : string) (rest : list string) (n : nat) :
  fen_counter default (p :: rest) = Return n -> is_ascii p = true.
Proof.
  cbn [fen_counter]. destruct (py_int p) as [k |] eqn:E; [| discriminate].
  intros _. exact (py_int_ascii p k E).
Qed.

(** A text that [set_fen] accepts is made of ASCII characters. *)
Lemma set_fen_str_ascii (fen : string) (b b' : Board) :
  set_fen_str fen b = (b', Return tt) -> is_ascii fen = true.
Proof.
  unfold set_fen_str. intros H.
  apply (split_parts_ascii is_space false); [exact is_space_plain |].
  fold (split_ws fen).
  destruct (split_ws fen) as [| board_part parts]; [discriminate |].
  destruct (fen_turn parts) as [turn' |] eqn:E0; [| discriminate].
  destruct (fen_castling (skipn 1 parts)) as [castling_part |] eqn:E1; [| discriminate].
  destruct (fen_ep (skipn 2 parts)) as [ep |] eqn:E2; [| discriminate].
  destruct (fen_counter 0 (skipn 3 parts)) as [halfmove |] eqn:E3; [| discriminate].
  destruct (fen_counter 1 (skipn 4 parts)) as [fullmove |] eqn:E4; [| discriminate].
  cbv zeta in H.
  destruct (negb (Nat.eqb (length (skipn 5 parts)) 0)) eqn:L5; [discriminate |].
  destruct (negb (Nat.eqb (length (split_char "/" board_part)) 8)); [discriminate |].
  destruct (negb (forallb (fun row => valid_row (list_ascii_of_string row) 0 false false)
                    (split_char "/" board_part))) eqn:V; [discriminate |].
  apply negb_false_iff in V. apply negb_false_iff in L5.
  apply Nat.eqb_eq in L5. apply length_zero_iff_nil in L5.
  cbn [forallb]. rewrite (board_part_ascii board_part V). cbn [andb].
  destruct parts as [| p0 parts]; [reflexivity |].
  cbn [forallb]. rewrite (fen_turn_ascii _ _ _ E0). cbn [andb skipn] in *.
  destruct parts as [| p1 parts]; [reflexivity |].
  cbn [forallb]. rewrite (fen_castling_ascii _ _ _ E1). cbn [andb skipn] in *.
  destruct parts as [| p2 parts]; [reflexivity |].
  cbn [forallb]. rewrite (fen_ep_ascii _ _ _ E2). cbn [andb skipn] in *.
  destruct parts as [| p3 parts]; [reflexivity |].
  cbn [forallb]. rewrite (fen_counter_ascii _ _ _ _ E3). cbn [andb skipn] in *.
  destruct parts as [| p4 parts]; [reflexivity |].
  cbn [forallb]. rewrite (fen_counter_ascii _ _ _ _ E4). cbn [andb skipn] in *.
  change (parts = []) in L5. subst parts. reflexivity.
Qed.

End Writable.

(** [print] can write every text that [set_fen] accepts. *)
Lemma set_fen_writable (fen : pyval) (b b' : chess.Board) :
  chess.set_fen fen b = (b', Return tt) -> writable (PVal fen) = true.
Proof.
  destruct fen as [| | | s | |]; try reflexivity.
  cbn [chess.set_fen writable]. intros H.
  rewrite (is_ascii_no_surrogate s (set_fen_str_ascii s b b' H)). reflexivity.
Qed.

Lemma uci_writable (m : chess.Move) : writable (Str (chess.uci m)) = true.
Proof.
  cbn [Str writable]. rewrite (is_ascii_no_surrogate _ (uci_ascii m)). reflexivity.
Qed.

(** A call of [print] whose arguments can all be written. *)
Lemma print_writable (args : list printed) (st : State) :
  forallb writable args = true -> print args st = (printed_line args st, Return tt).
Proof.
  intros H. unfold print, printed_line. rewrite H.
  assert (W : written args = args).
  { induction args as [| p args IH]; [reflexivity |].
    cbn [forallb] in H. apply andb_true_iff in H. destruct H as [Hp Hr].
    cbn [written]. rewrite Hp, (IH Hr). reflexivity. }
  rewrite W. reflexivity.
Qed.

(** ** Handlers and the global [player_role] *)

Create HintDb role_db.

Lemma keeps_role_ret {A} (a : A) : keeps_role (ret a).
Proof. intros st; reflexivity. Qed.
Lemma keeps_role_raise {A} (e : exn) : keeps_role (@raise A e).
Proof. intros st; reflexivity. Qed.
Lemma keeps_role_lift {A} (o : outcome A) : keeps_role (lift o).
Proof. intros st; reflexivity. Qed.
Lemma keeps_role_print (line : list printed) : keeps_role (print line).
Proof. intros st; reflexivity. Qed.
Lemma keeps_role_get_chessboard : keeps_role get_chessboard.
Proof. intros st; reflexivity. Qed.
Lemma keeps_role_get_player_role : keeps_role get_player_role.
Proof. intros st; reflexivity. Qed.
Lemma keeps_role_on_chessboard {A} (c : chess.Board -> chess.Board * outcome A) :
  keeps_role (on_chessboard c).
Proof. intros st; unfold on_chessboard; destruct (c (chessboard st)); reflexivity. Qed.
Lemma keeps_role_on_sio {A}
    (c : socketio.Client callable -> socketio.Client callable * outcome A) :
  keeps_role (on_sio c).
Proof. intros st; unfold on_sio; destruct (c (sio st)); reflexivity. Qed.
Lemma keeps_role_on_rng {A} (c : random.Random -> random.Random * outcome A) :
  keeps_role (on_rng c).
Proof. intros st; unfold on_rng; destruct (c (rng st)); reflexivity. Qed.

Lemma keeps_role_bind {A B} (m : M A) (k : A -> M B) :
  keeps_role m -> (forall a, keeps_role (k a)) -> keeps_role (bind m k).
Proof.
  intros Hm Hk st. unfold bind. specialize (Hm st).
  destruct (m st) as [st' [a | e]]; simpl in *.
  - rewrite Hk. exact Hm.
  - exact Hm.
Qed.

Lemma keeps_role_if {A} (c : bool) (m1 m2 : M A) :
  keeps_role m1 -> keeps_role m2 -> keeps_role (if c then m1 else m2).
Proof. destruct c; auto. Qed.

Lemma keeps_role_try_except {A} (body : M A) (handler : exn -> M A) :
  keeps_role body -> (forall e, keeps_role (handler e)) -> keeps_role (try_except body handler).
Proof.
  intros Hb Hh st. unfold try_except. specialize (Hb st).
  destruct (body st) as [st' [a | e]]; simpl in *.
  - exact Hb.
  - rewrite Hh. exact Hb.
Qed.

#[local] Hint Resolve keeps_role_ret keeps_role_raise keeps_role_lift keeps_role_print
  keeps_role_get_chessboard keeps_role_get_player_role keeps_role_on_chessboard
  keeps_role_on_sio keeps_role_on_rng keeps_role_bind keeps_role_try_except
  keeps_role_if : role_db.

Lemma keeps_role_make_moves : keeps_role make_moves.
Proof. unfold make_moves. eauto 12 with role_db. Qed.

#[local] Hint Resolve keeps_role_make_moves : role_db.

Lemma keeps_role_on_boardstate (fen : pyval) : keeps_role (on_boardstate fen).
Proof. unfold on_boardstate. eauto 12 with role_db. Qed.

Lemma keeps_role_on_move (move : pyval) : keeps_role (on_move move).
Proof. unfold on_move. eauto 12 with role_db. Qed.

Lemma keeps_role_call (f : callable) (args : list pyval) :
  f <> f_on_player_role -> keeps_role (call f args).
Proof.
  intros Hf. destruct f; try congruence; simpl;
    repeat (match goal with |- keeps_role (match ?l with _ => _ end) => destruct l end);
    try apply keeps_role_raise.
  - apply keeps_role_print.
  - apply keeps_role_print.
  - apply keeps_role_print.
  - apply keeps_role_print.
  - apply keeps_role_on_boardstate.
  - apply keeps_role_on_move.
  - apply keeps_role_make_moves.
Qed.

(** ** The module's start-up and the registry of handlers *)

Lemma receive_unregistered (ev : string * list pyval) (st : State) :
  socketio.handlers (sio st) = ∅ -> receive ev st = st.
Proof.
  intros H. unfold receive, socketio.get_event_handler. rewrite H.
  rewrite !lookup_empty.
  destruct (existsb (String.eqb ev.1) socketio.reserved_events); reflexivity.
Qed.

(** With a handler registered under the event's name, [receive] invokes
    it with the event's arguments. *)
Lemma receive_registered (event : string) (args : list pyval) (f : callable) (st : State) :
  socketio.handlers (sio st) !! event = Some f ->
  receive (event, args) st = invoke f args st.
Proof.
  intros H. unfold receive, socketio.get_event_handler. cbn [fst snd]. rewrite H. reflexivity.
Qed.

Lemma wait_unregistered (events : list (string * list pyval)) (st : State) :
  socketio.handlers (sio st) = ∅ ->
  fold_left (fun s ev => receive ev s) events st = st.
Proof.
  intros H. induction events as [| ev events IH]; simpl.
  - reflexivity.
  - rewrite receive_unregistered by exact H. exact IH.
Qed.

(** C5 - what the module does at start-up.  However the connection
    attempt ends and whatever events the server pushes afterwards, the
    client's handler table is empty when the module has run: the seven
    functions are defined but never registered, so no event reaches any of
    them; the board is still the starting position, the role is still
    [None], nothing was sent and nothing but the two start-up lines was
    printed. *)
Theorem main_registers_no_handler :
  forall (reachable : bool) (events : list (string * list pyval)) (g : random.Random),
    let st := fst (main reachable events (initial_state g)) in
    socketio.handlers (sio st) = ∅
    /\ (forall ev args, socketio.get_event_handler ev args (sio st) = None)
    /\ chessboard st = chess.Board_new
    /\ player_role st = PyNone
    /\ socketio.sent (sio st) = []
    /\ stdout st =
         [Str "🔍 Trying to connect to server..."] ::
         (if reachable then [[Str "➡️ Python reached after connect() call"]] else []).
Proof.
  intros reachable events g.
  set (line1 := [Str "🔍 Trying to connect to server..."]).
  set (line2 := [Str "➡️ Python reached after connect() call"]).
  assert (E : fst (main reachable events (initial_state g)) =
              {| sio := {| socketio.handlers := ∅; socketio.connected := reachable;
                           socketio.sent := [] |};
                 chessboard := chess.Board_new; player_role := PyNone;
                 stdout := line1 :: (if reachable then [line2] else []); rng := g |}).
  { destruct reachable; unfold main, bind, print, on_sio, sio_wait, initial_state;
      cbn [socketio.connect socketio.Client_new sio chessboard player_role stdout rng
           socketio.handlers socketio.connected socketio.sent fst snd app].
    - apply wait_unregistered. reflexivity.
    - reflexivity. }
  cbv zeta. rewrite E. cbn [sio chessboard player_role stdout socketio.handlers socketio.sent].
  repeat split.
  intros ev args. unfold socketio.get_event_handler. cbn [socketio.handlers].
  rewrite !lookup_empty.
  destruct (existsb (String.eqb ev) socketio.reserved_events); reflexivity.
Qed.

(** ** The role *)

Lemma keeps_role_invoke_all (calls : list (callable * list pyval)) (st : State) :
  Forall (fun c => fst c <> f_on_player_role) calls ->
  player_role (invoke_all calls st) = player_role st.
Proof.
  intros H. revert st. induction H as [| c calls Hc _ IH]; intros st; simpl.
  - reflexivity.
  - unfold invoke_all in IH. rewrite IH. unfold invoke. apply keeps_role_call. exact Hc.
Qed.

(** C9, as stated, fails: in the run of two role-assignment events the
    role is "w" after the first and "b" after the second, so an assigned
    role has been changed by a later event. *)
Lemma role_reassigned_by_second_event :
  let g := {| random.entropy := fun _ => 0; random.drawn := 0 |} in
  let first := [(f_on_player_role, [PyStr "w"])] in
  let second := [(f_on_player_role, [PyStr "b"])] in
  player_role (initial_state g) = PyNone
  /\ player_role (invoke_all first (initial_state g)) = PyStr "w"
  /\ player_role (invoke_all (first ++ second) (initial_state g)) = PyStr "b"
  /\ player_role (invoke_all (first ++ second) (initial_state g))
     <> player_role (invoke_all first (initial_state g)).
Proof.
  cbv zeta. split; [reflexivity |]. split; [reflexivity |]. split; [reflexivity |].
  discriminate.
Qed.

(** C9, amended - the role is whatever the latest role-assignment event
    carried: [on_player_role] stores its argument unconditionally, also
    over a role assigned before; no other function of the module changes
    the role, whether it returns or raises, so a run of invocations without
    a role assignment leaves the role as it was. *)
Theorem role_set_only_by_role_event :
  (forall (role : pyval) (st : State),
      player_role (invoke f_on_player_role [role] st) = role)
  /\ (forall (f : callable) (args : list pyval) (st : State),
        f <> f_on_player_role -> player_role (invoke f args st) = player_role st)
  /\ (forall (calls : list (callable * list pyval)) (st : State),
        Forall (fun c => fst c <> f_on_player_role) calls ->
        player_role (invoke_all calls st) = player_role st).
Proof.
  split; [| split].
  - intros role st. reflexivity.
  - intros f args st Hf. unfold invoke. apply keeps_role_call. exact Hf.
  - exact keeps_role_invoke_all.
Qed.

Lemma role_set_only_by_role_event_witness :
  let g := {| random.entropy := fun _ => 0; random.drawn := 0 |} in
  let st := invoke f_on_player_role [PyStr "w"] (initial_state g) in
  let calls :=
    [(f_on_spectator, []);
     (f_on_move, [PyDict [("from", PyStr "e7"); ("to", PyStr "e5")]])] in
  Forall (fun c => fst c <> f_on_player_role) calls
  /\ player_role (invoke_all calls st) = PyStr "w".
Proof.
  cbv zeta.
  assert (H : Forall (fun c : callable * list pyval => fst c <> f_on_player_role)
                [(f_on_spectator, []);
                 (f_on_move, [PyDict [("from", PyStr "e7"); ("to", PyStr "e5")]])]).
  { repeat constructor; discriminate. }
  split; [exact H |].
  rewrite (proj2 (proj2 role_set_only_by_role_event) _ _ H). reflexivity.
Defined.

(** ** The board-state handler *)

(** C2 - what [on_boardstate] does with a text that [set_fen] rejects.
    The exception leaves the handler: [on_boardstate] has no [try], so the
    error is not turned into a printed line there.  The board and every
    other part of the state are as before the event, and neither the
    print nor the turn logic runs. *)
Theorem on_boardstate_malformed_propagates :
  forall (st : State) (fen : pyval) (e : exn),
    snd (chess.set_fen fen (chessboard st)) = Raise e ->
    on_boardstate fen st = (st, Raise e).
Proof.
  intros st fen e H.
  pose proof (set_fen_raise_unchanged fen (chessboard st) e H) as Hb.
  unfold on_boardstate, bind, on_chessboard.
  destruct (chess.set_fen fen (chessboard st)) as [b o]. simpl in H, Hb. subst o b.
  rewrite State_eta. reflexivity.
Qed.

Lemma on_boardstate_malformed_propagates_witness :
  let g := {| random.entropy := fun _ => 0; random.drawn := 0 |} in
  let st := invoke f_on_player_role [PyStr "w"] (initial_state g) in
  snd (chess.set_fen (PyStr "not a position") (chessboard st)) = Raise ValueError
  /\ on_boardstate (PyStr "not a position") st = (st, Raise ValueError).
Proof.
  cbv zeta. split.
  - vm_compute. reflexivity.
  - apply on_boardstate_malformed_propagates. vm_compute. reflexivity.
Defined.

(** [on_boardstate] once [set_fen] has decoded the text into [b']. *)
Lemma on_boardstate_decoded (st : State) (fen : pyval) (b' : chess.Board) :
  chess.set_fen fen (chessboard st) = (b', Return tt) ->
  on_boardstate fen st =
  if py_eq_str (turn_name b') (player_role st)
  then make_moves (board_updated fen b' st)
  else (board_updated fen b' st, Return tt).
Proof.
  intros H. unfold on_boardstate, bind, on_chessboard. rewrite H.
  rewrite print_writable
    by (cbn [forallb]; rewrite (set_fen_writable _ _ _ H); reflexivity).
  unfold printed_line, get_chessboard, get_player_role.
  cbn [chessboard player_role sio stdout rng].
  unfold turn_name. destruct (py_eq_str _ _); reflexivity.
Qed.

(** C4 - what [on_boardstate] does with a text that [set_fen] accepts.
    The board becomes the decoded position [b'], which depends on the text
    alone; the line is printed; then [make_moves] runs exactly when the
    name of the side to move equals the stored role, and otherwise the
    handler returns with the board updated, nothing drawn and nothing
    sent. *)
Theorem on_boardstate_decodes_then_moves_on_own_turn :
  forall (st : State) (fen : pyval) (b' : chess.Board),
    chess.set_fen fen (chessboard st) = (b', Return tt) ->
    (forall other : chess.Board, chess.set_fen fen other = (b', Return tt))
    /\ (py_eq_str (turn_name b') (player_role st) = true ->
        on_boardstate fen st = make_moves (board_updated fen b' st))
    /\ (py_eq_str (turn_name b') (player_role st) = false ->
        on_boardstate fen st = (board_updated fen b' st, Return tt)
        /\ chessboard (fst (on_boardstate fen st)) = b'
        /\ socketio.sent (sio (fst (on_boardstate fen st))) = socketio.sent (sio st)
        /\ rng (fst (on_boardstate fen st)) = rng st).
Proof.
  intros st fen b' H.
  pose proof (on_boardstate_decoded st fen b' H) as E.
  split; [| split].
  - intros other. exact (set_fen_wholesale fen (chessboard st) b' other H).
  - intros Hc. rewrite Hc in E. exact E.
  - intros Hc. rewrite Hc in E. rewrite E.
    split; [reflexivity | split; [reflexivity | split; reflexivity]].
Qed.

Lemma on_boardstate_decodes_then_moves_on_own_turn_witness :
  let g := {| random.entropy := fun _ => 0; random.drawn := 0 |} in
  let st := invoke f_on_player_role [PyStr "b"] (initial_state g) in
  let fen := PyStr chess.STARTING_FEN in
  chess.set_fen fen (chessboard st) = (chess.Board_new, Return tt)
  /\ py_eq_str (turn_name chess.Board_new) (player_role st) = false
  /\ on_boardstate fen st = (board_updated fen chess.Board_new st, Return tt).
Proof.
  cbv zeta.
  assert (H : chess.set_fen (PyStr chess.STARTING_FEN)
                (chessboard (invoke f_on_player_role [PyStr "b"]
                   (initial_state {| random.entropy := fun _ => 0; random.drawn := 0 |})))
              = (chess.Board_new, Return tt)) by (vm_compute; reflexivity).
  split; [exact H | split; [reflexivity |]].
  apply (proj2 (proj2 (on_boardstate_decodes_then_moves_on_own_turn _ _ _ H))).
  reflexivity.
Defined.

(** C8 - the text of the starting position decodes to the starting
    position: [Board().fen()] is the standard starting text, and [set_fen]
    of it, on any board, returns and leaves a board equal to [Board()]; so
    does [on_boardstate] with that text, unless it is the client's turn
    and it plays on. *)
Theorem starting_fen_round_trip :
  chess.fen chess.Board_new = chess.STARTING_FEN
  /\ (forall b : chess.Board,
        chess.set_fen (PyStr (chess.fen chess.Board_new)) b = (chess.Board_new, Return tt))
  /\ (forall st : State,
        py_eq_str "w" (player_role st) = false ->
        chessboard (fst (on_boardstate (PyStr (chess.fen chess.Board_new)) st))
        = chess.Board_new).
Proof.
  assert (F : chess.fen chess.Board_new = chess.STARTING_FEN) by (vm_compute; reflexivity).
  assert (S : forall b, chess.set_fen (PyStr chess.STARTING_FEN) b = (chess.Board_new, Return tt)).
  { intros b. vm_compute. reflexivity. }
  split; [exact F | split].
  - intros b. rewrite F. apply S.
  - intros st Hr. rewrite F. rewrite (on_boardstate_decoded st _ _ (S _)).
    change (turn_name chess.Board_new) with "w". rewrite Hr. reflexivity.
Qed.

Lemma starting_fen_round_trip_witness :
  let g := {| random.entropy := fun _ => 0; random.drawn := 0 |} in
  let st := initial_state g in
  py_eq_str "w" (player_role st) = false
  /\ chessboard (fst (on_boardstate (PyStr (chess.fen chess.Board_new)) st)) = chess.Board_new.
Proof.
  cbv zeta. split.
  - reflexivity.
  - exact (proj2 (proj2 starting_fen_round_trip) (initial_state _) eq_refl).
Defined.

(** ** The opponent-move handler *)


(** What [on_move] does, case by case: the payload fails to give a move,
    or [push] is called with the move and returns, or [push] raises. *)
Lemma on_move_cases (move : pyval) (st : State) :
  on_move move st =
  match payload_move move with
  | Raise e => print [Str "Invalid move received:"; PVal move; PExn e] st
  | Return m =>
      match chess.push m (chessboard st) with
      | (b, Return _) =>
          (printed_line [Str "Opponent moved:"; PVal move] (with_chessboard b st), Return tt)
      | (b, Raise e) =>
          (printed_line [Str "Invalid move received:"; PVal move; PExn e]
             (with_chessboard b st), Return tt)
      end
  end.
Proof.
  unfold on_move, try_except, bind, lift, payload_move, on_chessboard.
  destruct (py_getitem move "from") as [origin | e] eqn:Hfrom; [| reflexivity].
  assert (D : exists d, move = PyDict d) by (destruct move; try discriminate; eauto).
  destruct D as [d ->].
  destruct (py_getitem (PyDict d) "to") as [destination | e]; [| reflexivity].
  destruct (py_add origin destination) as [text | e]; [| reflexivity].
  destruct (chess.from_uci text) as [m | e]; [| reflexivity].
  destruct (chess.push m (chessboard st)) as [b [[] | e]]; reflexivity.
Qed.



(** C1 - an opponent move that is not legal.  On the starting position
    the payload from e2 to e5 parses to a move that is not among the legal
    moves, yet [on_move] plays it: [push] does not check legality, nothing
    is raised, the line printed is the one for an accepted move, and the
    board has the pawn on e5 with Black to move. *)
Theorem on_move_plays_illegal_move :
  forall g : random.Random,
    let st := initial_state g in
    let payload := PyDict [("from", PyStr "e2"); ("to", PyStr "e5")] in
    payload_move payload = Return (chess.mv 12 36)
    /\ ~ In (chess.mv 12 36) (chess.legal_moves (chessboard st))
    /\ snd (on_move payload st) = Return tt
    /\ stdout (fst (on_move payload st)) = [[Str "Opponent moved:"; PVal payload]]
    /\ chess.fen (chessboard (fst (on_move payload st)))
       = "rnbqkbnr/pppppppp/8/4P3/8/8/PPPP1PPP/RNBQKBNR b KQkq - 0 1".
Proof.
  intros g. cbv zeta. rewrite on_move_cases.
  assert (P : payload_move (PyDict [("from", PyStr "e2"); ("to", PyStr "e5")])
              = Return (chess.mv 12 36)) by (vm_compute; reflexivity).
  rewrite P. cbn [initial_state chessboard].
  assert (E : chess.push (chess.mv 12 36) chess.Board_new
              = (fst (chess.push (chess.mv 12 36) chess.Board_new), Return tt))
    by (vm_compute; reflexivity).
  rewrite E.
  cbn [fst snd printed_line with_chessboard stdout chessboard app].
  split; [reflexivity |].
  split.
  { intros H. vm_compute in H.
    repeat (destruct H as [H | H]; [discriminate H |]). exact H. }
  split; [reflexivity |].
  split; [reflexivity |].
  vm_compute. reflexivity.
Qed.




(** ** Bitboards as sets of squares *)

Section Bitboards.
Import chess.

Lemma In_SQUARES (sq : Square) : In sq SQUARES <-> sq < 64.
Proof. unfold SQUARES. rewrite in_seq. lia. Qed.

Lemma In_scan_reversed (bb : Bitboard) (sq : Square) :
  In sq (scan_reversed bb) <-> sq < 64 /\ bb sq = true.
Proof.
  unfold scan_reversed. split.
  - intros H. apply filter_In in H. destruct H as [H1 H2].
    apply in_rev in H1. apply In_SQUARES in H1. split; assumption.
  - intros [H1 H2]. apply filter_In. split; [| exact H2].
    apply -> in_rev. apply In_SQUARES. exact H1.
Qed.

Lemma msb_In (bb : Bitboard) (sq : Square) : msb bb = Some sq -> sq < 64 /\ bb sq = true.
Proof.
  unfold msb. intros H. apply (proj1 (In_scan_reversed bb sq)).
  destruct (scan_reversed bb) as [| x l]; simpl in H; [discriminate |].
  injection H as ->. left; reflexivity.
Qed.

Lemma lsb_In (bb : Bitboard) (sq : Square) : lsb bb = Some sq -> sq < 64 /\ bb sq = true.
Proof.
  unfold lsb. intros H.
  assert (I : In sq (List.filter bb SQUARES)).
  { destruct (List.filter bb SQUARES) as [| x l]; simpl in H; [discriminate |].
    injection H as ->. left; reflexivity. }
  apply filter_In in I. destruct I as [I1 I2]. apply In_SQUARES in I1. split; assumption.
Qed.

Lemma band_true (a b : Bitboard) (sq : Square) :
  (a .& b) sq = true <-> a sq = true /\ b sq = true.
Proof. unfold band. apply andb_true_iff. Qed.

Lemma bnot_true (a : Bitboard) (sq : Square) :
  (.~ a) sq = true <-> sq < 64 /\ a sq = false.
Proof.
  unfold bnot. rewrite andb_true_iff, negb_true_iff, Nat.ltb_lt. tauto.
Qed.

Lemma occupied_co_true (b : BoardState) (c : Color) (sq : Square) :
  occupied_co b c sq = true ->
  sq < 64 /\ exists p, piece_at b sq = Some p /\ color p = c.
Proof.
  unfold occupied_co. rewrite andb_true_iff, Nat.ltb_lt. intros [Hlt H].
  split; [exact Hlt |].
  destruct (piece_at b sq) as [p |]; [| discriminate].
  exists p. split; [reflexivity |]. destruct (color p), c; simpl in H; congruence.
Qed.

Lemma of_type_true (b : BoardState) (pt : PieceType) (sq : Square) :
  of_type b pt sq = true ->
  sq < 64 /\ exists p, piece_at b sq = Some p /\ piece_type p = pt.
Proof.
  unfold of_type. rewrite andb_true_iff, Nat.ltb_lt. intros [Hlt H].
  split; [exact Hlt |].
  destruct (piece_at b sq) as [p |]; [| discriminate].
  exists p. split; [reflexivity |].
  destruct (piece_type p), pt; simpl in H; congruence.
Qed.

Lemma occupied_false (b : BoardState) (sq : Square) :
  sq < 64 -> occupied b sq = false -> piece_at b sq = None.
Proof.
  unfold occupied. intros Hlt H. apply Nat.ltb_lt in Hlt. rewrite Hlt in H. simpl in H.
  destruct (piece_at b sq); [discriminate | reflexivity].
Qed.

End Bitboards.

(** ** [push] on a move that names a piece *)

Section Push.
Import chess.

Lemma kings_not_pawns (b : BoardState) (sq : Square) :
  kings b sq = true -> pawns b sq = false.
Proof.
  unfold kings, pawns, of_type. destruct (sq <? 64); simpl; [| reflexivity].
  destruct (piece_at b sq) as [p |]; [| reflexivity].
  destruct (piece_type p); simpl; congruence.
Qed.

Lemma kings_isSome (b : BoardState) (sq : Square) :
  kings b sq = true -> sq < 64 /\ isSome (piece_at b sq) = true.
Proof.
  intros H. apply of_type_true in H. destruct H as [Hlt [p [Hp _]]].
  split; [exact Hlt |]. rewrite Hp. reflexivity.
Qed.

Lemma pushable_to_chess960 (b : Board) (m : Move) :
  pushable b m -> pushable b (to_chess960 b m).
Proof.
  intros Hp. unfold to_chess960.
  assert (K : forall k t, t < 64 -> kings b k = true -> pushable b (mv k t)).
  { intros k t Ht Hk. destruct (kings_isSome _ _ Hk) as [Hlt Hs].
    unfold pushable; cbn [mv drop from_square to_square]. repeat split; auto.
    intros _ Hpawn. rewrite (kings_not_pawns _ _ Hk) in Hpawn. discriminate. }
  destruct (Nat.eqb (from_square m) E1 && kings b E1) eqn:E1c.
  - apply andb_true_iff in E1c. destruct E1c as [_ Hk].
    destruct (Nat.eqb (to_square m) G1 && negb (rooks b G1));
      [apply K; [unfold H1; lia | exact Hk] |].
    destruct (Nat.eqb (to_square m) C1 && negb (rooks b C1));
      [apply K; [unfold A1; lia | exact Hk] |]. exact Hp.
  - destruct (Nat.eqb (from_square m) E8 && kings b E8) eqn:E8c; [| exact Hp].
    apply andb_true_iff in E8c. destruct E8c as [_ Hk].
    destruct (Nat.eqb (to_square m) G8 && negb (rooks b G8));
      [apply K; [unfold H8; lia | exact Hk] |].
    destruct (Nat.eqb (to_square m) C8 && negb (rooks b C8));
      [apply K; [unfold A8; lia | exact Hk] |]. exact Hp.
Qed.

Lemma BB_SQUARES_index_white (e : nat) :
  e < 64 -> exists sq, BB_SQUARES_index (Z.of_nat e + -8) = Return sq.
Proof.
  intros He. unfold BB_SQUARES_index.
  destruct ((0 <=? Z.of_nat e + -8)%Z && (Z.of_nat e + -8 <? 64)%Z) eqn:A; [eauto |].
  destruct ((-64 <=? Z.of_nat e + -8)%Z && (Z.of_nat e + -8 <? 0)%Z) eqn:B; [eauto |].
  exfalso. apply andb_false_iff in A, B.
  rewrite !Z.leb_gt, !Z.ltb_ge in *. lia.
Qed.

Lemma BB_SQUARES_index_black (e : nat) :
  e + 8 < 64 -> exists sq, BB_SQUARES_index (Z.of_nat e + 8) = Return sq.
Proof.
  intros He. unfold BB_SQUARES_index.
  destruct ((0 <=? Z.of_nat e + 8)%Z && (Z.of_nat e + 8 <? 64)%Z) eqn:A; [eauto |].
  exfalso. apply andb_false_iff in A. rewrite Z.leb_gt, Z.ltb_ge in A. lia.
Qed.

End Push.

Section PushReturns.
Import chess.

Lemma push_place_turn (s : BoardState) (pt : PieceType) (pr : bool) (f t : Square) :
  turn (push_place s pt pr f t) = turn s.
Proof.
  unfold push_place.
  destruct (PieceType_eqb pt KING && occupied_co s (turn s) t);
    [destruct (square_file t <? square_file f) |]; reflexivity.
Qed.

Lemma pawns_piece (b : BoardState) (sq : Square) (p : Piece) :
  sq < 64 -> piece_at b sq = Some p -> PieceType_eqb (piece_type p) PAWN = true ->
  pawns b sq = true.
Proof.
  intros Hlt Hp Ht. unfold pawns, of_type. rewrite Hp, Ht.
  apply Nat.ltb_lt in Hlt. rewrite Hlt. reflexivity.
Qed.

(** The pawn part of [push] returns, and keeps the side to move, when the
    square behind the en passant square is on the board. *)
Lemma push_pawn_moves_returns (s : BoardState) (ep : option Square) (pt : PieceType)
    (captured : option PieceType) (f t : Square) :
  t < 64 ->
  (turn s = false -> PieceType_eqb pt PAWN = true -> ep = Some t ->
   captured = None -> (Z.abs (Z.of_nat t - Z.of_nat f) =? 7)%Z
                      || (Z.abs (Z.of_nat t - Z.of_nat f) =? 9)%Z = true ->
   t + 8 < 64) ->
  exists s', push_pawn_moves s ep pt captured f t = Return s' /\ turn s' = turn s.
Proof.
  intros Ht Hep. unfold push_pawn_moves.
  destruct (PieceType_eqb pt PAWN) eqn:Hpawn; [| eauto].
  destruct ((Z.of_nat t - Z.of_nat f =? 16)%Z && (square_rank f =? 1)); [eauto |].
  destruct ((Z.of_nat t - Z.of_nat f =? -16)%Z && (square_rank f =? 6)); [eauto |].
  destruct ep as [e |]; [| eauto].
  destruct ((t =? e)
            && ((Z.abs (Z.of_nat t - Z.of_nat f) =? 7)%Z
                || (Z.abs (Z.of_nat t - Z.of_nat f) =? 9)%Z)
            && negb (isSome captured)) eqn:C; [| eauto].
  apply andb_true_iff in C. destruct C as [C Hcap].
  apply andb_true_iff in C. destruct C as [Hte Hdiff].
  apply Nat.eqb_eq in Hte. subst e.
  destruct (turn s) eqn:Hturn.
  - destruct (BB_SQUARES_index_white t Ht) as [sq Hsq]. rewrite Hsq. eauto.
  - assert (H8 : t + 8 < 64).
    { apply Hep; auto. destruct captured; [discriminate | reflexivity]. }
    destruct (BB_SQUARES_index_black t H8) as [sq Hsq]. rewrite Hsq. eauto.
Qed.

(** A pushable move is not the capture that [push] cannot make. *)
Lemma pushable_captures_on_board (b : Board) (m : Move) :
  pushable b m -> captures_off_board b m = false.
Proof.
  intros (_ & _ & _ & _ & Hep). unfold captures_off_board. cbv zeta.
  destruct (turn b) eqn:Hturn; [reflexivity |].
  destruct (pawns b (from_square m)) eqn:Hpawn; [| reflexivity].
  destruct (bool_decide (ep_square b = Some (to_square m))) eqn:He; [| reflexivity].
  apply bool_decide_eq_true_1 in He.
  destruct (piece_at b (to_square m)) eqn:Hp; [reflexivity |].
  specialize (Hep eq_refl eq_refl He eq_refl).
  cbn [negb isSome andb].
  destruct (56 <=? to_square m) eqn:L; [| apply andb_false_r].
  apply Nat.leb_le in L. lia.
Qed.

(** [push] returns and hands the turn to the other side when the move it
    plays, [to_chess960 b m], starts on an occupied square and is not the
    capture that it cannot make. *)
Lemma push_returns_core (b : Board) (m : Move) :
  drop (to_chess960 b m) = None ->
  from_square (to_chess960 b m) < 64 ->
  to_square (to_chess960 b m) < 64 ->
  isSome (piece_at b (from_square (to_chess960 b m))) = true ->
  captures_off_board b (to_chess960 b m) = false ->
  snd (push m b) = Return tt /\ turn (fst (push m b)) = negb (turn b).
Proof.
  unfold push. generalize (to_chess960 b m). intros move Hd Hf Ht Hs Hc.
  cbv zeta.
  destruct (negb (Move_bool move)); [split; reflexivity |].
  rewrite Hd.
  destruct (piece_at b (from_square move)) as [p |] eqn:Hpiece; [| discriminate].
  set (s1 := {| pieces := pieces b; promoted := promoted b; turn := turn b;
                castling_rights := gset_of (clean_castling_rights b); ep_square := None;
                halfmove_clock := S (halfmove_clock b);
                fullmove_number := if turn b then fullmove_number b
                                   else S (fullmove_number b) |}).
  set (s2 := if is_zeroing s1 move then with_halfmove_clock s1 0 else s1).
  assert (P2 : pieces s2 = pieces b) by (unfold s2; destruct (is_zeroing s1 move); reflexivity).
  assert (T2 : turn s2 = turn b) by (unfold s2; destruct (is_zeroing s1 move); reflexivity).
  assert (L : piece_type_at s2 (from_square move) = Some (piece_type p)).
  { unfold piece_type_at, piece_at. rewrite P2. unfold piece_at in Hpiece. rewrite Hpiece.
    reflexivity. }
  rewrite L.
  set (s3 := remove_piece_at (from_square move) s2).
  set (captured := piece_type_at s3 (to_square move)).
  set (cr2 := push_castling_rights s3 _ _ _ _ _ _).
  set (s4 := with_rights s3 (gset_of cr2) None).
  assert (T4 : turn s4 = turn b) by exact T2.
  destruct (push_pawn_moves_returns s4 (ep_square b) (piece_type p) captured
              (from_square move) (to_square move) Ht) as [s5 [E5 T5]].
  { rewrite T4. intros Hturn Hpawn Hepsq Hcap Hdiff.
    assert (He : piece_at b (to_square move) = None).
    { unfold captured, piece_type_at, piece_at, s3 in Hcap.
      cbn [pieces remove_piece_at with_pieces] in Hcap. rewrite P2 in Hcap.
      assert (Hne : from_square move <> to_square move).
      { intros Heq. rewrite Heq in Hdiff.
        replace (Z.of_nat (to_square move) - Z.of_nat (to_square move))%Z with 0%Z in Hdiff
          by lia. discriminate. }
      rewrite lookup_delete_ne in Hcap by exact Hne.
      unfold piece_at. destruct (pieces b !! to_square move); [discriminate | reflexivity]. }
    unfold captures_off_board in Hc. cbv zeta in Hc.
    rewrite Hturn, (pawns_piece b _ p Hf Hpiece Hpawn), He, Hdiff in Hc.
    rewrite (bool_decide_eq_true_2 _ Hepsq) in Hc. cbn [negb isSome andb] in Hc.
    apply Nat.leb_gt in Hc. lia. }
  rewrite E5. cbn [fst snd state]. split; [reflexivity |].
  cbn [turn swap_turn]. rewrite push_place_turn, T5, T4. reflexivity.
Qed.

(** [push] returns on a pushable move and hands the turn to the other
    side. *)
Lemma push_returns (b : Board) (m : Move) :
  pushable b m ->
  snd (push m b) = Return tt /\ turn (fst (push m b)) = negb (turn b).
Proof.
  intros Hp. apply pushable_to_chess960 in Hp.
  pose proof (pushable_captures_on_board _ _ Hp) as Hc.
  destruct Hp as (Hd & Hf & Ht & Hs & _).
  apply push_returns_core; assumption.
Qed.

Lemma to_chess960_not_in_kings (b : BoardState) (m : Move) :
  kings b (from_square m) = false -> to_chess960 b m = m.
Proof.
  intros K. unfold to_chess960.
  destruct (Nat.eqb (from_square m) E1) eqn:A.
  - apply Nat.eqb_eq in A. rewrite <- A, K. simpl.
    destruct (Nat.eqb (from_square m) E8) eqn:B; [| reflexivity].
    apply Nat.eqb_eq in B. rewrite A in B. discriminate.
  - simpl. destruct (Nat.eqb (from_square m) E8) eqn:B; [| reflexivity].
    apply Nat.eqb_eq in B. rewrite <- B, K. reflexivity.
Qed.

(** [push] returns on every move, other than a drop, that starts on an
    occupied square, but for the capture that it cannot make. *)
Lemma push_plays (b : Board) (m : Move) :
  drop m = None ->
  from_square m < 64 ->
  to_square m < 64 ->
  isSome (piece_at b (from_square m)) = true ->
  captures_off_board b m = false ->
  snd (push m b) = Return tt /\ turn (fst (push m b)) = negb (turn b).
Proof.
  intros Hd Hf Ht Hs Hc.
  destruct (kings b (from_square m)) eqn:K.
  - apply push_returns. unfold pushable. repeat split; try assumption.
    intros _ Hpawn. rewrite (kings_not_pawns _ _ K) in Hpawn. discriminate.
  - apply push_returns_core; rewrite (to_chess960_not_in_kings b m K); assumption.
Qed.

End PushReturns.

(** ** Every generated move is playable *)

Section Generated.
Import chess.

Lemma own_piece (b : BoardState) (sq : Square) :
  occupied_co b (turn b) sq = true -> sq < 64 /\ isSome (piece_at b sq) = true.
Proof.
  intros H. apply occupied_co_true in H. destruct H as [Hlt [p [Hp _]]].
  split; [exact Hlt |]. rewrite Hp. reflexivity.
Qed.

Lemma other_piece (b : BoardState) (sq : Square) :
  occupied_co b (negb (turn b)) sq = true ->
  occupied_co b (turn b) sq = false /\ piece_at b sq <> None.
Proof.
  intros H. apply occupied_co_true in H. destruct H as [Hlt [p [Hp Hc]]].
  unfold occupied_co. rewrite Hp, Hc. split.
  - destruct (turn b); simpl; apply andb_false_r.
  - discriminate.
Qed.

(** A move from a square of the mover's own to another square. *)
Lemma playable_intro (b : Board) (m : Move) :
  drop m = None ->
  occupied_co b (turn b) (from_square m) = true ->
  to_square m < 64 ->
  from_square m <> to_square m ->
  (turn b = false -> pawns b (from_square m) = true ->
   ep_square b = Some (to_square m) -> piece_at b (to_square m) = None ->
   to_square m + 8 < 64) ->
  playable b m.
Proof.
  intros Hd Hown Ht Hne Hep. destruct (own_piece _ _ Hown) as [Hf Hs].
  split; [| intros _; exact Hne].
  unfold pushable. repeat split; assumption.
Qed.

Lemma pawn_moves_to_In (f t : Square) (m : Move) :
  In m (pawn_moves_to f t) -> drop m = None /\ from_square m = f /\ to_square m = t.
Proof.
  unfold pawn_moves_to.
  destruct (_ || _); simpl; intros H;
    repeat (destruct H as [<- | H]; [repeat split |]); contradiction.
Qed.

Lemma not_own_differs (b : BoardState) (f t : Square) :
  occupied_co b (turn b) f = true -> occupied_co b (turn b) t = false -> f <> t.
Proof. intros Hf Ht ->. congruence. Qed.

(** The squares a black pawn can capture en passant from are on the fourth
    rank, so the captured pawn's square is on the board. *)
Lemma ep_target_black (ep f : Square) :
  ep < 64 -> f < 64 -> BB_PAWN_ATTACKS true ep f = true -> BB_RANK 3 f = true ->
  ep + 8 < 64.
Proof.
  intros He Hf Ha Hr.
  assert (T : forallb (fun e => forallb (fun g =>
                implb (BB_PAWN_ATTACKS true e g && BB_RANK 3 g) (e + 8 <? 64)) SQUARES)
                SQUARES = true) by (vm_compute; reflexivity).
  rewrite forallb_forall in T. specialize (T ep (proj2 (In_SQUARES ep) He)).
  rewrite forallb_forall in T. specialize (T f (proj2 (In_SQUARES f) Hf)).
  rewrite Ha, Hr in T. simpl in T. apply Nat.ltb_lt. exact T.
Qed.

Lemma ep_moves_playable (b : Board) (fm tm : Bitboard) (m : Move) :
  In m (generate_pseudo_legal_ep b fm tm) -> playable b m.
Proof.
  unfold generate_pseudo_legal_ep.
  destruct (ep_square b) as [ep |] eqn:Hep; [| contradiction].
  destruct (Nat.eqb ep 0 || negb ((BB_SQUARE ep .& tm) ep)) eqn:C1; [contradiction |].
  destruct (occupied b ep) eqn:Hocc; [contradiction |].
  apply orb_false_iff in C1. destruct C1 as [_ C1]. apply negb_false_iff in C1.
  apply band_true in C1. destruct C1 as [C1 _].
  unfold BB_SQUARE in C1. apply andb_true_iff in C1. destruct C1 as [Hlt _].
  apply Nat.ltb_lt in Hlt.
  intros H. apply in_map_iff in H. destruct H as [capturer [<- H]].
  apply (proj1 (In_scan_reversed _ _)) in H. destruct H as [Hc H].
  repeat (apply band_true in H; let X := fresh "X" in destruct H as [H X]).
  apply playable_intro; cbn [mv drop from_square to_square]; auto.
  - intros ->. apply own_piece in X2. destruct X2 as [_ X2].
    rewrite (occupied_false b ep Hlt Hocc) in X2. discriminate.
  - intros Hturn _ _ _. rewrite Hturn in X0, X. simpl in X0.
    exact (ep_target_black ep capturer Hlt Hc X0 X).
Qed.

Lemma rook_not_king (b : BoardState) (k r : Square) :
  kings b k = true -> rooks b r = true -> k <> r.
Proof.
  intros Hk Hr ->. apply of_type_true in Hk, Hr.
  destruct Hk as [_ [p [Hp Tp]]], Hr as [_ [q [Hq Tq]]]. congruence.
Qed.

Lemma clean_castling_rights_rooks (b : Board) (sq : Square) :
  stack b = [] -> clean_castling_rights b sq = true -> rooks b sq = true.
Proof.
  intros Hs. unfold clean_castling_rights. rewrite Hs.
  destruct ((occupied_co b WHITE .& kings b .& .~ promoted_bb b) E1),
           ((occupied_co b BLACK .& kings b .& .~ promoted_bb b) E8);
    unfold bor, band, BB_EMPTY; intros H;
    repeat (apply orb_true_iff in H; destruct H as [H | H]);
    repeat (apply andb_true_iff in H; let X := fresh "X" in destruct H as [H X]);
    try discriminate; assumption.
Qed.

Lemma from_chess960_castle (b : BoardState) (k cand : Square) :
  let m := from_chess960 b k cand None None in
  drop m = None /\ from_square m = k
  /\ (to_square m = cand \/ (to_square m < 64 /\ to_square m <> k)).
Proof.
  unfold from_chess960.
  destruct (Nat.eqb k E1 && kings b E1) eqn:C1.
  - apply andb_true_iff in C1. destruct C1 as [C1 _]. apply Nat.eqb_eq in C1. subst k.
    destruct (Nat.eqb cand H1); [| destruct (Nat.eqb cand A1)]; cbn;
      repeat split; auto; right; unfold G1, C1, E1; lia.
  - destruct (Nat.eqb k E8 && kings b E8) eqn:C8; [| cbn; auto].
    apply andb_true_iff in C8. destruct C8 as [C8 _]. apply Nat.eqb_eq in C8. subst k.
    destruct (Nat.eqb cand H8); [| destruct (Nat.eqb cand A8)]; cbn;
      repeat split; auto; right; unfold G8, C8, E8; lia.
Qed.

Lemma castling_moves_playable (b : Board) (fm tm : Bitboard) (m : Move) :
  In m (generate_castling_moves b fm tm) -> playable b m.
Proof.
  unfold generate_castling_moves.
  destruct (lsb _) as [k |] eqn:Hk; [| contradiction].
  apply lsb_In in Hk. destruct Hk as [Hklt Hk].
  repeat (apply band_true in Hk; let X := fresh "X" in destruct Hk as [Hk X]).
  intros H. apply in_flat_map in H. destruct H as [cand [Hc H]].
  apply (proj1 (In_scan_reversed _ _)) in Hc. destruct Hc as [Hclt Hc].
  repeat (apply band_true in Hc; let X := fresh "Y" in destruct Hc as [Hc X]).
  destruct (_ || _) in H; [contradiction |].
  destruct H as [<- | []].
  destruct (from_chess960_castle b k cand) as (Hd & Hf & Ht).
  split.
  - unfold pushable. rewrite Hd, Hf. destruct (own_piece _ _ Hk) as [_ Hs].
    repeat split; auto.
    + destruct Ht as [-> | [Ht _]]; assumption.
    + intros _ Hp. rewrite (kings_not_pawns _ _ X2) in Hp. discriminate.
  - intros Hs. rewrite Hf. destruct Ht as [-> | [_ Ht]]; [| auto].
    apply (rook_not_king b); [exact X2 |].
    apply clean_castling_rights_rooks; assumption.
Qed.

(** The moves of [generate_pseudo_legal_moves] are playable. *)
Lemma pseudo_legal_moves_playable (b : Board) (fm tm : Bitboard) (m : Move) :
  In m (generate_pseudo_legal_moves b fm tm) -> playable b m.
Proof.
  unfold generate_pseudo_legal_moves. cbv zeta.
  set (piece_moves := flat_map _ (scan_reversed (occupied_co b (turn b) .& .~ pawns b .& fm))).
  set (castling_moves := if bb_any (fm .& kings b) then _ else _).
  assert (PM : In m piece_moves -> playable b m).
  { unfold piece_moves. intros H. apply in_flat_map in H. destruct H as [f [Hf H]].
    apply in_map_iff in H. destruct H as [t [<- Ht]].
    apply (proj1 (In_scan_reversed _ _)) in Hf, Ht.
    destruct Hf as [Hflt Hf], Ht as [Htlt Ht].
    repeat (apply band_true in Hf; let X := fresh "X" in destruct Hf as [Hf X]).
    repeat (apply band_true in Ht; let X := fresh "Y" in destruct Ht as [Ht X]).
    apply bnot_true in X0, Y0. destruct X0 as [_ X0], Y0 as [_ Y0].
    apply playable_intro; cbn [mv drop from_square to_square]; auto.
    - apply (not_own_differs b); assumption.
    - intros _ Hp. congruence. }
  assert (CM : In m castling_moves -> playable b m).
  { unfold castling_moves. destruct (bb_any (fm .& kings b)); [| contradiction].
    apply castling_moves_playable. }
  destruct (negb (bb_any (pawns b .& occupied_co b (turn b) .& fm))).
  { intros H. apply in_app_or in H. tauto. }
  intros H.
  apply in_app_or in H. destruct H as [H | H]; [auto |].
  apply in_app_or in H. destruct H as [H | H]; [auto |].
  apply in_app_or in H. destruct H as [H | H].
  { (* captures *)
    apply in_flat_map in H. destruct H as [f [Hf H]].
    apply in_flat_map in H. destruct H as [t [Ht H]].
    apply pawn_moves_to_In in H. destruct H as (Hd & Hfm & Htm).
    apply (proj1 (In_scan_reversed _ _)) in Hf, Ht.
    destruct Hf as [Hflt Hf], Ht as [Htlt Ht].
    repeat (apply band_true in Hf; let X := fresh "X" in destruct Hf as [Hf X]).
    repeat (apply band_true in Ht; let X := fresh "Y" in destruct Ht as [Ht X]).
    destruct (other_piece _ _ Y0) as [Hnot Hsome].
    apply playable_intro; rewrite ?Hfm, ?Htm; auto.
    - apply (not_own_differs b); assumption.
    - intros _ _ _ Hnone. contradiction. }
  apply in_app_or in H. destruct H as [H | H].
  { (* single steps *)
    apply in_flat_map in H. destruct H as [t [Ht H]].
    apply pawn_moves_to_In in H. destruct H as (Hd & Hfm & Htm).
    apply (proj1 (In_scan_reversed _ _)) in Ht. destruct Ht as [Htlt Ht].
    apply band_true in Ht. destruct Ht as [Ht _].
    apply band_true in Ht. destruct Ht as [Ht _].
    destruct (turn b) eqn:Hturn.
    - unfold shift_up in Ht. apply andb_true_iff in Ht. destruct Ht as [Ht Hp].
      apply andb_true_iff in Ht. destruct Ht as [_ H8]. apply Nat.leb_le in H8.
      repeat (apply band_true in Hp; let X := fresh "X" in destruct Hp as [Hp X]).
      apply playable_intro; rewrite ?Hfm, ?Htm, ?Hturn; auto; try lia; try discriminate.
    - unfold shift_down in Ht. apply andb_true_iff in Ht. destruct Ht as [H8 Hp].
      apply Nat.ltb_lt in H8.
      repeat (apply band_true in Hp; let X := fresh "X" in destruct Hp as [Hp X]).
      apply playable_intro; rewrite ?Hfm, ?Htm, ?Hturn; auto; try lia. }
  apply in_app_or in H. destruct H as [H | H].
  { (* double steps *)
    apply in_map_iff in H. destruct H as [t [<- Ht]].
    apply (proj1 (In_scan_reversed _ _)) in Ht. destruct Ht as [Htlt Ht].
    apply band_true in Ht. destruct Ht as [Ht _].
    apply band_true in Ht. destruct Ht as [Ht _].
    apply band_true in Ht. destruct Ht as [Ht _].
    destruct (turn b) eqn:Hturn.
    - unfold shift_up in Ht. apply andb_true_iff in Ht. destruct Ht as [Ht Hp].
      apply andb_true_iff in Ht. destruct Ht as [_ H8]. apply Nat.leb_le in H8.
      apply band_true in Hp. destruct Hp as [Hp _].
      unfold shift_up in Hp. apply andb_true_iff in Hp. destruct Hp as [Hp Hq].
      apply andb_true_iff in Hp. destruct Hp as [_ H16]. apply Nat.leb_le in H16.
      replace (t - 8 - 8) with (t - 16) in Hq by lia.
      repeat (apply band_true in Hq; let X := fresh "X" in destruct Hq as [Hq X]).
      apply playable_intro; cbn [mv drop from_square to_square]; rewrite ?Hturn;
        auto; try lia; try discriminate.
    - unfold shift_down in Ht. apply andb_true_iff in Ht. destruct Ht as [H8 Hp].
      apply Nat.ltb_lt in H8.
      apply band_true in Hp. destruct Hp as [Hp _].
      unfold shift_down in Hp. apply andb_true_iff in Hp. destruct Hp as [H16 Hq].
      apply Nat.ltb_lt in H16.
      replace (t + 8 + 8) with (t + 16) in Hq by lia.
      repeat (apply band_true in Hq; let X := fresh "X" in destruct Hq as [Hq X]).
      apply playable_intro; cbn [mv drop from_square to_square]; rewrite ?Hturn;
        auto; try lia. }
  destruct (ep_square b) as [[| ep] |]; try contradiction.
  exact (ep_moves_playable b fm tm m H).
Qed.

Lemma evasions_playable (b : Board) (k : Square) (checkers fm tm : Bitboard) (m : Move) :
  (kings b .& occupied_co b (turn b)) k = true ->
  In m (generate_evasions b k checkers fm tm) -> playable b m.
Proof.
  intros Hk. apply band_true in Hk. destruct Hk as [Hking Hown].
  unfold generate_evasions. cbv zeta.
  set (king_moves := if (BB_SQUARE k .& fm) k then _ else _).
  assert (KM : In m king_moves -> playable b m).
  { unfold king_moves. destruct ((BB_SQUARE k .& fm) k); [| contradiction].
    intros H. apply in_map_iff in H. destruct H as [t [<- Ht]].
    apply (proj1 (In_scan_reversed _ _)) in Ht. destruct Ht as [Htlt Ht].
    repeat (apply band_true in Ht; let X := fresh "Y" in destruct Ht as [Ht X]).
    apply bnot_true in Y1. destruct Y1 as [_ Y1].
    apply playable_intro; cbn [mv drop from_square to_square]; auto.
    - apply (not_own_differs b); assumption.
    - intros _ Hp. rewrite (kings_not_pawns _ _ Hking) in Hp. discriminate. }
  destruct (scan_reversed checkers) as [| checker [| ? ?]]; auto.
  intros H.
  apply in_app_or in H. destruct H as [H | H]; [auto |].
  apply in_app_or in H. destruct H as [H | H].
  - exact (pseudo_legal_moves_playable _ _ _ _ H).
  - destruct (ep_square b) as [[| ep] |]; try contradiction.
    destruct (_ && _) in H; [| contradiction].
    exact (ep_moves_playable _ _ _ _ H).
Qed.

(** Every legal move is playable. *)
Lemma legal_moves_playable (b : Board) (m : Move) :
  In m (legal_moves b) -> playable b m.
Proof.
  unfold legal_moves, generate_legal_moves.
  destruct (msb (kings b .& occupied_co b (turn b))) as [k |] eqn:Hk.
  - apply msb_In in Hk. destruct Hk as [_ Hk].
    destruct (bb_any (attackers_mask b (negb (turn b)) k)); intros H;
      apply filter_In in H; destruct H as [H _].
    + exact (evasions_playable _ _ _ _ _ _ Hk H).
    + exact (pseudo_legal_moves_playable _ _ _ _ H).
  - apply pseudo_legal_moves_playable.
Qed.

End Generated.

(** ** Legal moves, the end of the game and the move-turn sequence *)

(** [push] returns on a legal move and the turn passes. *)
Lemma push_legal_returns (b : chess.Board) (m : chess.Move) :
  In m (chess.legal_moves b) ->
  snd (chess.push m b) = Return tt
  /\ chess.turn (fst (chess.push m b)) = negb (chess.turn b).
Proof.
  intros H. apply push_returns. exact (proj1 (legal_moves_playable b m H)).
Qed.

(** C6 - playing a legal move.  For every board and every move of its
    legal-move list, [push] returns without raising and the side to move
    of the board it leaves is the other side. *)
Theorem push_legal_move_hands_over_turn :
  forall (b : chess.Board) (m : chess.Move),
    In m (chess.legal_moves b) ->
    snd (chess.push m b) = Return tt
    /\ chess.turn (fst (chess.push m b)) = negb (chess.turn b).
Proof.
  intros b m H. apply push_returns.
  destruct (legal_moves_playable b m H) as [Hpush _]. exact Hpush.
Qed.

Lemma push_legal_move_hands_over_turn_witness :
  In (chess.mv 12 28) (chess.legal_moves chess.Board_new)
  /\ snd (chess.push (chess.mv 12 28) chess.Board_new) = Return tt
  /\ chess.turn (fst (chess.push (chess.mv 12 28) chess.Board_new)) = false.
Proof.
  assert (H : In (chess.mv 12 28) (chess.legal_moves chess.Board_new)).
  { vm_compute. repeat (first [left; reflexivity | right]). }
  split; [exact H |].
  exact (push_legal_move_hands_over_turn chess.Board_new (chess.mv 12 28) H).
Defined.

(** A game that is not over has a legal move. *)
Lemma not_over_has_legal_move (b : chess.Board) :
  chess.is_game_over b = false -> chess.legal_moves b <> [].
Proof.
  unfold chess.is_game_over. intros H.
  repeat (apply orb_false_iff in H; destruct H as [H ?]).
  intros E. rewrite E in *. discriminate.
Qed.

(** [random.choice] on a list that is not empty returns one of its
    elements and advances the generator by one draw. *)
Lemma choice_nonempty {A} (l : list A) (g : random.Random) :
  l <> [] -> exists x, In x l /\ random.choice l g = (drawn_once g, Return x).
Proof.
  intros Hl. destruct l as [| x l]; [congruence |].
  unfold random.choice, drawn_once. eexists. split; [| reflexivity].
  apply nth_In. apply Nat.mod_upper_bound. discriminate.
Qed.

Section Names.
Import chess.

Lemma square_name_two (sq : Square) :
  sq < 64 -> exists a c, square_name sq = String a (String c EmptyString).
Proof.
  intros H.
  do 64 (destruct sq as [| sq]; [eexists; eexists; reflexivity |]).
  lia.
Qed.

(** The first four characters of the UCI text of a move between two
    different squares are the names of its squares. *)
Lemma uci_slices (m : Move) :
  drop m = None -> from_square m < 64 -> to_square m < 64 ->
  from_square m <> to_square m ->
  slice (uci m) 0 2 = square_name (from_square m)
  /\ slice (uci m) 2 4 = square_name (to_square m).
Proof.
  intros Hd Hf Ht Hne. unfold uci. rewrite Hd.
  destruct (square_name_two _ Hf) as (a & c & ->).
  destruct (square_name_two _ Ht) as (a' & c' & ->).
  destruct (promotion m) as [p |] eqn:Hp.
  - destruct p; split; vm_compute; reflexivity.
  - assert (B : Move_bool m = true).
    { unfold Move_bool.
      destruct (from_square m) as [| f]; [| reflexivity].
      destruct (to_square m) as [| t]; [congruence | reflexivity]. }
    rewrite B. split; vm_compute; reflexivity.
Qed.

End Names.

Lemma make_moves_over (st : State) :
  chess.is_game_over (chessboard st) = true ->
  make_moves st = (printed_line [Str "Game Over"] st, Return tt).
Proof.
  intros H. unfold make_moves, bind, get_chessboard. rewrite H. reflexivity.
Qed.

(** What [make_moves] does when the game is not over: it draws a legal
    move, plays it, and then sends and prints it, or stops at [emit] when
    the client is not connected. *)
Lemma make_moves_plays (st : State) :
  chess.is_game_over (chessboard st) = false ->
  exists (m : chess.Move) (b' : chess.Board),
    In m (chess.legal_moves (chessboard st))
    /\ random.choice (chess.legal_moves (chessboard st)) (rng st)
       = (drawn_once (rng st), Return m)
    /\ chess.push m (chessboard st) = (b', Return tt)
    /\ make_moves st =
       if socketio.connected (sio st) then
         ({| sio :=
               {| socketio.handlers := socketio.handlers (sio st);
                  socketio.connected := socketio.connected (sio st);
                  socketio.sent :=
                    socketio.sent (sio st)
                    ++ [("move",
                         PyDict [("from", PyStr (slice (chess.uci m) 0 2));
                                 ("to", PyStr (slice (chess.uci m) 2 4));
                                 ("promotion", PyStr "q")])] |};
             chessboard := b';
             player_role := player_role st;
             stdout := stdout st ++ [[Str "Bot played:"; Str (chess.uci m)]];
             rng := drawn_once (rng st) |}, Return tt)
       else (after_unsent_move b' st, Raise BadNamespaceError).
Proof.
  intros H.
  destruct (choice_nonempty (chess.legal_moves (chessboard st)) (rng st)
              (not_over_has_legal_move _ H)) as [m [Hin Hch]].
  destruct (push_legal_returns _ _ Hin) as [Hret _].
  destruct (chess.push m (chessboard st)) as [b' o] eqn:Hpush. simpl in Hret. subst o.
  exists m, b'. split; [exact Hin | split; [exact Hch | split; [exact Hpush |]]].
  unfold make_moves, bind, get_chessboard. rewrite H.
  unfold on_rng. rewrite Hch.
  unfold on_chessboard. cbn [chessboard sio player_role stdout rng]. rewrite Hpush.
  unfold on_sio, socketio.emit. cbn [chessboard sio player_role stdout rng].
  destruct (socketio.connected (sio st)); [| reflexivity].
  rewrite print_writable by (cbn [forallb]; rewrite uci_writable; reflexivity).
  reflexivity.
Qed.

(** C7 - the draw is never made from an empty list.  A board on which the
    game is not over has a legal move; [make_moves] tests [is_game_over]
    first and, when it holds, returns without drawing (the generator is
    untouched); otherwise the draw is made from the legal moves, which are
    not empty, and returns one of them; so [make_moves] never raises
    [IndexError]. *)
Theorem choice_never_on_empty_list :
  (forall b : chess.Board,
      chess.is_game_over b = false -> chess.legal_moves b <> [])
  /\ (forall st : State,
        chess.is_game_over (chessboard st) = true ->
        rng (fst (make_moves st)) = rng st)
  /\ (forall st : State,
        chess.is_game_over (chessboard st) = false ->
        exists m : chess.Move,
          In m (chess.legal_moves (chessboard st))
          /\ random.choice (chess.legal_moves (chessboard st)) (rng st)
             = (drawn_once (rng st), Return m))
  /\ (forall st : State, snd (make_moves st) <> Raise IndexError).
Proof.
  split; [exact not_over_has_legal_move |].
  split; [| split].
  - intros st H. rewrite (make_moves_over st H). reflexivity.
  - intros st H. destruct (make_moves_plays st H) as (m & b' & Hin & Hch & _).
    exists m. split; assumption.
  - intros st. destruct (chess.is_game_over (chessboard st)) eqn:H.
    + rewrite (make_moves_over st H). discriminate.
    + destruct (make_moves_plays st H) as (m & b' & _ & _ & _ & ->).
      destruct (socketio.connected (sio st)); discriminate.
Qed.

Lemma choice_never_on_empty_list_witness :
  chess.is_game_over chess.Board_new = false
  /\ chess.legal_moves chess.Board_new <> [].
Proof.
  assert (H : chess.is_game_over chess.Board_new = false) by (vm_compute; reflexivity).
  split; [exact H |].
  exact (proj1 choice_never_on_empty_list chess.Board_new H).
Defined.

(** C3 - the move-turn sequence, on a position as [set_fen] leaves it (no
    move on the stack; [make_moves] is called on such boards only).  When
    the game is over, [make_moves] prints "Game Over" and nothing else
    changes: no move is played, nothing is sent.  Otherwise it draws a move
    [m] of the legal-move list and plays it on the board first; then, the
    client being connected, it sends exactly one [move] event whose payload
    names the origin square of [m] under "from", its destination square
    under "to" and "q" under "promotion", whatever the move, and prints the
    line for the move.  (On a client that is not connected [emit] raises,
    with the move already played and nothing sent.) *)
Theorem make_moves_sequence :
  forall st : State,
    chess.stack (chessboard st) = [] ->
    (chess.is_game_over (chessboard st) = true ->
     make_moves st = (printed_line [Str "Game Over"] st, Return tt)
     /\ chessboard (fst (make_moves st)) = chessboard st
     /\ socketio.sent (sio (fst (make_moves st))) = socketio.sent (sio st))
    /\ (chess.is_game_over (chessboard st) = false ->
        exists (m : chess.Move) (b' : chess.Board),
          In m (chess.legal_moves (chessboard st))
          /\ chess.push m (chessboard st) = (b', Return tt)
          /\ (socketio.connected (sio st) = true ->
              make_moves st = (after_own_move m b' st, Return tt)
              /\ socketio.sent (sio (fst (make_moves st)))
                 = (socketio.sent (sio st)
                    ++ [("move",
                         PyDict [("from", PyStr (chess.square_name (chess.from_square m)));
                                 ("to", PyStr (chess.square_name (chess.to_square m)));
                                 ("promotion", PyStr "q")])])%list)
          /\ (socketio.connected (sio st) = false ->
              make_moves st = (after_unsent_move b' st, Raise BadNamespaceError))).
Proof.
  intros st Hstack. split.
  - intros H. rewrite (make_moves_over st H).
    split; [reflexivity | split; reflexivity].
  - intros H. destruct (make_moves_plays st H) as (m & b' & Hin & _ & Hpush & E).
    exists m, b'.
    destruct (legal_moves_playable _ _ Hin) as [(Hd & Hf & Ht & _) Hne].
    destruct (uci_slices m Hd Hf Ht (Hne Hstack)) as [S1 S2].
    rewrite S1, S2 in E.
    split; [exact Hin | split; [exact Hpush | split]].
    + intros Hconn. rewrite E. unfold after_own_move, move_payload. rewrite Hconn.
      split; reflexivity.
    + intros Hconn. rewrite E, Hconn. reflexivity.
Qed.

Lemma make_moves_sequence_witness :
  let g := {| random.entropy := fun _ => 15; random.drawn := 0 |} in
  let st := fst (on_sio (socketio.connect "http://localhost:3000" true) (initial_state g)) in
  chess.stack (chessboard st) = []
  /\ chess.is_game_over (chessboard st) = false
  /\ socketio.connected (sio st) = true
  /\ exists (m : chess.Move) (b' : chess.Board),
       In m (chess.legal_moves (chessboard st))
       /\ chess.push m (chessboard st) = (b', Return tt)
       /\ make_moves st = (after_own_move m b' st, Return tt).
Proof.
  cbv zeta.
  set (st := fst (on_sio (socketio.connect "http://localhost:3000" true)
                    (initial_state {| random.entropy := fun _ => 15; random.drawn := 0 |}))).
  assert (H : chess.is_game_over (chessboard st) = false) by (vm_compute; reflexivity).
  split; [reflexivity | split; [exact H | split; [reflexivity |]]].
  destruct (proj2 (make_moves_sequence st eq_refl) H) as (m & b' & A & B & C & _).
  exists m, b'. split; [exact A | split; [exact B | exact (proj1 (C eq_refl))]].
Defined.

(** X12 - the end-to-end scenario: a board-state event with a decodable
    text on the client's own turn, the game not over and the client
    connected.  [on_boardstate] decodes the text and then plays and sends
    one legal move of the decoded position. *)
Lemma on_boardstate_plays_on_own_turn (st : State) (fen : pyval) (b' : chess.Board) :
  chess.set_fen fen (chessboard st) = (b', Return tt) ->
  py_eq_str (turn_name b') (player_role st) = true ->
  chess.is_game_over b' = false ->
  socketio.connected (sio st) = true ->
  exists (m : chess.Move) (b'' : chess.Board),
    In m (chess.legal_moves b')
    /\ chess.push m b' = (b'', Return tt)
    /\ on_boardstate fen st = (after_own_move m b'' (board_updated fen b' st), Return tt).
Proof.
  intros Hfen Hturn Hover Hconn.
  rewrite (on_boardstate_decoded st fen b' Hfen), Hturn.
  destruct (set_fen_clears_stack fen _ _ Hfen) as [Hstack _].
  destruct (make_moves_plays (board_updated fen b' st) Hover)
    as (m & b'' & Hin & _ & Hpush & E).
  cbn [board_updated chessboard sio] in Hin, Hpush, E. rewrite Hconn in E.
  exists m, b''. split; [exact Hin | split; [exact Hpush |]].
  destruct (legal_moves_playable _ _ Hin) as [(Hd & Hf & Ht & _) Hne].
  destruct (uci_slices m Hd Hf Ht (Hne Hstack)) as [S1 S2].
  rewrite E, S1, S2. unfold after_own_move, move_payload.
  cbn [board_updated chessboard sio player_role stdout rng]. rewrite Hconn. reflexivity.
Qed.

Lemma on_boardstate_plays_on_own_turn_witness :
  let st := fst (on_player_role (PyStr "w")
                   (fst (on_sio (socketio.connect "http://localhost:3000" true)
                           (initial_state {| random.entropy := fun _ => 3;
                                             random.drawn := 0 |})))) in
  chess.set_fen (PyStr chess.STARTING_FEN) (chessboard st) = (chess.Board_new, Return tt)
  /\ exists (m : chess.Move) (b'' : chess.Board),
       In m (chess.legal_moves chess.Board_new)
       /\ on_boardstate (PyStr chess.STARTING_FEN) st
          = (after_own_move m b'' (board_updated (PyStr chess.STARTING_FEN) chess.Board_new st),
             Return tt).
Proof.
  cbv zeta.
  set (st := fst (on_player_role (PyStr "w")
                   (fst (on_sio (socketio.connect "http://localhost:3000" true)
                           (initial_state {| random.entropy := fun _ => 3;
                                             random.drawn := 0 |}))))).
  assert (H1 : chess.set_fen (PyStr chess.STARTING_FEN) (chessboard st)
               = (chess.Board_new, Return tt)) by (vm_compute; reflexivity).
  assert (H2 : py_eq_str (turn_name chess.Board_new) (player_role st) = true)
    by (vm_compute; reflexivity).
  assert (H3 : chess.is_game_over chess.Board_new = false) by (vm_compute; reflexivity).
  split; [exact H1 |].
  destruct (on_boardstate_plays_on_own_turn st _ _ H1 H2 H3 eq_refl) as (m & b'' & A & _ & C).
  exists m, b''. split; [exact A | exact C].
Defined.

(** ** Handlers that send nothing *)

(** What a plain handler leaves alone when the stored role names no side:
    the client, the generator and the role. *)
Lemma on_boardstate_without_side (fen : pyval) (st : State) :
  plays_a_side (player_role st) = false ->
  sio (fst (on_boardstate fen st)) = sio st
  /\ rng (fst (on_boardstate fen st)) = rng st.
Proof.
  intros Hside.
  destruct (chess.set_fen fen (chessboard st)) as [b' [[] | e]] eqn:Hfen.
  - rewrite (on_boardstate_decoded st fen b' Hfen).
    assert (Hno : py_eq_str (turn_name b') (player_role st) = false).
    { unfold plays_a_side in Hside. apply orb_false_iff in Hside. destruct Hside as [Hw Hb].
      unfold turn_name. destruct (chess.turn b'); assumption. }
    rewrite Hno. split; reflexivity.
  - assert (Hsnd : snd (chess.set_fen fen (chessboard st)) = Raise e) by (rewrite Hfen; reflexivity).
    pose proof (set_fen_raise_unchanged fen (chessboard st) e Hsnd) as Hb.
    unfold on_boardstate, bind, on_chessboard. rewrite Hfen. split; reflexivity.
Qed.

Lemma on_move_frame (move : pyval) (st : State) :
  sio (fst (on_move move st)) = sio st
  /\ rng (fst (on_move move st)) = rng st
  /\ player_role (fst (on_move move st)) = player_role st
  /\ exists line, stdout (fst (on_move move st)) = (stdout st ++ [line])%list.
Proof.
  rewrite on_move_cases.
  destruct (payload_move move) as [m | e].
  - destruct (chess.push m (chessboard st)) as [b [[] | e]];
      (split; [reflexivity | split; [reflexivity | split; [reflexivity |]]]);
      eexists; reflexivity.
  - split; [reflexivity | split; [reflexivity | split; [reflexivity |]]].
    eexists; reflexivity.
Qed.

Lemma plain_handler_without_side (f : callable) (args : list pyval) (st : State) :
  is_plain_handler f = true ->
  plays_a_side (player_role st) = false ->
  sio (invoke f args st) = sio st
  /\ rng (invoke f args st) = rng st
  /\ player_role (invoke f args st) = player_role st.
Proof.
  intros Hf Hside.
  assert (Hrole : player_role (invoke f args st) = player_role st).
  { unfold invoke. apply keeps_role_call. intros ->. discriminate. }
  split; [| split; [| exact Hrole]]; unfold invoke;
    destruct f; try discriminate; simpl;
    repeat (match goal with |- context [match ?l with _ => _ end] => destruct l end);
    try reflexivity;
    try (apply (on_boardstate_without_side _ _ Hside));
    try (apply on_move_frame).
Qed.

(** X1 - a client without a side never moves.  As long as the stored role
    is neither "w" nor "b" (it is [None] until a role event, and the
    spectator event does not set it), no run of the connection, spectator,
    board-state and opponent-move handlers sends anything or draws from the
    generator, and the role stays what it was. *)
Theorem sideless_client_never_sends :
  forall (calls : list (callable * list pyval)) (st : State),
    plays_a_side (player_role st) = false ->
    Forall (fun c => is_plain_handler (fst c) = true) calls ->
    socketio.sent (sio (invoke_all calls st)) = socketio.sent (sio st)
    /\ rng (invoke_all calls st) = rng st
    /\ player_role (invoke_all calls st) = player_role st.
Proof.
  intros calls st Hside Hcalls. revert st Hside.
  induction Hcalls as [| c calls Hc _ IH]; intros st Hside.
  - split; [reflexivity | split; reflexivity].
  - destruct (plain_handler_without_side (fst c) (snd c) st Hc Hside) as (Hsio & Hrng & Hrole).
    change (invoke_all (c :: calls) st) with (invoke_all calls (invoke (fst c) (snd c) st)).
    assert (Hside' : plays_a_side (player_role (invoke (fst c) (snd c) st)) = false)
      by (rewrite Hrole; exact Hside).
    destruct (IH _ Hside') as (A & B & C).
    rewrite A, B, C, Hsio, Hrng, Hrole. split; [reflexivity | split; reflexivity].
Qed.

Lemma sideless_client_never_sends_witness :
  let g := {| random.entropy := fun _ => 0; random.drawn := 0 |} in
  let st := fst (on_sio (socketio.connect "http://localhost:3000" true) (initial_state g)) in
  let calls :=
    [(f_on_spectator, []);
     (f_on_boardstate, [PyStr chess.STARTING_FEN]);
     (f_on_move, [PyDict [("from", PyStr "e2"); ("to", PyStr "e4")]]);
     (f_on_boardstate,
      [PyStr "rnbqkbnr/pppppppp/8/8/4P3/8/PPPP1PPP/RNBQKBNR b KQkq - 0 1"])] in
  plays_a_side (player_role st) = false
  /\ Forall (fun c => is_plain_handler (fst c) = true) calls
  /\ socketio.sent (sio (invoke_all calls st)) = [].
Proof.
  cbv zeta.
  set (st := fst (on_sio (socketio.connect "http://localhost:3000" true)
                   (initial_state {| random.entropy := fun _ => 0; random.drawn := 0 |}))).
  assert (Hc : Forall (fun c : callable * list pyval => is_plain_handler (fst c) = true)
    [(f_on_spectator, []);
     (f_on_boardstate, [PyStr chess.STARTING_FEN]);
     (f_on_move, [PyDict [("from", PyStr "e2"); ("to", PyStr "e4")]]);
     (f_on_boardstate,
      [PyStr "rnbqkbnr/pppppppp/8/8/4P3/8/PPPP1PPP/RNBQKBNR b KQkq - 0 1"])]).
  { repeat constructor. }
  split; [reflexivity | split; [exact Hc |]].
  rewrite (proj1 (sideless_client_never_sends _ st eq_refl Hc)). reflexivity.
Defined.




(** ** What is sent *)

Lemma sends_nothing (n : nat) (st st' : State) :
  sio st' = sio st -> sends_at_most n st st'.
Proof.
  intros E. unfold sends_at_most. rewrite E.
  split; [reflexivity | split; [reflexivity |]].
  exists []. rewrite app_nil_r. split; [reflexivity | split; [simpl; lia | constructor]].
Qed.

Lemma make_moves_sends_at_most_one (st : State) :
  sends_at_most 1 st (fst (make_moves st)).
Proof.
  destruct (chess.is_game_over (chessboard st)) eqn:Hover.
  - rewrite (make_moves_over st Hover). apply sends_nothing. reflexivity.
  - destruct (make_moves_plays st Hover) as (m & b' & _ & _ & _ & E). rewrite E.
    destruct (socketio.connected (sio st)) eqn:Hconn.
    + unfold sends_at_most. cbn [fst sio socketio.handlers socketio.connected socketio.sent].
      split; [reflexivity | split; [symmetry; exact Hconn |]].
      eexists. split; [reflexivity | split; [simpl; lia |]].
      constructor; [| constructor]. split; reflexivity.
    + apply sends_nothing. reflexivity.
Qed.

Lemma on_boardstate_sends_at_most_one (fen : pyval) (st : State) :
  sends_at_most 1 st (fst (on_boardstate fen st)).
Proof.
  destruct (chess.set_fen fen (chessboard st)) as [b' [[] | e]] eqn:Hfen.
  - rewrite (on_boardstate_decoded st fen b' Hfen).
    destruct (py_eq_str (turn_name b') (player_role st)).
    + exact (make_moves_sends_at_most_one (board_updated fen b' st)).
    + apply sends_nothing. reflexivity.
  - apply sends_nothing. unfold on_boardstate, bind, on_chessboard. rewrite Hfen. reflexivity.
Qed.

Lemma call_sends_at_most (f : callable) (args : list pyval) (st : State) :
  sends_at_most (if may_emit f then 1 else 0) st (invoke f args st).
Proof.
  unfold invoke.
  destruct f; simpl;
    repeat (match goal with |- context [match ?l with _ => _ end] => destruct l end);
    try (apply sends_nothing; reflexivity).
  - apply on_boardstate_sends_at_most_one.
  - apply sends_nothing. apply on_move_frame.
  - apply make_moves_sends_at_most_one.
Qed.

(** X3 - what the client sends.  In every run of calls of the module's
    functions, from every state, the events sent are those sent before
    followed by new ones; there are at most as many new events as calls of
    [on_boardstate] and [make_moves] in the run, and each of them is a
    [move] event whose [promotion] entry is "q". *)
Theorem sent_events_bounded_by_emitting_calls :
  forall (calls : list (callable * list pyval)) (st : State),
    exists new,
      socketio.sent (sio (invoke_all calls st)) = (socketio.sent (sio st) ++ new)%list
      /\ length new <= emitting_calls calls
      /\ Forall is_move_event new.
Proof.
  intros calls. induction calls as [| c calls IH]; intros st.
  - exists []. rewrite app_nil_r. split; [reflexivity | split; [simpl; lia | constructor]].
  - change (invoke_all (c :: calls) st) with (invoke_all calls (invoke (fst c) (snd c) st)).
    destruct (call_sends_at_most (fst c) (snd c) st) as (_ & _ & new1 & E1 & L1 & F1).
    destruct (IH (invoke (fst c) (snd c) st)) as (new2 & E2 & L2 & F2).
    exists (new1 ++ new2)%list. rewrite E2, E1, <- app_assoc.
    split; [reflexivity | split].
    + rewrite length_app. unfold emitting_calls in *. cbn [List.filter].
      destruct (may_emit (fst c)); simpl in *; lia.
    + apply Forall_app. split; assumption.
Qed.

(** ** Opponent moves *)

(** X5 - the null move.  A payload whose two entries add up to the text
    "0000" parses to the null move; [on_move] plays it: the pieces stay
    where they are, the turn passes, and the line for a move played is
    printed. *)
Theorem on_move_null_move_passes_the_turn :
  forall (move : pyval) (st : State),
    payload_move move = Return chess.Move_null ->
    let st' := fst (on_move move st) in
    chess.pieces (chessboard st') = chess.pieces (chessboard st)
    /\ chess.turn (chessboard st') = negb (chess.turn (chessboard st))
    /\ stdout st' = (stdout st ++ [[Str "Opponent moved:"; PVal move]])%list.
Proof.
  intros move st Hpay. cbv zeta. rewrite on_move_cases, Hpay.
  split; [| split]; reflexivity.
Qed.

Lemma on_move_null_move_passes_the_turn_witness :
  let move := PyDict [("from", PyStr "00"); ("to", PyStr "00")] in
  let st := initial_state {| random.entropy := fun _ => 0; random.drawn := 0 |} in
  payload_move move = Return chess.Move_null
  /\ chess.pieces (chessboard (fst (on_move move st))) = chess.pieces (chessboard st)
  /\ chess.turn (chessboard (fst (on_move move st))) = false.
Proof.
  cbv zeta.
  assert (Hpay : payload_move (PyDict [("from", PyStr "00"); ("to", PyStr "00")])
                 = Return chess.Move_null) by (vm_compute; reflexivity).
  split; [exact Hpay |].
  destruct (on_move_null_move_passes_the_turn _
    (initial_state {| random.entropy := fun _ => 0; random.drawn := 0 |}) Hpay) as (A & B & _).
  split; [exact A | exact B].
Defined.


Section Placed.
Import chess.

Lemma Move_eqb_eq (a b : Move) : Move_eqb a b = true -> a = b.
Proof.
  destruct a as [f t p d], b as [f' t' p' d']. unfold Move_eqb.
  cbn [from_square to_square promotion drop]. intros H.
  apply andb_true_iff in H. destruct H as [H Hd].
  apply andb_true_iff in H. destruct H as [H Hp].
  apply andb_true_iff in H. destruct H as [Hf Ht].
  apply Nat.eqb_eq in Hf, Ht. subst.
  assert (O : forall x y, option_PieceType_eqb x y = true -> x = y).
  { intros [x |] [y |]; simpl; try discriminate; try reflexivity.
    destruct x, y; simpl; try discriminate; reflexivity. }
  apply O in Hp, Hd. subst. reflexivity.
Qed.

(** The text of two different square names parses to the move between
    them, with no promotion. *)
Lemma from_uci_square_names (f t : Square) :
  f < 64 -> t < 64 -> f <> t ->
  from_uci_str (square_name f +:+ square_name t) = Return (mv f t).
Proof.
  intros Hf Ht Hne.
  assert (All : forallb (fun f => forallb (fun t =>
            Nat.eqb f t ||
            match from_uci_str (square_name f +:+ square_name t) with
            | Return m => Move_eqb m (mv f t)
            | Raise _ => false
            end) SQUARES) SQUARES = true) by (vm_compute; reflexivity).
  rewrite forallb_forall in All.
  specialize (All f (proj2 (In_SQUARES f) Hf)).
  rewrite forallb_forall in All.
  specialize (All t (proj2 (In_SQUARES t) Ht)).
  apply orb_true_iff in All. destruct All as [E | E].
  - apply Nat.eqb_eq in E. contradiction.
  - destruct (from_uci_str (square_name f +:+ square_name t)) as [m | e]; [| discriminate].
    apply Move_eqb_eq in E. rewrite E. reflexivity.
Qed.

Lemma not_king_not_in_kings (b : BoardState) (sq : Square) (pc : Piece) :
  piece_at b sq = Some pc -> piece_type pc <> KING -> kings b sq = false.
Proof.
  intros Hp Hk. unfold kings, of_type. rewrite Hp.
  destruct (piece_type pc); try congruence; apply andb_false_r.
Qed.

Lemma to_chess960_not_king (b : BoardState) (m : Move) (pc : Piece) :
  piece_at b (from_square m) = Some pc -> piece_type pc <> KING -> to_chess960 b m = m.
Proof.
  intros Hp Hk. unfold to_chess960.
  destruct (Nat.eqb (from_square m) E1) eqn:A.
  - apply Nat.eqb_eq in A. rewrite <- A, (not_king_not_in_kings b _ pc Hp Hk). simpl.
    destruct (Nat.eqb (from_square m) E8) eqn:B; [| reflexivity].
    apply Nat.eqb_eq in B. rewrite A in B. discriminate.
  - simpl. destruct (Nat.eqb (from_square m) E8) eqn:B; [| reflexivity].
    apply Nat.eqb_eq in B. rewrite <- B, (not_king_not_in_kings b _ pc Hp Hk). reflexivity.
Qed.

Lemma Move_bool_distinct (m : Move) :
  from_square m <> to_square m -> Move_bool m = true.
Proof.
  intros Hne. unfold Move_bool.
  destruct (from_square m) as [| f]; [| reflexivity].
  destruct (to_square m) as [| t]; [congruence | reflexivity].
Qed.

(** Where [push] puts the piece: a piece other than a king that leaves
    [from_square] for another square arrives on [to_square] as the
    promotion piece of the move, or as itself when the move has none, in
    the colour of the side to move. *)
Lemma push_places_piece (b : Board) (m : Move) (pc : Piece) :
  drop m = None ->
  from_square m < 64 ->
  to_square m < 64 ->
  captures_off_board b m = false ->
  from_square m <> to_square m ->
  piece_at b (from_square m) = Some pc ->
  piece_type pc <> KING ->
  promotion m <> Some KING ->
  piece_at (fst (push m b)) (to_square m)
  = Some {| piece_type := match promotion m with Some p => p | None => piece_type pc end;
            color := turn b |}.
Proof.
  intros Hd Hf Ht Hc Hne Hpiece Hk Hprom. unfold push.
  rewrite (to_chess960_not_king b m pc Hpiece Hk).
  cbv zeta. rewrite (Move_bool_distinct m Hne). cbn [negb]. rewrite Hd.
  set (s1 := {| pieces := pieces b; promoted := promoted b; turn := turn b;
                castling_rights := gset_of (clean_castling_rights b); ep_square := None;
                halfmove_clock := S (halfmove_clock b);
                fullmove_number := if turn b then fullmove_number b
                                   else S (fullmove_number b) |}).
  set (s2 := if is_zeroing s1 m then with_halfmove_clock s1 0 else s1).
  assert (P2 : pieces s2 = pieces b) by (unfold s2; destruct (is_zeroing s1 m); reflexivity).
  assert (T2 : turn s2 = turn b) by (unfold s2; destruct (is_zeroing s1 m); reflexivity).
  assert (L : piece_type_at s2 (from_square m) = Some (piece_type pc)).
  { unfold piece_type_at, piece_at. rewrite P2. unfold piece_at in Hpiece. rewrite Hpiece.
    reflexivity. }
  rewrite L.
  set (s3 := remove_piece_at (from_square m) s2).
  set (captured := piece_type_at s3 (to_square m)).
  set (cr2 := push_castling_rights s3 _ _ _ _ _ _).
  set (s4 := with_rights s3 (gset_of cr2) None).
  assert (T4 : turn s4 = turn b) by exact T2.
  destruct (push_pawn_moves_returns s4 (ep_square b) (piece_type pc) captured
              (from_square m) (to_square m) Ht) as [s5 [E5 T5]].
  { rewrite T4. intros Hturn Hpawn Hepsq Hcap Hdiff.
    assert (He : piece_at b (to_square m) = None).
    { unfold captured, piece_type_at, piece_at, s3 in Hcap.
      cbn [pieces remove_piece_at with_pieces] in Hcap. rewrite P2 in Hcap.
      rewrite lookup_delete_ne in Hcap by exact Hne.
      unfold piece_at. destruct (pieces b !! to_square m); [discriminate | reflexivity]. }
    unfold captures_off_board in Hc. cbv zeta in Hc.
    rewrite Hturn, (pawns_piece b _ pc Hf Hpiece Hpawn), He, Hdiff in Hc.
    rewrite (bool_decide_eq_true_2 _ Hepsq) in Hc. cbn [negb isSome andb] in Hc.
    apply Nat.leb_gt in Hc. lia. }
  rewrite E5. cbn [fst state].
  assert (NK : PieceType_eqb (match promotion m with Some p => p | None => piece_type pc end)
                 KING = false).
  { destruct (promotion m) as [p |].
    - destruct p; try reflexivity. congruence.
    - destruct (piece_type pc); try reflexivity. congruence. }
  unfold push_place. rewrite NK. cbn [andb].
  unfold piece_at. cbn [pieces swap_turn set_piece_at with_pieces].
  rewrite lookup_insert_eq, T5, T4. reflexivity.
Qed.

Lemma push_moves_piece (b : Board) (m : Move) (pc : Piece) :
  pushable b m ->
  from_square m <> to_square m ->
  piece_at b (from_square m) = Some pc ->
  piece_type pc <> KING ->
  promotion m <> Some KING ->
  piece_at (fst (push m b)) (to_square m)
  = Some {| piece_type := match promotion m with Some p => p | None => piece_type pc end;
            color := turn b |}.
Proof.
  intros Hp. pose proof (pushable_captures_on_board _ _ Hp) as Hc.
  destruct Hp as (Hd & Hf & Ht & _ & _).
  apply push_places_piece; assumption.
Qed.

(** On that capture [push] raises [IndexError]: the pawn is taken from its
    square and put nowhere, the side to move stays, the move is on the
    stack. *)
Lemma push_capture_off_board (b : Board) (m : Move) :
  drop m = None ->
  captures_off_board b m = true ->
  snd (push m b) = Raise IndexError
  /\ turn (fst (push m b)) = turn b
  /\ piece_at (fst (push m b)) (from_square m) = None
  /\ piece_at (fst (push m b)) (to_square m) = None
  /\ length (move_stack (fst (push m b))) = S (length (move_stack b)).
Proof.
  intros Hd Hc. unfold captures_off_board in Hc. cbv zeta in Hc.
  apply andb_true_iff in Hc. destruct Hc as [Hc H56].
  apply andb_true_iff in Hc. destruct Hc as [Hc Hdiff].
  apply andb_true_iff in Hc. destruct Hc as [Hc Hempty].
  apply andb_true_iff in Hc. destruct Hc as [Hc Hep].
  apply andb_true_iff in Hc. destruct Hc as [Hturn Hpawn].
  apply negb_true_iff in Hturn. apply bool_decide_eq_true_1 in Hep.
  apply Nat.leb_le in H56.
  destruct (of_type_true _ _ _ Hpawn) as [Hf [p [Hpiece Hty]]].
  assert (Hne : from_square m <> to_square m).
  { intros Heq. rewrite Heq in Hdiff.
    replace (Z.of_nat (to_square m) - Z.of_nat (to_square m))%Z with 0%Z in Hdiff by lia.
    discriminate. }
  assert (Ht : piece_at b (to_square m) = None)
    by (destruct (piece_at b (to_square m)); [discriminate | reflexivity]).
  unfold push.
  rewrite (to_chess960_not_in_kings b m)
    by (destruct (kings b (from_square m)) eqn:K; [| reflexivity];
        rewrite (kings_not_pawns _ _ K) in Hpawn; discriminate).
  cbv zeta. rewrite (Move_bool_distinct m Hne). cbn [negb]. rewrite Hd.
  set (s1 := {| pieces := pieces b; promoted := promoted b; turn := turn b;
                castling_rights := gset_of (clean_castling_rights b); ep_square := None;
                halfmove_clock := S (halfmove_clock b);
                fullmove_number := if turn b then fullmove_number b
                                   else S (fullmove_number b) |}).
  set (s2 := if is_zeroing s1 m then with_halfmove_clock s1 0 else s1).
  assert (P2 : pieces s2 = pieces b) by (unfold s2; destruct (is_zeroing s1 m); reflexivity).
  assert (T2 : turn s2 = turn b) by (unfold s2; destruct (is_zeroing s1 m); reflexivity).
  assert (L : piece_type_at s2 (from_square m) = Some PAWN).
  { unfold piece_type_at, piece_at. rewrite P2. unfold piece_at in Hpiece.
    rewrite Hpiece, <- Hty. reflexivity. }
  rewrite L.
  set (s3 := remove_piece_at (from_square m) s2).
  assert (C : piece_type_at s3 (to_square m) = None).
  { unfold piece_type_at, piece_at, s3. cbn [pieces remove_piece_at with_pieces].
    rewrite P2, lookup_delete_ne by exact Hne. unfold piece_at in Ht. rewrite Ht.
    reflexivity. }
  rewrite C.
  set (cr2 := push_castling_rights s3 _ _ _ _ _ _).
  set (s4 := with_rights s3 (gset_of cr2) None).
  assert (E : push_pawn_moves s4 (ep_square b) PAWN None (from_square m) (to_square m)
              = Raise IndexError).
  { unfold push_pawn_moves. cbn [PieceType_eqb]. rewrite Hep.
    assert (D16 : (Z.of_nat (to_square m) - Z.of_nat (from_square m) =? 16)%Z = false).
    { apply Z.eqb_neq. intros K. rewrite K in Hdiff. discriminate. }
    assert (D16' : (Z.of_nat (to_square m) - Z.of_nat (from_square m) =? -16)%Z = false).
    { apply Z.eqb_neq. intros K. rewrite K in Hdiff. discriminate. }
    rewrite D16, D16'. cbn [andb]. rewrite Nat.eqb_refl, Hdiff. cbn [andb isSome negb].
    change (turn s4) with (turn s2). rewrite T2, Hturn.
    unfold BB_SQUARES_index.
    destruct ((0 <=? Z.of_nat (to_square m) + 8)%Z && (Z.of_nat (to_square m) + 8 <? 64)%Z)
      eqn:A.
    - apply andb_true_iff in A. destruct A as [_ A]. apply Z.ltb_lt in A. lia.
    - destruct ((-64 <=? Z.of_nat (to_square m) + 8)%Z && (Z.of_nat (to_square m) + 8 <? 0)%Z)
        eqn:B; [| reflexivity].
      apply andb_true_iff in B. destruct B as [_ B]. apply Z.ltb_lt in B. lia. }
  rewrite E. cbn [fst snd state move_stack].
  split; [reflexivity |]. split; [exact T2 |].
  unfold piece_at, s4, s3. cbn [pieces with_rights remove_piece_at with_pieces].
  rewrite P2. split; [apply lookup_delete_eq |].
  split; [rewrite lookup_delete_ne by exact Hne; exact Ht |].
  rewrite length_app. simpl. lia.
Qed.

End Placed.

Section Squares.
Import chess.

Lemma index_of_lt {A} (eqb : A -> A -> bool) (x : A) (l : list A) (i : nat) :
  index_of eqb x l = Some i -> i < length l.
Proof.
  revert i. induction l as [| y l IH]; intros i H; [discriminate |].
  cbn [index_of] in H. destruct (eqb y x).
  - injection H as <-. simpl. lia.
  - destruct (index_of eqb x l) as [j |]; [| discriminate].
    injection H as <-. specialize (IH j eq_refl). simpl. lia.
Qed.

Lemma square_index_lt (name : string) (sq : Square) :
  index_of String.eqb name SQUARE_NAMES = Some sq -> sq < 64.
Proof. intros H. apply index_of_lt in H. exact H. Qed.

(** The squares of a move that [from_uci] reads are on the board. *)
Lemma from_uci_str_squares (u : string) (m : Move) :
  from_uci_str u = Return m -> from_square m < 64 /\ to_square m < 64.
Proof.
  unfold from_uci_str. cbv zeta.
  destruct (String.eqb u "0000").
  { intros H. injection H as <-. cbn. lia. }
  destruct (Nat.eqb (String.length u) 4 && String.eqb (slice u 1 2) "@").
  { destruct (piece_type_of_symbol (lower (slice u 0 1))); [| discriminate].
    destruct (index_of String.eqb (slice_from u 2) SQUARE_NAMES) as [sq |] eqn:E;
      [| discriminate].
    intros H. injection H as <-. cbn. apply square_index_lt in E. lia. }
  destruct ((4 <=? String.length u) && (String.length u <=? 5)); [| discriminate].
  destruct (index_of String.eqb (slice u 0 2) SQUARE_NAMES) as [f |] eqn:Ef; [| discriminate].
  destruct (index_of String.eqb (slice u 2 4) SQUARE_NAMES) as [t |] eqn:Et; [| discriminate].
  apply square_index_lt in Ef, Et.
  destruct (Nat.eqb (String.length u) 5).
  - destruct (piece_type_of_symbol (slice u 4 5)); [| discriminate].
    destruct (Nat.eqb f t); [discriminate |].
    intros H. injection H as <-. cbn. lia.
  - destruct (Nat.eqb f t); [discriminate |].
    intros H. injection H as <-. cbn. lia.
Qed.

Lemma payload_move_squares (move : pyval) (m : Move) :
  payload_move move = Return m -> from_square m < 64 /\ to_square m < 64.
Proof.
  unfold payload_move.
  destruct (py_getitem move "from") as [o |]; [| discriminate].
  destruct (py_getitem move "to") as [t |]; [| discriminate].
  destruct (py_add o t) as [text |]; [| discriminate].
  unfold from_uci.
  destruct text as [| | | u | l |]; try discriminate.
  - apply from_uci_str_squares.
  - repeat match goal with
           | |- context [match ?x with _ => _ end] => destruct x
           end; discriminate.
Qed.

End Squares.

(** X4 - [on_move] plays what it is given.  For every payload that parses
    to a move other than a drop and every board on which a piece stands on
    the origin of the move, of either side and whatever the way it moves,
    [push] is called without the legal moves of the position being
    consulted.  But for one case the move is played, the line for a move
    played is printed and the turn passes to the other side.  The case is
    that of [captures_off_board], Black moving a pawn diagonally onto an
    empty en passant square of the eighth rank: there [push] raises
    [IndexError], the line for a failure is printed and the side to move
    stays. *)
Theorem on_move_plays_any_move_from_an_occupied_square :
  forall (move : pyval) (m : chess.Move) (st : State),
    payload_move move = Return m ->
    chess.drop m = None ->
    isSome (chess.piece_at (chessboard st) (chess.from_square m)) = true ->
    if captures_off_board (chessboard st) m
    then on_move move st =
           (printed_line [Str "Invalid move received:"; PVal move; PExn IndexError]
              (with_chessboard (fst (chess.push m (chessboard st))) st), Return tt)
         /\ chess.turn (chessboard (fst (on_move move st))) = chess.turn (chessboard st)
    else on_move move st =
           (printed_line [Str "Opponent moved:"; PVal move]
              (with_chessboard (fst (chess.push m (chessboard st))) st), Return tt)
         /\ chess.turn (chessboard (fst (on_move move st)))
            = negb (chess.turn (chessboard st)).
Proof.
  intros move m st Hpay Hd Hs.
  destruct (payload_move_squares move m Hpay) as [Hf Ht].
  destruct (captures_off_board (chessboard st) m) eqn:Hc.
  - destruct (push_capture_off_board (chessboard st) m Hd Hc) as (Hraise & Hturn & _).
    assert (E : on_move move st =
        (printed_line [Str "Invalid move received:"; PVal move; PExn IndexError]
           (with_chessboard (fst (chess.push m (chessboard st))) st), Return tt)).
    { rewrite on_move_cases, Hpay.
      destruct (chess.push m (chessboard st)) as [b o]. simpl in Hraise. subst o.
      reflexivity. }
    split; [exact E |]. rewrite E. exact Hturn.
  - destruct (push_plays (chessboard st) m Hd Hf Ht Hs Hc) as [Hret Hturn].
    assert (E : on_move move st =
        (printed_line [Str "Opponent moved:"; PVal move]
           (with_chessboard (fst (chess.push m (chessboard st))) st), Return tt)).
    { rewrite on_move_cases, Hpay.
      destruct (chess.push m (chessboard st)) as [b o]. simpl in Hret. subst o.
      reflexivity. }
    split; [exact E |]. rewrite E. exact Hturn.
Qed.

Lemma on_move_plays_any_move_from_an_occupied_square_witness :
  let g := {| random.entropy := fun _ => 0; random.drawn := 0 |} in
  let move := PyDict [("from", PyStr "a1"); ("to", PyStr "h8")] in
  let st := initial_state g in
  let capture := PyDict [("from", PyStr "g7"); ("to", PyStr "h8")] in
  let st' := with_chessboard (board_of_fen "4k3/6p1/8/8/8/8/8/4K3 b - h8 0 1") st in
  (payload_move move = Return (chess.mv 0 63)
   /\ existsb (chess.Move_eqb (chess.mv 0 63)) (chess.legal_moves (chessboard st)) = false
   /\ chess.turn (chessboard (fst (on_move move st))) = false)
  /\ (payload_move capture = Return (chess.mv 54 63)
      /\ stdout (fst (on_move capture st'))
         = [[Str "Invalid move received:"; PVal capture; PExn IndexError]]
      /\ chess.turn (chessboard (fst (on_move capture st'))) = false).
Proof.
  cbv zeta. split.
  - assert (Hpay : payload_move (PyDict [("from", PyStr "a1"); ("to", PyStr "h8")])
                   = Return (chess.mv 0 63)) by (vm_compute; reflexivity).
    split; [exact Hpay | split; [vm_compute; reflexivity |]].
    pose proof (on_move_plays_any_move_from_an_occupied_square _ _
                  (initial_state {| random.entropy := fun _ => 0; random.drawn := 0 |})
                  Hpay eq_refl) as H.
    assert (Hs : isSome (chess.piece_at (chessboard (initial_state
                   {| random.entropy := fun _ => 0; random.drawn := 0 |}))
                   (chess.from_square (chess.mv 0 63))) = true) by (vm_compute; reflexivity).
    specialize (H Hs).
    assert (Hc : captures_off_board (chessboard (initial_state
                   {| random.entropy := fun _ => 0; random.drawn := 0 |})) (chess.mv 0 63)
                 = false) by (vm_compute; reflexivity).
    rewrite Hc in H. exact (proj2 H).
  - set (st' := with_chessboard (board_of_fen "4k3/6p1/8/8/8/8/8/4K3 b - h8 0 1")
                  (initial_state {| random.entropy := fun _ => 0; random.drawn := 0 |})).
    assert (Hpay : payload_move (PyDict [("from", PyStr "g7"); ("to", PyStr "h8")])
                   = Return (chess.mv 54 63)) by (vm_compute; reflexivity).
    split; [exact Hpay |].
    pose proof (on_move_plays_any_move_from_an_occupied_square _ _ st' Hpay eq_refl) as H.
    assert (Hs : isSome (chess.piece_at (chessboard st')
                   (chess.from_square (chess.mv 54 63))) = true) by (vm_compute; reflexivity).
    specialize (H Hs).
    assert (Hc : captures_off_board (chessboard st') (chess.mv 54 63) = true)
      by (vm_compute; reflexivity).
    rewrite Hc in H. destruct H as [E T].
    split; [rewrite E; reflexivity |].
    rewrite T. vm_compute. reflexivity.
Defined.

Section Promotions.
Import chess.

Lemma from_chess960_no_promotion (b : BoardState) (f t : Square) :
  promotion (from_chess960 b f t None None) = None.
Proof.
  unfold from_chess960.
  repeat match goal with
         | |- context [if ?c then _ else _] => destruct c
         end; reflexivity.
Qed.

Lemma castling_no_promotion (b : Board) (fm tm : Bitboard) (m : Move) :
  In m (generate_castling_moves b fm tm) -> promotion m = None.
Proof.
  unfold generate_castling_moves. cbv zeta.
  destruct (lsb _) as [k |]; [| contradiction].
  intros H. apply in_flat_map in H. destruct H as [candidate [_ H]].
  destruct (_ || _) in H; [contradiction |].
  destruct H as [<- | []]. apply from_chess960_no_promotion.
Qed.

Lemma ep_no_promotion (b : BoardState) (fm tm : Bitboard) (m : Move) :
  In m (generate_pseudo_legal_ep b fm tm) -> promotion m = None.
Proof.
  unfold generate_pseudo_legal_ep.
  destruct (ep_square b) as [ep |]; [| contradiction].
  destruct (_ || _); [contradiction |].
  destruct (occupied b ep); [contradiction |].
  intros H. apply in_map_iff in H. destruct H as [c [<- _]]. reflexivity.
Qed.

Lemma mv_no_promotion {A} (g : A -> Move) (l : list A) (m : Move) :
  (forall x, promotion (g x) = None) -> In m (map g l) -> promotion m = None.
Proof. intros Hg H. apply in_map_iff in H. destruct H as [x [<- _]]. apply Hg. Qed.

(** The promotions of one pawn step are generated together. *)
Lemma pawn_moves_to_promotions (f t f' t' : Square) (p : PieceType) :
  In (mv_promote f' t' p) (pawn_moves_to f t) ->
  f' = f /\ t' = t /\ In p PROMOTION_PIECES
  /\ forall p', In p' PROMOTION_PIECES -> In (mv_promote f' t' p') (pawn_moves_to f t).
Proof.
  unfold pawn_moves_to, PROMOTION_PIECES.
  destruct (_ || _); simpl; intros H.
  - assert (E : f' = f /\ t' = t /\ (QUEEN = p \/ ROOK = p \/ BISHOP = p \/ KNIGHT = p \/ False)).
    { unfold mv_promote in H.
      destruct H as [H | [H | [H | [H | []]]]]; injection H as <- <- <-; tauto. }
    destruct E as (-> & -> & E). split; [reflexivity | split; [reflexivity | split; [exact E |]]].
    intros p' [<- | [<- | [<- | [<- | []]]]]; tauto.
  - destruct H as [H | []]. discriminate.
Qed.


Lemma promotes_together_app (l k : list Move) :
  promotes_together l -> promotes_together k -> promotes_together (l ++ k).
Proof.
  intros Hl Hk f t p H. apply in_app_iff in H. destruct H as [H | H].
  - destruct (Hl f t p H) as [A B]. split; [exact A |].
    intros p' Hp'. apply in_app_iff. left. apply B. exact Hp'.
  - destruct (Hk f t p H) as [A B]. split; [exact A |].
    intros p' Hp'. apply in_app_iff. right. apply B. exact Hp'.
Qed.

Lemma promotes_together_none (l : list Move) :
  (forall m, In m l -> promotion m = None) -> promotes_together l.
Proof. intros Hl f t p H. apply Hl in H. discriminate. Qed.

Lemma promotes_together_pawn_steps {X} (g : X -> Square) (h : X -> Square) (l : list X) :
  promotes_together (flat_map (fun x => pawn_moves_to (g x) (h x)) l).
Proof.
  intros f t p H. apply in_flat_map in H. destruct H as [x [Hx H]].
  destruct (pawn_moves_to_promotions _ _ _ _ _ H) as (-> & -> & Hp & B).
  split; [exact Hp |]. intros p' Hp'. apply in_flat_map. exists x. split; [exact Hx |].
  apply B. exact Hp'.
Qed.

Lemma promotes_together_flat_map {X} (g : X -> list Move) (l : list X) :
  (forall x, promotes_together (g x)) -> promotes_together (flat_map g l).
Proof.
  intros Hg f t p H. apply in_flat_map in H. destruct H as [x [Hx H]].
  destruct (Hg x f t p H) as [Hp B]. split; [exact Hp |].
  intros p' Hp'. apply in_flat_map. exists x. split; [exact Hx |]. apply B. exact Hp'.
Qed.

Lemma promotes_together_filter (keep : Move -> bool) (l : list Move) :
  (forall f t p p', keep (mv_promote f t p) = keep (mv_promote f t p')) ->
  promotes_together l -> promotes_together (List.filter keep l).
Proof.
  intros Hk Hl f t p H. apply filter_In in H. destruct H as [H K].
  destruct (Hl f t p H) as [A B]. split; [exact A |].
  intros p' Hp'. apply filter_In. split; [apply B; exact Hp' |].
  rewrite (Hk f t p' p). exact K.
Qed.

Lemma pseudo_legal_promotes_together (b : Board) (fm tm : Bitboard) :
  promotes_together (generate_pseudo_legal_moves b fm tm).
Proof.
  unfold generate_pseudo_legal_moves. cbv zeta.
  assert (Pieces : forall l : list Square, forall g : Square -> list Square,
            promotes_together (flat_map (fun f => map (fun t => mv f t) (g f)) l)).
  { intros l g. apply promotes_together_none. intros m H.
    apply in_flat_map in H. destruct H as [f [_ H]].
    apply in_map_iff in H. destruct H as [t [<- _]]. reflexivity. }
  assert (Castles : promotes_together
            (if bb_any (fm .& kings b) then generate_castling_moves b fm tm else [])).
  { apply promotes_together_none. intros m H.
    destruct (bb_any (fm .& kings b)); [| contradiction].
    exact (castling_no_promotion _ _ _ _ H). }
  destruct (negb (bb_any (pawns b .& occupied_co b (turn b) .& fm))).
  - apply promotes_together_app; [apply Pieces | exact Castles].
  - apply promotes_together_app; [apply Pieces |].
    apply promotes_together_app; [exact Castles |].
    apply promotes_together_app.
    { apply promotes_together_flat_map. intros f.
      apply (promotes_together_pawn_steps (fun _ => f) (fun t => t)). }
    apply promotes_together_app.
    { apply (promotes_together_pawn_steps (fun t => if turn b then t - 8 else t + 8)
               (fun t => t)). }
    apply promotes_together_app.
    { apply promotes_together_none. intros m H.
      apply in_map_iff in H. destruct H as [t [<- _]]. reflexivity. }
    apply promotes_together_none. intros m H.
    destruct (ep_square b) as [[| e] |]; try contradiction.
    exact (ep_no_promotion _ _ _ _ H).
Qed.

Lemma evasions_promote_together (b : Board) (k : Square) (checkers fm tm : Bitboard) :
  promotes_together (generate_evasions b k checkers fm tm).
Proof.
  unfold generate_evasions. cbv zeta.
  assert (Kings : forall l : list Square,
            promotes_together (if (BB_SQUARE k .& fm) k then map (fun t => mv k t) l else [])).
  { intros l. apply promotes_together_none. intros m H.
    destruct ((BB_SQUARE k .& fm) k); [| contradiction].
    apply in_map_iff in H. destruct H as [t [<- _]]. reflexivity. }
  destruct (scan_reversed checkers) as [| checker [| other rest]]; try apply Kings.
  apply promotes_together_app; [apply Kings |].
  apply promotes_together_app; [apply pseudo_legal_promotes_together |].
  apply promotes_together_none. intros m H.
  destruct (ep_square b) as [[| e] |]; try contradiction.
  destruct (_ && _) in H; [| contradiction].
  exact (ep_no_promotion _ _ _ _ H).
Qed.

Lemma is_safe_promotion (b : BoardState) (k : Square) (blockers : Bitboard)
    (f t : Square) (p p' : PieceType) :
  is_safe b k blockers (mv_promote f t p) = is_safe b k blockers (mv_promote f t p').
Proof. reflexivity. Qed.

(** The legal promotions of a pawn step come as a group: with one of them,
    all four are legal moves. *)
Lemma legal_moves_promote_together (b : Board) :
  promotes_together (legal_moves b).
Proof.
  unfold legal_moves, generate_legal_moves.
  destruct (msb (kings b .& occupied_co b (turn b))) as [k |].
  - cbv zeta. destruct (bb_any (attackers_mask b (negb (turn b)) k)).
    + apply promotes_together_filter; [apply is_safe_promotion |].
      apply evasions_promote_together.
    + apply promotes_together_filter; [apply is_safe_promotion |].
      apply pseudo_legal_promotes_together.
  - apply pseudo_legal_promotes_together.
Qed.

End Promotions.

Section PromotingPawns.
Import chess.


Lemma promotes_pawns_app (b : BoardState) (l k : list Move) :
  promotes_pawns b l -> promotes_pawns b k -> promotes_pawns b (l ++ k).
Proof.
  intros Hl Hk m H. apply in_app_iff in H. destruct H as [H | H]; [apply Hl | apply Hk]; exact H.
Qed.

Lemma promotes_pawns_none (b : BoardState) (l : list Move) :
  (forall m, In m l -> promotion m = None) -> promotes_pawns b l.
Proof. intros Hl m H Hp. apply Hl in H. contradiction. Qed.

Lemma promotes_pawns_filter (b : BoardState) (keep : Move -> bool) (l : list Move) :
  promotes_pawns b l -> promotes_pawns b (List.filter keep l).
Proof. intros Hl m H. apply filter_In in H. destruct H as [H _]. apply Hl. exact H. Qed.

Lemma pseudo_legal_promotes_pawns (b : Board) (fm tm : Bitboard) :
  promotes_pawns b (generate_pseudo_legal_moves b fm tm).
Proof.
  unfold generate_pseudo_legal_moves. cbv zeta.
  assert (Pieces : forall l : list Square, forall g : Square -> list Square,
            promotes_pawns b (flat_map (fun f => map (fun t => mv f t) (g f)) l)).
  { intros l g. apply promotes_pawns_none. intros m H.
    apply in_flat_map in H. destruct H as [f [_ H]].
    apply in_map_iff in H. destruct H as [t [<- _]]. reflexivity. }
  assert (Castles : promotes_pawns b
            (if bb_any (fm .& kings b) then generate_castling_moves b fm tm else [])).
  { apply promotes_pawns_none. intros m H.
    destruct (bb_any (fm .& kings b)); [| contradiction].
    exact (castling_no_promotion _ _ _ _ H). }
  destruct (negb (bb_any (pawns b .& occupied_co b (turn b) .& fm))).
  - apply promotes_pawns_app; [apply Pieces | exact Castles].
  - apply promotes_pawns_app; [apply Pieces |].
    apply promotes_pawns_app; [exact Castles |].
    apply promotes_pawns_app.
    { intros m H _. apply in_flat_map in H. destruct H as [f [Hf H]].
      apply in_flat_map in H. destruct H as [t [_ H]].
      apply pawn_moves_to_In in H. destruct H as (_ & -> & _).
      apply (proj1 (In_scan_reversed _ _)) in Hf. destruct Hf as [_ Hf].
      apply band_true in Hf. destruct Hf as [Hf _].
      apply band_true in Hf. destruct Hf as [Hf _]. exact Hf. }
    apply promotes_pawns_app.
    { intros m H _. apply in_flat_map in H. destruct H as [t [Ht H]].
      apply pawn_moves_to_In in H. destruct H as (_ & -> & _).
      apply (proj1 (In_scan_reversed _ _)) in Ht. destruct Ht as [_ Ht].
      apply band_true in Ht. destruct Ht as [Ht _].
      apply band_true in Ht. destruct Ht as [Ht _].
      destruct (turn b).
      - unfold shift_up in Ht. apply andb_true_iff in Ht. destruct Ht as [_ Ht].
        apply band_true in Ht. destruct Ht as [Ht _].
        apply band_true in Ht. destruct Ht as [Ht _]. exact Ht.
      - unfold shift_down in Ht. apply andb_true_iff in Ht. destruct Ht as [_ Ht].
        apply band_true in Ht. destruct Ht as [Ht _].
        apply band_true in Ht. destruct Ht as [Ht _]. exact Ht. }
    apply promotes_pawns_app.
    { apply promotes_pawns_none. intros m H.
      apply in_map_iff in H. destruct H as [t [<- _]]. reflexivity. }
    apply promotes_pawns_none. intros m H.
    destruct (ep_square b) as [[| e] |]; try contradiction.
    exact (ep_no_promotion _ _ _ _ H).
Qed.

Lemma evasions_promote_pawns (b : Board) (k : Square) (checkers fm tm : Bitboard) :
  promotes_pawns b (generate_evasions b k checkers fm tm).
Proof.
  unfold generate_evasions. cbv zeta.
  assert (Kings : forall l : list Square,
            promotes_pawns b (if (BB_SQUARE k .& fm) k then map (fun t => mv k t) l else [])).
  { intros l. apply promotes_pawns_none. intros m H.
    destruct ((BB_SQUARE k .& fm) k); [| contradiction].
    apply in_map_iff in H. destruct H as [t [<- _]]. reflexivity. }
  destruct (scan_reversed checkers) as [| checker [| other rest]]; try apply Kings.
  apply promotes_pawns_app; [apply Kings |].
  apply promotes_pawns_app; [apply pseudo_legal_promotes_pawns |].
  apply promotes_pawns_none. intros m H.
  destruct (ep_square b) as [[| e] |]; try contradiction.
  destruct (_ && _) in H; [| contradiction].
  exact (ep_no_promotion _ _ _ _ H).
Qed.

(** A legal move with a promotion is a pawn's. *)
Lemma legal_moves_promote_pawns (b : Board) :
  promotes_pawns b (legal_moves b).
Proof.
  unfold legal_moves, generate_legal_moves.
  destruct (msb (kings b .& occupied_co b (turn b))) as [k |].
  - cbv zeta. destruct (bb_any (attackers_mask b (negb (turn b)) k)).
    + apply promotes_pawns_filter. apply evasions_promote_pawns.
    + apply promotes_pawns_filter. apply pseudo_legal_promotes_pawns.
  - apply pseudo_legal_promotes_pawns.
Qed.

End PromotingPawns.

Lemma promotion_move_eta (m : chess.Move) (p : chess.PieceType) :
  chess.drop m = None -> chess.promotion m = Some p ->
  m = chess.mv_promote (chess.from_square m) (chess.to_square m) p.
Proof. destruct m as [f t pr d]. simpl. intros -> ->. reflexivity. Qed.

(** The piece that [make_moves] puts on the board when the move it draws
    is a promotion. *)
Lemma make_moves_promotes (st : State) (m : chess.Move) (p : chess.PieceType) :
  chess.stack (chessboard st) = [] ->
  chess.is_game_over (chessboard st) = false ->
  snd (random.choice (chess.legal_moves (chessboard st)) (rng st)) = Return m ->
  chess.promotion m = Some p ->
  In p PROMOTION_PIECES
  /\ (forall p', In p' PROMOTION_PIECES ->
        In (chess.mv_promote (chess.from_square m) (chess.to_square m) p')
           (chess.legal_moves (chessboard st)))
  /\ chess.piece_at (chessboard (fst (make_moves st))) (chess.to_square m)
     = Some {| chess.piece_type := p; chess.color := chess.turn (chessboard st) |}
  /\ (socketio.connected (sio st) = true ->
      socketio.sent (sio (fst (make_moves st)))
      = (socketio.sent (sio st)
         ++ [("move", move_payload (chess.from_square m) (chess.to_square m))])%list).
Proof.
  intros Hstack Hover Hdraw Hprom.
  destruct (make_moves_plays st Hover) as (m0 & b' & Hin & Hch & Hpush & E).
  rewrite Hch in Hdraw. cbn [snd] in Hdraw. injection Hdraw as ->.
  destruct (legal_moves_playable _ _ Hin) as [Hp Hne]. specialize (Hne Hstack).
  pose proof Hp as (Hd & Hf & Ht & Hs & _).
  pose proof (promotion_move_eta m p Hd Hprom) as Em.
  assert (Hpawn : chess.pawns (chessboard st) (chess.from_square m) = true).
  { apply (legal_moves_promote_pawns _ m Hin). rewrite Hprom. discriminate. }
  apply of_type_true in Hpawn. destruct Hpawn as [_ [pc [Hpc Hty]]].
  rewrite Em in Hin.
  destruct (legal_moves_promote_together _ _ _ _ Hin) as [Hp1 Hall].
  split; [exact Hp1 | split; [exact Hall |]].
  assert (Hb : chessboard (fst (make_moves st)) = fst (chess.push m (chessboard st))).
  { rewrite E, Hpush. destruct (socketio.connected (sio st)); reflexivity. }
  split.
  - rewrite Hb.
    rewrite (push_moves_piece (chessboard st) m pc Hp Hne Hpc).
    + rewrite Hprom. reflexivity.
    + rewrite Hty. discriminate.
    + rewrite Hprom. intros K. injection K as ->.
      unfold PROMOTION_PIECES in Hp1. simpl in Hp1.
      destruct Hp1 as [K | [K | [K | [K | []]]]]; discriminate.
  - intros Hconn. rewrite E, Hconn.
    destruct (uci_slices m Hd Hf Ht Hne) as [S1 S2]. rewrite S1, S2. reflexivity.
Qed.

(** The move that [on_move] reads from a dictionary whose [from] and [to]
    entries are the names of two different squares. *)
Lemma payload_move_names (d : list (string * pyval)) (f t : chess.Square) :
  f < 64 -> t < 64 -> f <> t ->
  dict_get d "from" = Return (PyStr (chess.square_name f)) ->
  dict_get d "to" = Return (PyStr (chess.square_name t)) ->
  payload_move (PyDict d) = Return (chess.mv f t).
Proof.
  intros Hf Ht Hne Hfrom Hto. unfold payload_move, py_getitem. rewrite Hfrom, Hto.
  unfold py_add, chess.from_uci. apply from_uci_square_names; assumption.
Qed.

Lemma move_payload_entries (f t : chess.Square) :
  exists d, move_payload f t = PyDict d
            /\ dict_get d "from" = Return (PyStr (chess.square_name f))
            /\ dict_get d "to" = Return (PyStr (chess.square_name t)).
Proof. eexists. split; [reflexivity | split; reflexivity]. Qed.

(** What [on_move] leaves on the destination square of a move between two
    named squares, when the piece that moves is no king. *)
Lemma on_move_moves_piece (d : list (string * pyval)) (f t : chess.Square)
    (pc : chess.Piece) (st : State) :
  pushable (chessboard st) (chess.mv f t) ->
  f <> t ->
  dict_get d "from" = Return (PyStr (chess.square_name f)) ->
  dict_get d "to" = Return (PyStr (chess.square_name t)) ->
  chess.piece_at (chessboard st) f = Some pc ->
  chess.piece_type pc <> chess.KING ->
  chess.piece_at (chessboard (fst (on_move (PyDict d) st))) t
  = Some {| chess.piece_type := chess.piece_type pc;
            chess.color := chess.turn (chessboard st) |}.
Proof.
  intros Hp Hne Hfrom Hto Hpc Hk.
  pose proof Hp as (_ & Hf & Ht & _).
  cbn [chess.mv chess.from_square chess.to_square] in Hf, Ht.
  pose proof (payload_move_names d f t Hf Ht Hne Hfrom Hto) as Hpay.
  pose proof (push_moves_piece (chessboard st) (chess.mv f t) pc Hp Hne Hpc Hk) as Hplace.
  cbn [chess.mv chess.from_square chess.to_square chess.promotion] in Hplace.
  rewrite on_move_cases, Hpay.
  destruct (chess.push (chess.mv f t) (chessboard st)) as [b' [[] | e]];
    cbn [fst] in *; apply Hplace; discriminate.
Qed.

(** X8 - reading back a move event.  From a dictionary whose "from" and
    "to" entries are the names of two different squares, [on_move] reads
    the move between these squares, without a promotion, whatever else the
    dictionary holds: its "promotion" entry is never read.  In particular
    the payload that [make_moves] sends for a move reads back as the move
    between the same squares. *)
Theorem move_event_parses_back_without_promotion :
  forall (d : list (string * pyval)) (f t : chess.Square),
    f < 64 -> t < 64 -> f <> t ->
    dict_get d "from" = Return (PyStr (chess.square_name f)) ->
    dict_get d "to" = Return (PyStr (chess.square_name t)) ->
    payload_move (PyDict d) = Return (chess.mv f t)
    /\ payload_move (move_payload f t) = Return (chess.mv f t).
Proof.
  intros d f t Hf Ht Hne Hfrom Hto. split.
  - exact (payload_move_names d f t Hf Ht Hne Hfrom Hto).
  - destruct (move_payload_entries f t) as (d' & -> & A & B).
    exact (payload_move_names d' f t Hf Ht Hne A B).
Qed.

Lemma move_event_parses_back_without_promotion_witness :
  payload_move (PyDict [("promotion", PyStr "n"); ("to", PyStr "a8"); ("from", PyStr "a7")])
  = Return (chess.mv 48 56)
  /\ payload_move (move_payload 48 56) = Return (chess.mv 48 56).
Proof.
  apply (move_event_parses_back_without_promotion
           [("promotion", PyStr "n"); ("to", PyStr "a8"); ("from", PyStr "a7")] 48 56);
    [lia | lia | lia | reflexivity | reflexivity].
Defined.

(** X9 - [on_move] never promotes.  When the payload names two different
    squares and the piece on the first is no king, the piece that arrives
    on the second has the type of the piece that left, also when a pawn
    reaches the last rank and the payload carries a promotion; and it has
    the colour of the side to move, whoever owned it.  The one exception
    is the capture on which [push] raises ([captures_off_board]): the pawn
    has then left its square and stands nowhere, the second square is
    empty as before. *)
Theorem on_move_never_promotes :
  forall (d : list (string * pyval)) (f t : chess.Square) (pc : chess.Piece) (st : State),
    f < 64 -> t < 64 -> f <> t ->
    dict_get d "from" = Return (PyStr (chess.square_name f)) ->
    dict_get d "to" = Return (PyStr (chess.square_name t)) ->
    chess.piece_at (chessboard st) f = Some pc ->
    chess.piece_type pc <> chess.KING ->
    if captures_off_board (chessboard st) (chess.mv f t)
    then chess.piece_at (chessboard (fst (on_move (PyDict d) st))) f = None
         /\ chess.piece_at (chessboard (fst (on_move (PyDict d) st))) t = None
    else chess.piece_at (chessboard (fst (on_move (PyDict d) st))) t
         = Some {| chess.piece_type := chess.piece_type pc;
                   chess.color := chess.turn (chessboard st) |}.
Proof.
  intros d f t pc st Hf Ht Hne Hfrom Hto Hpc Hk.
  pose proof (payload_move_names d f t Hf Ht Hne Hfrom Hto) as Hpay.
  assert (B : chessboard (fst (on_move (PyDict d) st))
              = fst (chess.push (chess.mv f t) (chessboard st))).
  { rewrite on_move_cases, Hpay.
    destruct (chess.push (chess.mv f t) (chessboard st)) as [b' [[] | e]]; reflexivity. }
  rewrite B.
  destruct (captures_off_board (chessboard st) (chess.mv f t)) eqn:Hc.
  - destruct (push_capture_off_board (chessboard st) (chess.mv f t) eq_refl Hc)
      as (_ & _ & A & C & _).
    split; [exact A | exact C].
  - exact (push_places_piece (chessboard st) (chess.mv f t) pc eq_refl Hf Ht Hc Hne Hpc Hk
             ltac:(discriminate)).
Qed.

Lemma on_move_never_promotes_witness :
  let g := {| random.entropy := fun _ => 0; random.drawn := 0 |} in
  let st := with_chessboard (board_of_fen "8/P7/8/8/8/8/8/k6K w - - 0 1") (initial_state g) in
  let d := [("from", PyStr "a7"); ("to", PyStr "a8"); ("promotion", PyStr "q")] in
  let st' := with_chessboard (board_of_fen "4k3/6p1/8/8/8/8/8/4K3 b - h8 0 1")
               (initial_state g) in
  let d' := [("from", PyStr "g7"); ("to", PyStr "h8")] in
  (chess.piece_at (chessboard st) 48
   = Some {| chess.piece_type := chess.PAWN; chess.color := true |}
   /\ chess.piece_at (chessboard (fst (on_move (PyDict d) st))) 56
      = Some {| chess.piece_type := chess.PAWN; chess.color := true |})
  /\ (chess.piece_at (chessboard st') 54
      = Some {| chess.piece_type := chess.PAWN; chess.color := false |}
      /\ chess.piece_at (chessboard (fst (on_move (PyDict d') st'))) 54 = None
      /\ chess.piece_at (chessboard (fst (on_move (PyDict d') st'))) 63 = None).
Proof.
  cbv zeta. split.
  - set (st := with_chessboard (board_of_fen "8/P7/8/8/8/8/8/k6K w - - 0 1")
                 (initial_state {| random.entropy := fun _ => 0; random.drawn := 0 |})).
    assert (Hpc : chess.piece_at (chessboard st) 48
                  = Some {| chess.piece_type := chess.PAWN; chess.color := true |})
      by (vm_compute; reflexivity).
    assert (Hturn : chess.turn (chessboard st) = true) by (vm_compute; reflexivity).
    assert (Hc : captures_off_board (chessboard st) (chess.mv 48 56) = false)
      by (vm_compute; reflexivity).
    split; [exact Hpc |].
    pose proof (on_move_never_promotes
                  [("from", PyStr "a7"); ("to", PyStr "a8"); ("promotion", PyStr "q")]
                  48 56 _ st ltac:(lia) ltac:(lia) ltac:(lia) eq_refl eq_refl Hpc
                  ltac:(discriminate)) as H.
    rewrite Hc in H. rewrite H, Hturn. reflexivity.
  - set (st' := with_chessboard (board_of_fen "4k3/6p1/8/8/8/8/8/4K3 b - h8 0 1")
                  (initial_state {| random.entropy := fun _ => 0; random.drawn := 0 |})).
    assert (Hpc : chess.piece_at (chessboard st') 54
                  = Some {| chess.piece_type := chess.PAWN; chess.color := false |})
      by (vm_compute; reflexivity).
    assert (Hc : captures_off_board (chessboard st') (chess.mv 54 63) = true)
      by (vm_compute; reflexivity).
    split; [exact Hpc |].
    pose proof (on_move_never_promotes [("from", PyStr "g7"); ("to", PyStr "h8")]
                  54 63 _ st' ltac:(lia) ltac:(lia) ltac:(lia) eq_refl eq_refl Hpc
                  ltac:(discriminate)) as H.
    rewrite Hc in H. exact H.
Defined.

Lemma plain_move_eta (m : chess.Move) :
  chess.drop m = None -> chess.promotion m = None ->
  chess.mv (chess.from_square m) (chess.to_square m) = m.
Proof. destruct m as [f t pr d]. simpl. intros -> ->. reflexivity. Qed.

(** X10 - a move without promotion survives the round trip.  When a
    legal move without promotion of a position as [set_fen] leaves it is
    sent the way [make_moves] sends it, [on_move] on the same position
    ends with the board that playing the move itself gives. *)
Theorem on_move_replays_unpromoted_own_move :
  forall (st peer : State) (m : chess.Move),
    chess.stack (chessboard st) = [] ->
    In m (chess.legal_moves (chessboard st)) ->
    chess.promotion m = None ->
    chessboard peer = chessboard st ->
    chessboard (fst (on_move (move_payload (chess.from_square m) (chess.to_square m)) peer))
    = fst (chess.push m (chessboard st)).
Proof.
  intros st peer m Hstack Hin Hprom Hsame.
  destruct (legal_moves_playable _ _ Hin) as [(Hd & Hf & Ht & _) Hne].
  specialize (Hne Hstack).
  destruct (move_payload_entries (chess.from_square m) (chess.to_square m))
    as (d & -> & A & B).
  rewrite on_move_cases, (payload_move_names d _ _ Hf Ht Hne A B).
  rewrite (plain_move_eta m Hd Hprom), Hsame.
  destruct (chess.push m (chessboard st)) as [b' [[] | e]]; reflexivity.
Qed.

Lemma on_move_replays_unpromoted_own_move_witness :
  let st := initial_state {| random.entropy := fun _ => 0; random.drawn := 0 |} in
  In (chess.mv 12 28) (chess.legal_moves (chessboard st))
  /\ chessboard (fst (on_move (move_payload 12 28) st))
     = fst (chess.push (chess.mv 12 28) (chessboard st)).
Proof.
  cbv zeta.
  set (st := initial_state {| random.entropy := fun _ => 0; random.drawn := 0 |}).
  assert (H : In (chess.mv 12 28) (chess.legal_moves (chessboard st))).
  { vm_compute. repeat (first [left; reflexivity | right]). }
  split; [exact H |].
  exact (on_move_replays_unpromoted_own_move st st (chess.mv 12 28) eq_refl H eq_refl eq_refl).
Defined.

(** X11 - promotions are played locally as drawn and sent as "q".  When
    the move drawn by [make_moves] promotes to [p], then [p] is one of
    queen, rook, bishop and knight and all four promotions of that pawn
    step are legal moves, so each can be drawn; the board gets a piece of
    type [p] on the destination, the event sent says "q" whatever [p] is,
    and a client that receives this event in [on_move] on the same
    position leaves a pawn there. *)
Theorem make_moves_promotes_locally_but_sends_q :
  forall (st peer : State) (m : chess.Move) (p : chess.PieceType),
    chess.stack (chessboard st) = [] ->
    chess.is_game_over (chessboard st) = false ->
    socketio.connected (sio st) = true ->
    snd (random.choice (chess.legal_moves (chessboard st)) (rng st)) = Return m ->
    chess.promotion m = Some p ->
    chessboard peer = chessboard st ->
    let event := ("move", move_payload (chess.from_square m) (chess.to_square m)) in
    In p PROMOTION_PIECES
    /\ (forall p', In p' PROMOTION_PIECES ->
          In (chess.mv_promote (chess.from_square m) (chess.to_square m) p')
             (chess.legal_moves (chessboard st)))
    /\ socketio.sent (sio (fst (make_moves st))) = (socketio.sent (sio st) ++ [event])%list
    /\ chess.piece_at (chessboard (fst (make_moves st))) (chess.to_square m)
       = Some {| chess.piece_type := p; chess.color := chess.turn (chessboard st) |}
    /\ chess.piece_at (chessboard (fst (on_move (snd event) peer))) (chess.to_square m)
       = Some {| chess.piece_type := chess.PAWN; chess.color := chess.turn (chessboard st) |}.
Proof.
  intros st peer m p Hstack Hover Hconn Hdraw Hprom Hsame. cbv zeta. cbn [snd].
  destruct (make_moves_promotes st m p Hstack Hover Hdraw Hprom) as (A & B & C & D).
  split; [exact A | split; [exact B | split; [exact (D Hconn) | split; [exact C |]]]].
  assert (Hin : In m (chess.legal_moves (chessboard st))).
  { destruct (choice_nonempty _ (rng st) (not_over_has_legal_move _ Hover)) as [x [Hx E]].
    rewrite E in Hdraw. cbn [snd] in Hdraw. injection Hdraw as ->. exact Hx. }
  destruct (legal_moves_playable _ _ Hin) as [Hp Hne]. specialize (Hne Hstack).
  assert (Hpawn : chess.pawns (chessboard st) (chess.from_square m) = true).
  { apply (legal_moves_promote_pawns _ m Hin). rewrite Hprom. discriminate. }
  apply of_type_true in Hpawn. destruct Hpawn as [_ [pc [Hpc Hty]]].
  destruct (move_payload_entries (chess.from_square m) (chess.to_square m))
    as (d & -> & E1 & E2).
  assert (Hp' : pushable (chessboard peer)
                  (chess.mv (chess.from_square m) (chess.to_square m))).
  { rewrite Hsame. destruct Hp as (_ & Hf & Ht & Hs & Hep).
    unfold pushable. cbn [chess.mv chess.drop chess.from_square chess.to_square].
    split; [reflexivity | split; [exact Hf | split; [exact Ht | split; [exact Hs | exact Hep]]]]. }
  rewrite <- Hsame in Hpc.
  rewrite (on_move_moves_piece d _ _ pc peer Hp' Hne E1 E2 Hpc).
  - rewrite Hty, Hsame. reflexivity.
  - rewrite Hty. discriminate.
Qed.

Lemma make_moves_promotes_locally_but_sends_q_witness :
  let board := board_of_fen "8/P7/8/8/8/8/8/k6K w - - 0 1" in
  let st := with_chessboard board
              (fst (on_sio (socketio.connect "http://localhost:3000" true)
                      (initial_state {| random.entropy := fun _ => 6; random.drawn := 0 |}))) in
  snd (random.choice (chess.legal_moves (chessboard st)) (rng st))
  = Return (chess.mv_promote 48 56 chess.KNIGHT)
  /\ socketio.sent (sio (fst (make_moves st)))
     = [("move", PyDict [("from", PyStr "a7"); ("to", PyStr "a8"); ("promotion", PyStr "q")])]
  /\ chess.piece_at (chessboard (fst (make_moves st))) 56
     = Some {| chess.piece_type := chess.KNIGHT; chess.color := true |}
  /\ chess.piece_at (chessboard (fst (on_move (move_payload 48 56) st))) 56
     = Some {| chess.piece_type := chess.PAWN; chess.color := true |}.
Proof.
  cbv zeta.
  set (st := with_chessboard (board_of_fen "8/P7/8/8/8/8/8/k6K w - - 0 1")
              (fst (on_sio (socketio.connect "http://localhost:3000" true)
                      (initial_state {| random.entropy := fun _ => 6; random.drawn := 0 |})))).
  assert (H1 : chess.stack (chessboard st) = []) by (vm_compute; reflexivity).
  assert (H2 : chess.is_game_over (chessboard st) = false) by (vm_compute; reflexivity).
  assert (H3 : socketio.connected (sio st) = true) by reflexivity.
  assert (H4 : snd (random.choice (chess.legal_moves (chessboard st)) (rng st))
               = Return (chess.mv_promote 48 56 chess.KNIGHT)) by (vm_compute; reflexivity).
  assert (H5 : chess.turn (chessboard st) = true) by (vm_compute; reflexivity).
  destruct (make_moves_promotes_locally_but_sends_q st st _ chess.KNIGHT
              H1 H2 H3 H4 eq_refl eq_refl) as (_ & _ & A & B & C).
  cbn [chess.mv_promote chess.from_square chess.to_square snd] in A, B, C.
  rewrite H5 in B, C.
  split; [exact H4 | split; [exact A | split; [exact B | exact C]]].
Defined.

(** X13 - after a board-state event the other side is to move.  When
    the text decodes to a position where the game is not over, the board
    that [on_boardstate] leaves never has the side named by the stored role
    to move: either it was not the client's turn, or the client has played
    one move, connected or not. *)
Theorem on_boardstate_leaves_the_other_side_to_move :
  forall (fen : pyval) (st : State) (b' : chess.Board),
    chess.set_fen fen (chessboard st) = (b', Return tt) ->
    chess.is_game_over b' = false ->
    py_eq_str (turn_name (chessboard (fst (on_boardstate fen st)))) (player_role st) = false.
Proof.
  intros fen st b' Hfen Hover.
  rewrite (on_boardstate_decoded st fen b' Hfen).
  destruct (py_eq_str (turn_name b') (player_role st)) eqn:Hrole; [| exact Hrole].
  destruct (make_moves_plays (board_updated fen b' st) Hover) as (m & b'' & Hin & _ & Hpush & E).
  cbn [board_updated chessboard sio] in Hin, Hpush, E.
  destruct (push_legal_returns _ _ Hin) as [_ Hturn]. rewrite Hpush in Hturn. cbn [fst] in Hturn.
  assert (Hb : chessboard (fst (make_moves (board_updated fen b' st))) = b'').
  { rewrite E. destruct (socketio.connected (sio st)); reflexivity. }
  rewrite Hb.
  destruct (player_role st) as [| | | role | |]; try discriminate.
  unfold py_eq_str in *. apply String.eqb_eq in Hrole. subst role.
  unfold turn_name. rewrite Hturn. destruct (chess.turn b'); reflexivity.
Qed.

Lemma on_boardstate_leaves_the_other_side_to_move_witness :
  let st := fst (on_player_role (PyStr "w")
                   (initial_state {| random.entropy := fun _ => 0; random.drawn := 0 |})) in
  chess.set_fen (PyStr chess.STARTING_FEN) (chessboard st) = (chess.Board_new, Return tt)
  /\ py_eq_str (turn_name (chessboard (fst (on_boardstate (PyStr chess.STARTING_FEN) st))))
       (player_role st) = false.
Proof.
  cbv zeta.
  set (st := fst (on_player_role (PyStr "w")
                   (initial_state {| random.entropy := fun _ => 0; random.drawn := 0 |}))).
  assert (H1 : chess.set_fen (PyStr chess.STARTING_FEN) (chessboard st)
               = (chess.Board_new, Return tt)) by (vm_compute; reflexivity).
  assert (H2 : chess.is_game_over chess.Board_new = false) by (vm_compute; reflexivity).
  split; [exact H1 |].
  exact (on_boardstate_leaves_the_other_side_to_move _ st _ H1 H2).
Defined.

(** [make_moves] reads nothing of what has been printed. *)
Lemma make_moves_agree (st1 st2 : State) :
  agree_but_stdout st1 st2 ->
  snd (make_moves st1) = snd (make_moves st2)
  /\ agree_but_stdout (fst (make_moves st1)) (fst (make_moves st2)).
Proof.
  destruct st1 as [c1 b1 r1 o1 g1], st2 as [c2 b2 r2 o2 g2].
  unfold agree_but_stdout. cbn [sio chessboard player_role rng].
  intros (-> & -> & -> & ->).
  unfold make_moves, bind, get_chessboard. cbn [chessboard].
  destruct (chess.is_game_over b2).
  - split; [reflexivity |]. cbn [print fst sio chessboard player_role rng].
    split; [reflexivity | split; [reflexivity | split; reflexivity]].
  - unfold on_rng. cbn [rng sio chessboard player_role stdout].
    destruct (random.choice (chess.legal_moves b2) g2) as [g [m | e]];
      [| split; [reflexivity | repeat split]].
    unfold on_chessboard. cbn [rng sio chessboard player_role stdout].
    destruct (chess.push m b2) as [b' [[] | e]];
      [| split; [reflexivity | repeat split]].
    unfold on_sio, socketio.emit. cbn [rng sio chessboard player_role stdout].
    destruct (socketio.connected c2); split; try reflexivity; repeat split.
Qed.

(** [on_boardstate] with a text that [set_fen] accepts reads neither the
    board it replaces nor what has been printed. *)
Lemma on_boardstate_agree (fen : pyval) (b b' : chess.Board) (st1 st2 : State) :
  chess.set_fen fen b = (b', Return tt) ->
  sio st1 = sio st2 -> player_role st1 = player_role st2 -> rng st1 = rng st2 ->
  snd (on_boardstate fen st1) = snd (on_boardstate fen st2)
  /\ agree_but_stdout (fst (on_boardstate fen st1)) (fst (on_boardstate fen st2)).
Proof.
  intros Hfen Hsio Hrole Hrng.
  rewrite (on_boardstate_decoded st1 fen b' (set_fen_wholesale fen b b' _ Hfen)).
  rewrite (on_boardstate_decoded st2 fen b' (set_fen_wholesale fen b b' _ Hfen)).
  assert (A : agree_but_stdout (board_updated fen b' st1) (board_updated fen b' st2)).
  { unfold agree_but_stdout, board_updated. cbn [sio chessboard player_role rng].
    split; [exact Hsio | split; [reflexivity | split; [exact Hrole | exact Hrng]]]. }
  rewrite Hrole. destruct (py_eq_str (turn_name b') (player_role st2)).
  - exact (make_moves_agree _ _ A).
  - split; [reflexivity | exact A].
Qed.

(** X14 - a board-state event overrides what [on_move] did.  For a text
    that [set_fen] accepts, [on_boardstate] after any [on_move] ends with
    the same outcome, board, client, role and generator as without it:
    only the printed lines differ. *)
Theorem on_boardstate_overrides_on_move :
  forall (fen move : pyval) (st : State),
    snd (chess.set_fen fen (chessboard st)) = Return tt ->
    snd (on_boardstate fen (fst (on_move move st))) = snd (on_boardstate fen st)
    /\ agree_but_stdout (fst (on_boardstate fen (fst (on_move move st))))
         (fst (on_boardstate fen st)).
Proof.
  intros fen move st Hfen.
  destruct (chess.set_fen fen (chessboard st)) as [b' o] eqn:E. cbn [snd] in Hfen. subst o.
  destruct (on_move_frame move st) as (A & B & C & _).
  exact (on_boardstate_agree fen (chessboard st) b' _ _ E A C B).
Qed.

Lemma on_boardstate_overrides_on_move_witness :
  let st := fst (on_player_role (PyStr "b")
                   (initial_state {| random.entropy := fun _ => 0; random.drawn := 0 |})) in
  let move := PyDict [("from", PyStr "e2"); ("to", PyStr "e5")] in
  snd (chess.set_fen (PyStr chess.STARTING_FEN) (chessboard st)) = Return tt
  /\ chessboard (fst (on_boardstate (PyStr chess.STARTING_FEN) (fst (on_move move st))))
     = chessboard (fst (on_boardstate (PyStr chess.STARTING_FEN) st)).
Proof.
  cbv zeta.
  set (st := fst (on_player_role (PyStr "b")
                   (initial_state {| random.entropy := fun _ => 0; random.drawn := 0 |}))).
  assert (H : snd (chess.set_fen (PyStr chess.STARTING_FEN) (chessboard st)) = Return tt)
    by (vm_compute; reflexivity).
  split; [exact H |].
  destruct (on_boardstate_overrides_on_move (PyStr chess.STARTING_FEN)
              (PyDict [("from", PyStr "e2"); ("to", PyStr "e5")]) st H) as (_ & _ & B & _).
  exact B.
Defined.


Section EmptyOrigin.
Import chess.

Lemma empty_not_in_kings (b : BoardState) (sq : Square) :
  piece_at b sq = None -> kings b sq = false.
Proof. intros H. unfold kings, of_type. rewrite H. apply andb_false_r. Qed.

Lemma to_chess960_empty (b : BoardState) (m : Move) :
  piece_at b (from_square m) = None -> to_chess960 b m = m.
Proof.
  intros Hp. unfold to_chess960.
  destruct (Nat.eqb (from_square m) E1) eqn:A.
  - apply Nat.eqb_eq in A. rewrite <- A, (empty_not_in_kings b _ Hp). simpl.
    destruct (Nat.eqb (from_square m) E8) eqn:B; [| reflexivity].
    apply Nat.eqb_eq in B. rewrite A in B. discriminate.
  - simpl. destruct (Nat.eqb (from_square m) E8) eqn:B; [| reflexivity].
    apply Nat.eqb_eq in B. rewrite <- B, (empty_not_in_kings b _ Hp). reflexivity.
Qed.

(** [push] of a move that starts on an empty square: the assertion fails
    with the pieces and the side to move as they were, but with the move
    and the old state already on the stacks. *)
Lemma push_from_empty_square (b : Board) (m : Move) :
  drop m = None ->
  from_square m <> to_square m ->
  piece_at b (from_square m) = None ->
  snd (push m b) = Raise AssertionError
  /\ pieces (fst (push m b)) = pieces b
  /\ turn (fst (push m b)) = turn b
  /\ length (move_stack (fst (push m b))) = S (length (move_stack b))
  /\ stack (fst (push m b)) = (stack b ++ [state b])%list.
Proof.
  intros Hd Hne Hp. unfold push. rewrite (to_chess960_empty b m Hp).
  cbv zeta. rewrite (Move_bool_distinct m Hne). cbn [negb]. rewrite Hd.
  set (s1 := {| pieces := pieces b; promoted := promoted b; turn := turn b;
                castling_rights := gset_of (clean_castling_rights b); ep_square := None;
                halfmove_clock := S (halfmove_clock b);
                fullmove_number := if turn b then fullmove_number b
                                   else S (fullmove_number b) |}).
  set (s2 := if is_zeroing s1 m then with_halfmove_clock s1 0 else s1).
  assert (P2 : pieces s2 = pieces b) by (unfold s2; destruct (is_zeroing s1 m); reflexivity).
  assert (T2 : turn s2 = turn b) by (unfold s2; destruct (is_zeroing s1 m); reflexivity).
  assert (L : piece_type_at s2 (from_square m) = None).
  { unfold piece_type_at, piece_at. rewrite P2. unfold piece_at in Hp. rewrite Hp.
    reflexivity. }
  rewrite L. cbn [fst snd state move_stack stack].
  split; [reflexivity | split; [exact P2 | split; [exact T2 | split; [| reflexivity]]]].
  rewrite length_app. simpl. lia.
Qed.

End EmptyOrigin.

(** X6 - a move from an empty square.  [on_move] reports it as invalid,
    with the assertion of [push], and the pieces and the side to move are
    as before; but the move stack of the board is one longer than before
    the event: [push] records the move before it looks for the piece, and
    nothing takes it back. *)
Theorem on_move_from_empty_square_leaves_a_trace :
  forall (move : pyval) (m : chess.Move) (st : State),
    payload_move move = Return m ->
    chess.drop m = None ->
    chess.from_square m <> chess.to_square m ->
    chess.piece_at (chessboard st) (chess.from_square m) = None ->
    stdout (fst (on_move move st))
    = (stdout st ++ [[Str "Invalid move received:"; PVal move; PExn AssertionError]])%list
    /\ chess.pieces (chessboard (fst (on_move move st))) = chess.pieces (chessboard st)
    /\ chess.turn (chessboard (fst (on_move move st))) = chess.turn (chessboard st)
    /\ length (chess.move_stack (chessboard (fst (on_move move st))))
       = S (length (chess.move_stack (chessboard st))).
Proof.
  intros move m st Hpay Hd Hne Hp.
  destruct (push_from_empty_square (chessboard st) m Hd Hne Hp) as (A & B & C & D & _).
  rewrite on_move_cases, Hpay.
  destruct (chess.push m (chessboard st)) as [b' [[] | e]]; cbn [fst snd] in *;
    [discriminate |].
  injection A as ->.
  split; [reflexivity | split; [exact B | split; [exact C | exact D]]].
Qed.

Lemma on_move_from_empty_square_leaves_a_trace_witness :
  let move := PyDict [("from", PyStr "a3"); ("to", PyStr "a4")] in
  let st := initial_state {| random.entropy := fun _ => 0; random.drawn := 0 |} in
  payload_move move = Return (chess.mv 16 24)
  /\ chess.pieces (chessboard (fst (on_move move st))) = chess.pieces (chessboard st)
  /\ length (chess.move_stack (chessboard (fst (on_move move st)))) = 1.
Proof.
  cbv zeta.
  assert (Hpay : payload_move (PyDict [("from", PyStr "a3"); ("to", PyStr "a4")])
                 = Return (chess.mv 16 24)) by (vm_compute; reflexivity).
  assert (Hp : chess.piece_at
                 (chessboard (initial_state {| random.entropy := fun _ => 0;
                                               random.drawn := 0 |})) 16 = None)
    by (vm_compute; reflexivity).
  destruct (on_move_from_empty_square_leaves_a_trace _ (chess.mv 16 24)
              (initial_state {| random.entropy := fun _ => 0; random.drawn := 0 |})
              Hpay eq_refl ltac:(cbn; lia) Hp) as (_ & A & _ & B).
  split; [exact Hpay | split; [exact A | exact B]].
Defined.

Section Drops.
Import chess.

(** A move that [from_uci] reads with a drop stays on its square. *)
Lemma from_uci_str_drop (u : string) (m : Move) (d : PieceType) :
  from_uci_str u = Return m -> drop m = Some d -> from_square m = to_square m.
Proof.
  unfold from_uci_str. cbv zeta.
  repeat match goal with
         | |- context [match ?x with _ => _ end] => destruct x
         end;
    intros H; try discriminate; injection H as <-; cbn; intros Hd;
    try discriminate; reflexivity.
Qed.

Lemma payload_move_drop (move : pyval) (m : Move) (d : PieceType) :
  payload_move move = Return m -> drop m = Some d -> from_square m = to_square m.
Proof.
  unfold payload_move.
  destruct (py_getitem move "from") as [o |]; [| discriminate].
  destruct (py_getitem move "to") as [t |]; [| discriminate].
  destruct (py_add o t) as [text |]; [| discriminate].
  unfold from_uci.
  destruct text as [| | | u | l |]; try discriminate.
  - apply from_uci_str_drop.
  - repeat match goal with
           | |- context [match ?x with _ => _ end] => destruct x
           end; discriminate.
Qed.

Lemma to_chess960_drop (b : BoardState) (m : Move) :
  from_square m = to_square m -> to_chess960 b m = m.
Proof.
  intros E. unfold to_chess960. rewrite <- E.
  destruct (Nat.eqb (from_square m) E1) eqn:A.
  - apply Nat.eqb_eq in A. rewrite A. cbn [Nat.eqb E1 G1 C1 E8 andb].
    destruct (kings b E1); reflexivity.
  - cbn [andb]. destruct (Nat.eqb (from_square m) E8) eqn:B; [| reflexivity].
    apply Nat.eqb_eq in B. rewrite B. cbn [Nat.eqb E8 G8 C8 andb].
    destruct (kings b E8); reflexivity.
Qed.

Lemma push_drop (b : Board) (m : Move) (d : PieceType) :
  drop m = Some d -> from_square m = to_square m ->
  snd (push m b) = Return tt
  /\ pieces (fst (push m b))
     = <[to_square m := {| piece_type := d; color := turn b |}]> (pieces b)
  /\ turn (fst (push m b)) = negb (turn b).
Proof.
  intros Hd E. unfold push. rewrite (to_chess960_drop b m E). cbv zeta.
  assert (B : Move_bool m = true).
  { unfold Move_bool. rewrite Hd. cbn [isSome]. rewrite !orb_true_r. reflexivity. }
  rewrite B. cbn [negb]. rewrite Hd. cbn [fst snd state].
  split; [reflexivity | split; reflexivity].
Qed.

End Drops.

(** X7 - drops.  A payload whose text is a drop, such as "Q@" and "e4",
    is accepted by [on_move]: a piece of the named type in the colour of
    the side to move appears on the square, the turn passes and the line
    for a move played is printed. *)
Theorem on_move_accepts_drops :
  forall (move : pyval) (m : chess.Move) (d : chess.PieceType) (st : State),
    payload_move move = Return m ->
    chess.drop m = Some d ->
    stdout (fst (on_move move st))
    = (stdout st ++ [[Str "Opponent moved:"; PVal move]])%list
    /\ chess.pieces (chessboard (fst (on_move move st)))
       = <[chess.to_square m := {| chess.piece_type := d;
                                   chess.color := chess.turn (chessboard st) |}]>
           (chess.pieces (chessboard st))
    /\ chess.turn (chessboard (fst (on_move move st))) = negb (chess.turn (chessboard st)).
Proof.
  intros move m d st Hpay Hd.
  destruct (push_drop (chessboard st) m d Hd (payload_move_drop move m d Hpay Hd))
    as (A & B & C).
  rewrite on_move_cases, Hpay.
  destruct (chess.push m (chessboard st)) as [b' [[] | e]]; cbn [fst snd] in *;
    [| discriminate].
  split; [reflexivity | split; [exact B | exact C]].
Qed.

Lemma on_move_accepts_drops_witness :
  let move := PyDict [("from", PyStr "Q@"); ("to", PyStr "e4")] in
  let st := initial_state {| random.entropy := fun _ => 0; random.drawn := 0 |} in
  payload_move move
  = Return {| chess.from_square := 28; chess.to_square := 28;
              chess.promotion := None; chess.drop := Some chess.QUEEN |}
  /\ chess.piece_at (chessboard (fst (on_move move st))) 28
     = Some {| chess.piece_type := chess.QUEEN; chess.color := true |}.
Proof.
  cbv zeta.
  assert (Hpay : payload_move (PyDict [("from", PyStr "Q@"); ("to", PyStr "e4")])
                 = Return {| chess.from_square := 28; chess.to_square := 28;
                             chess.promotion := None; chess.drop := Some chess.QUEEN |})
    by (vm_compute; reflexivity).
  split; [exact Hpay |].
  destruct (on_move_accepts_drops _ _ chess.QUEEN
              (initial_state {| random.entropy := fun _ => 0; random.drawn := 0 |})
              Hpay eq_refl) as (_ & A & _).
  unfold chess.piece_at. rewrite A. cbn [chess.to_square]. rewrite lookup_insert_eq.
  reflexivity.
Defined.

(** ** The start-up script *)

(** X15 - how the module ends.  From every state and whatever the server
    pushes, running the module's statements raises exactly when the server
    cannot be reached, and then with [ConnectionError]: the exception of
    [sio.connect] is not caught, only the first line has been printed and
    [sio.wait] is not reached.  When the server is reached the module
    returns, whatever the handlers invoked in [sio.wait] did. *)
Theorem main_raises_only_when_unreachable :
  forall (reachable : bool) (events : list (string * list pyval)) (st : State),
    snd (main reachable events st)
    = (if reachable then Return tt else Raise ConnectionError)
    /\ fst (main false events st)
       = printed_line [Str "🔍 Trying to connect to server..."] st.
Proof.
  intros reachable events st. split.
  - destruct reachable; reflexivity.
  - destruct st as [c b r o g]. destruct c. reflexivity.
Qed.
